(** * Covalent dispatcher core: a shallow embedding and its properties

    The development follows four source files:
    - [covalent_dispatcher/_core/execution.py]: input assembly, the task
      runner, the wave scheduler and the dispatcher entry point;
    - [covalent/_data_store/datastore.py]: the transactional session;
    - [covalent_dispatcher/_db/dispatchdb.py]: the JSON encoding of a Result;
    - [covalent/_shared_files/util_classes.py]: the [Status] dataclass.

    Python values are a tree type [pyval]; exceptions are values of [exn];
    code that can raise returns an [outcome]; code that also mutates the
    Result, reads the clock or talks to collaborators runs in the state
    monad [M] over a [World]. *)

From Stdlib Require Import ZArith String Ascii List Bool Lia.
From stdpp Require Import base option gmap strings list sorting.

#[local] Set Warnings "-register-all".
#[local] Open Scope string_scope.
#[local] Open Scope list_scope.

(* ===================================================================== *)
(** * Python values, statuses, exceptions *)
(* ===================================================================== *)

(** [util_classes.Status]: a dataclass with the single field [STATUS]. *)
Record Status := mkStatus { STATUS : string }.

#[global] Instance Status_eq_dec : EqDecision Status.
Proof. solve_decision. Defined.

(** [Status.__bool__]: true unless the tag is ["NEW_OBJECT"]. *)
Definition Status_bool (s : Status) : bool :=
  negb (String.eqb (STATUS s) "NEW_OBJECT").

(** [Status.__str__]. *)
Definition Status_str (s : Status) : string := STATUS s.

(** The status constants the dispatcher uses ([Result.COMPLETED] and so
    on); each is [Status(<tag>)]. *)
Module Result_.
Definition NEW_OBJ := mkStatus "NEW_OBJECT".
Definition COMPLETED := mkStatus "COMPLETED".
Definition FAILED := mkStatus "FAILED".
Definition RUNNING := mkStatus "RUNNING".
Definition CANCELLED := mkStatus "CANCELLED".
Definition POSTPROCESSING := mkStatus "POSTPROCESSING".
Definition PENDING_POSTPROCESSING := mkStatus "PENDING_POSTPROCESSING".
Definition POSTPROCESSING_FAILED := mkStatus "POSTPROCESSING_FAILED".
End Result_.

(** A [datetime.datetime], as microseconds since the epoch. *)
Record datetime := mkDatetime { usec : Z }.

#[global] Instance datetime_eq_dec : EqDecision datetime.
Proof. solve_decision. Defined.

(** A Python float: only the split between NaN, the infinities and the
    finite values (mantissa, binary exponent) matters here. *)
Inductive pyfloat :=
| FNaN
| FInf (negative : bool)
| FFinite (mantissa exponent : Z).

(** Python values. [PObject] is any object without a JSON form of its own
    (a callable, an executor, ...), named by a label; [PTransportable] is a
    [TransportableObject] around a host value. *)
Inductive pyval :=
| PNone
| PBool (b : bool)
| PInt (z : Z)
| PFloat (f : pyfloat)
| PStr (s : string)
| PList (l : list pyval)
| PDict (d : gmap string pyval)
| PStatus (s : Status)
| PDatetime (t : datetime)
| PObject (label : string)
| PTransportable (v : pyval).

(** A raised exception: its class name and its message. *)
Record exn := mkExn { exn_type : string; exn_msg : string }.

Definition KeyError (k : string) : exn := mkExn "KeyError" k.
Definition IndexError (m : string) : exn := mkExn "IndexError" m.
Definition RuntimeError (m : string) : exn := mkExn "RuntimeError" m.
Definition NotImplementedError : exn := mkExn "NotImplementedError" "".

(** The result of code that returns or raises. *)
Inductive outcome (A : Type) :=
| Ok (a : A)
| Raise (e : exn).
Arguments Ok {A} a.
Arguments Raise {A} e.

#[global] Instance outcome_ret : MRet outcome := fun A a => Ok a.

#[global] Instance outcome_bind : MBind outcome := fun A B k o =>
  match o with
  | Ok a => k a
  | Raise e => Raise e
  end.

(** A [for] loop whose body may raise, threading an accumulator. *)
Fixpoint ofold {A B} (body : A → B → outcome A) (acc : A) (xs : list B)
  : outcome A :=
  match xs with
  | [] => Ok acc
  | x :: xs' => acc' ← body acc x; ofold body acc' xs'
  end.

(** A list comprehension whose element expression may raise. *)
Fixpoint omap {A B} (f : A → outcome B) (xs : list A) : outcome (list B) :=
  match xs with
  | [] => Ok []
  | x :: xs' => y ← f x; ys ← omap f xs'; Ok (y :: ys)
  end.

(** The line feed, ["\n"]. *)
Definition LF : string := String (ascii_of_nat 10) EmptyString.

(** [str.startswith]. *)
Definition startswith (s prefix : string) : bool := String.prefix prefix s.

(** Modelled from the spec: the marker prefixes of
    [covalent/_shared_files/defaults.py], which is not part of the sources;
    the values are those of the marker table of the external interfaces. *)
Definition prefix_separator := ":".
Definition parameter_prefix := ":parameter:".
Definition subscript_prefix := ":subscript:".
Definition attr_prefix := ":attribute:".
Definition generator_prefix := ":generator:".
Definition electron_list_prefix := ":electron_list:".
Definition electron_dict_prefix := ":electron_dict:".
Definition sublattice_prefix := ":sublattice:".

(** Modelled from the spec: [TransportableObject.make_transportable], the
    [wrap] operation of a transportable value (its class is not part of the
    sources). *)
Definition make_transportable (v : pyval) : pyval := PTransportable v.

(* ===================================================================== *)
(** * The transport graph and the Result *)
(* ===================================================================== *)

(** Modelled from the spec: an edge record (node ids are integers).
    [param_type] is the string the code compares with ["arg"] and
    ["kwarg"]; a wait-only edge carries ["wait_only"] and the edge name
    ["!waiting_edge"]. *)
Record Edge := mkEdge {
  e_parent : Z;
  e_child : Z;
  param_type : string;
  edge_name : string;
  arg_index : option nat;
}.

Definition WAIT_EDGE_NAME := "!waiting_edge".
Definition wait_only := "wait_only".

(** The dependency bundle of a node's metadata: the optional ["bash"] and
    ["pip"] entries of [metadata["deps"]]. *)
Record Deps := mkDeps {
  deps_bash : option pyval;
  deps_pip : option pyval;
}.

(** A node's [metadata] dictionary; a key that is absent is [None] and
    reading it raises [KeyError]. *)
Record Metadata := mkMetadata {
  md_executor : option string;
  md_executor_data : option pyval;
  md_deps : option Deps;
  md_call_before : option (list pyval);
  md_call_after : option (list pyval);
}.

(** Modelled from the spec: a node's attribute bag.  [n_value], [n_key]
    and [n_attribute_name] exist on parameter, subscript/generator and
    attribute nodes only ([None]: the attribute is absent). The type [R] is
    the type of a Result (for [sublattice_result]). *)
Record Node_ (R : Type) := mkNode {
  n_name : string;
  n_function : pyval;
  n_value : option pyval;
  n_key : option pyval;
  n_attribute_name : option string;
  n_metadata : Metadata;
  n_output : pyval;
  n_status : Status;
  n_start_time : option datetime;
  n_end_time : option datetime;
  n_error : option string;
  n_stdout : option string;
  n_stderr : option string;
  n_sublattice_result : option R;
}.
Arguments mkNode {R}.
Arguments n_name {R}.
Arguments n_function {R}.
Arguments n_value {R}.
Arguments n_key {R}.
Arguments n_attribute_name {R}.
Arguments n_metadata {R}.
Arguments n_output {R}.
Arguments n_status {R}.
Arguments n_start_time {R}.
Arguments n_end_time {R}.
Arguments n_error {R}.
Arguments n_stdout {R}.
Arguments n_stderr {R}.
Arguments n_sublattice_result {R}.

(** Modelled from the spec: the transport graph, a multigraph whose edges
    are kept in insertion order. *)
Record TransportGraph_ (R : Type) := mkGraph {
  g_nodes : gmap Z (Node_ R);
  g_edges : list Edge;
}.
Arguments mkGraph {R}.
Arguments g_nodes {R}.
Arguments g_edges {R}.

(** The lattice: its transport graph and the metadata the dispatcher
    reads. *)
Record Lattice_ (R : Type) := mkLattice {
  transport_graph : TransportGraph_ R;
  workflow_executor : string;
  workflow_executor_data : pyval;
  lattice_results_dir : string;
  schedule : bool;
}.
Arguments mkLattice {R}.
Arguments transport_graph {R}.
Arguments workflow_executor {R}.
Arguments workflow_executor_data {R}.
Arguments lattice_results_dir {R}.
Arguments schedule {R}.

(** The Result of a dispatch. *)
Inductive Result := mkResult {
  dispatch_id : string;
  results_dir : string;
  lattice : Lattice_ Result;
  _status : Status;
  _start_time : option datetime;
  _end_time : option datetime;
  _error : option string;
  _result : pyval;
}.

Abbreviation Node := (Node_ Result).
Abbreviation TransportGraph := (TransportGraph_ Result).
Abbreviation Lattice := (Lattice_ Result).

(** [Result.encoded_result]: the final value, still encoded. *)
Definition encoded_result (r : Result) : pyval := _result r.

(** Keeps the first occurrence of each element. *)
Fixpoint first_occurrences (seen l : list Z) : list Z :=
  match l with
  | [] => []
  | x :: l' =>
      if bool_decide (x ∈ seen) then first_occurrences seen l'
      else x :: first_occurrences (x :: seen) l'
  end.

Definition edge_into (n : Z) (e : Edge) : bool := Z.eqb (e_child e) n.

Definition edge_between (p n : Z) (e : Edge) : bool :=
  Z.eqb (e_parent e) p && Z.eqb (e_child e) n.

(** Modelled from the spec: [get_dependencies], the parents of a node,
    each once, in the insertion order of the edges. *)
Definition get_dependencies (g : TransportGraph) (n : Z) : list Z :=
  first_occurrences [] (e_parent <$> List.filter (edge_into n) (g_edges g)).

(** Modelled from the spec: [get_edge_data], the records of the parallel
    edges from [p] to [n], in insertion order. *)
Definition get_edge_data (g : TransportGraph) (p n : Z) : list Edge :=
  List.filter (edge_between p n) (g_edges g).

(** Modelled from the spec: [get_node_value(node, attr)]. An unknown node
    raises [KeyError]. *)
Definition get_node (g : TransportGraph) (n : Z) : outcome Node :=
  match g_nodes g !! n with
  | Some nd => Ok nd
  | None => Raise (KeyError "node")
  end.

(** [get_node_value] for an attribute every node has. *)
Definition get_node_value {A} (g : TransportGraph) (n : Z)
    (attr : Node → A) : outcome A :=
  nd ← get_node g n; Ok (attr nd).

(** [get_node_value] for an attribute that may be absent: reading an
    absent attribute raises [KeyError]. *)
Definition get_node_attr {A} (g : TransportGraph) (n : Z)
    (attr : Node → option A) (key : string) : outcome A :=
  nd ← get_node g n;
  match attr nd with
  | Some v => Ok v
  | None => Raise (KeyError key)
  end.

(* ===================================================================== *)
(** * Task-input assembly: [_get_task_inputs] *)
(* ===================================================================== *)

(** The dictionary [{"args": [...], "kwargs": {...}}]. *)
Record task_input := mkInput {
  args : list pyval;
  kwargs : gmap string pyval;
}.

(** The body of the inner loop of the dict-collection branch:
    [values[d["edge_name"]] = value]. *)
Definition dict_bind_edge (value : pyval) (values : gmap string pyval)
    (d : Edge) : gmap string pyval :=
  <[edge_name d := value]> values.

(** The body of the inner loop of the regular branch. *)
Definition bind_edge (value : pyval) (ti : task_input) (d : Edge)
    : task_input :=
  if String.eqb (param_type d) "arg" then
    mkInput (args ti ++ [value]) (kwargs ti)
  else if String.eqb (param_type d) "kwarg" then
    mkInput (args ti) (<[edge_name d := value]> (kwargs ti))
  else ti.

Definition _get_task_inputs (node_id : Z) (node_name : string)
    (result_object : Result) : outcome task_input :=
  let g := transport_graph (lattice result_object) in
  if startswith node_name electron_list_prefix then
    values ← omap (fun parent => get_node_value g parent n_output)
                   (get_dependencies g node_id);
    Ok (mkInput [] {[ "x" := make_transportable (PList values) ]})
  else if startswith node_name electron_dict_prefix then
    values ← ofold (fun values parent =>
                       let edge_data := get_edge_data g parent node_id in
                       value ← get_node_value g parent n_output;
                       Ok (fold_left (dict_bind_edge value) edge_data values))
                    ∅ (get_dependencies g node_id);
    Ok (mkInput [] {[ "x" := make_transportable (PDict values) ]})
  else
    ofold (fun ti parent =>
             let edge_data := get_edge_data g parent node_id in
             value ← get_node_value g parent n_output;
             Ok (fold_left (bind_edge value) edge_data ti))
          (mkInput [] ∅) (get_dependencies g node_id).

(* ===================================================================== *)
(** * Collaborators and the dispatcher's state *)
(* ===================================================================== *)

(** An executor instance: [from_dict] applies the config dictionary,
    [execute] runs a function and returns [(output, stdout, stderr)];
    both may raise. *)
Record Executor := mkExecutor {
  from_dict : pyval → outcome unit;
  execute : pyval → list pyval → gmap string pyval → list pyval → list pyval →
            string → string → Z → outcome (pyval * string * string);
}.

(** What the dispatcher calls and does not define itself: the clock, the
    executor registry, the traceback formatter, the registry of dispatch
    futures, attribute and item access on host values, the rehydration of
    dependency bundles, the layering of the graph and the lattice
    deserializer. *)
Record Env := mkEnv {
  (** [datetime.now(timezone.utc)] at its k-th reading. *)
  clock : nat → datetime;
  (** [_executor_manager.get_executor(short_name)]. *)
  get_executor : string → outcome Executor;
  (** ["".join(traceback.TracebackException.from_exception(ex).format())]. *)
  format_exception : exn → string;
  (** [obj.json] of a node output. *)
  transportable_json : pyval → outcome string;
  (** [json.loads]. *)
  json_loads : string → outcome pyval;
  (** [futures[sub_dispatch_id].result()]: raises, or yields [None] or a
      Result. *)
  futures : pyval → outcome (option Result);
  (** [getattr(obj, name)] and [obj[key]]. *)
  py_getattr : pyval → string → outcome pyval;
  py_getitem : pyval → pyval → outcome pyval;
  (** [DepsBash().from_dict(d); apply()], and the same for [DepsPip] and
      [DepsCall]. *)
  deps_bash_apply : pyval → outcome pyval;
  deps_pip_apply : pyval → outcome pyval;
  deps_call_apply : pyval → outcome pyval;
  (** [transport_graph.get_topologically_sorted_graph()]. *)
  get_topologically_sorted_graph : TransportGraph → list (list Z);
  (** [result_object.get_all_node_outputs()]. *)
  get_all_node_outputs : Result → pyval;
  (** [Lattice.deserialize_from_json]. *)
  deserialize_from_json : string → outcome Lattice;
}.

(** What the dispatcher does to its collaborators, in program order. *)
Inductive Event :=
| ESubmit (node_id : Z) (node_name : string)
    (** [pool.submit(_run_task, node_id=.., node_name=.., ...)] *)
| EUpsert (id : string) (r : Result)
    (** [with DispatchDB() as db: db.upsert(id, r)] *)
| ESave (r : Result) (write_source : bool)
    (** [r.save(write_source=..)] *)
| ESendUpdate (r : Result).
    (** [result_webhook.send_update(r)] *)

(** The state the dispatcher runs in: the Result object it mutates in
    place, the number of clock readings so far, and the events so far
    (oldest first). *)
Record World := mkWorld {
  result_object : Result;
  ticks : nat;
  log : list Event;
}.

(** Code that returns or raises, and changes the world either way. *)
Definition M (A : Type) : Type := World → outcome A * World.

#[global] Instance M_ret : MRet M := fun A a w => (Ok a, w).

#[global] Instance M_bind : MBind M := fun A B k c w =>
  match c w with
  | (Ok a, w') => k a w'
  | (Raise e, w') => (Raise e, w')
  end.

Definition lift {A} (o : outcome A) : M A := fun w => (o, w).

Definition raise {A} (e : exn) : M A := fun w => (Raise e, w).

(** [try: c  except Exception as ex: h ex]. *)
Definition try_except {A} (c : M A) (h : exn → M A) : M A := fun w =>
  match c w with
  | (Ok a, w') => (Ok a, w')
  | (Raise e, w') => h e w'
  end.

Definition get_result : M Result := fun w => (Ok (result_object w), w).

Definition set_result (r : Result) : M unit := fun w =>
  (Ok tt, mkWorld r (ticks w) (log w)).

Definition emit (e : Event) : M unit := fun w =>
  (Ok tt, mkWorld (result_object w) (ticks w) (log w ++ [e])%list).

(** A [for] loop in [M] without accumulator. *)
Fixpoint for_each {A} (body : A → M unit) (xs : list A) : M unit :=
  match xs with
  | [] => mret tt
  | x :: xs' => _ ← body x; for_each body xs'
  end.

Section Dispatcher.

Variable env : Env.

(** [datetime.now(timezone.utc)]. *)
Definition now : M datetime := fun w =>
  (Ok (clock env (ticks w)), mkWorld (result_object w) (S (ticks w)) (log w)).

(* =================================================================== *)
(** ** Node results *)
(* =================================================================== *)

(** The dictionary [generate_node_result] returns. An omitted keyword is
    [None]. *)
Record node_result := mkNodeResult {
  nr_node_id : Z;
  nr_start_time : option datetime;
  nr_end_time : option datetime;
  nr_status : option Status;
  nr_output : pyval;
  nr_error : option string;
  nr_stdout : option string;
  nr_stderr : option string;
  nr_sublattice_result : option Result;
}.

Definition generate_node_result (node_id : Z)
    (start_time end_time : option datetime) (status : option Status)
    (output : pyval) (error stdout stderr : option string)
    (sublattice_result : option Result) : node_result :=
  mkNodeResult node_id start_time end_time status output error stdout stderr
               sublattice_result.

Definition or_keep {A} (new old : option A) : option A :=
  match new with
  | Some a => Some a
  | None => old
  end.

(** What [_update_node] leaves in a node: every field of the node result
    that is not [None] overwrites the node's. *)
Definition merge_node (nr : node_result) (nd : Node) : Node :=
  mkNode (n_name nd) (n_function nd) (n_value nd) (n_key nd)
         (n_attribute_name nd) (n_metadata nd)
         (match nr_output nr with PNone => n_output nd | v => v end)
         (default (n_status nd) (nr_status nr))
         (or_keep (nr_start_time nr) (n_start_time nd))
         (or_keep (nr_end_time nr) (n_end_time nd))
         (or_keep (nr_error nr) (n_error nd))
         (or_keep (nr_stdout nr) (n_stdout nd))
         (or_keep (nr_stderr nr) (n_stderr nd))
         (or_keep (nr_sublattice_result nr) (n_sublattice_result nd)).

Definition with_graph (r : Result) (g : TransportGraph) : Result :=
  mkResult (dispatch_id r) (results_dir r)
           (mkLattice g (workflow_executor (lattice r))
                      (workflow_executor_data (lattice r))
                      (lattice_results_dir (lattice r))
                      (schedule (lattice r)))
           (_status r) (_start_time r) (_end_time r) (_error r) (_result r).

(** Modelled from the spec: [Result._update_node], which is not part of
    the sources: it merges a node result into the node of the transport
    graph; an unknown node raises [KeyError]. *)
Definition _update_node (r : Result) (nr : node_result) : outcome Result :=
  let g := transport_graph (lattice r) in
  nd ← get_node g (nr_node_id nr);
  Ok (with_graph r (mkGraph (<[nr_node_id nr := merge_node nr nd]> (g_nodes g))
                            (g_edges g))).

(* =================================================================== *)
(** ** The task runner: [_run_task] *)
(* =================================================================== *)

(** The keyword arguments of [_run_task]; the pool is the world. *)
Record task_args := mkTask {
  t_node_id : Z;
  t_dispatch_id : string;
  t_results_dir : string;
  t_inputs : task_input;
  t_serialized_callable : pyval;
  t_selected_executor : string * pyval;
  t_call_before : list pyval;
  t_call_after : list pyval;
  t_node_name : string;
  t_workflow_executor : string * pyval;
}.

(** The callable [_dispatch], as an object. *)
Definition _dispatch : pyval := PObject "_dispatch".

(** The first [try] block: resolve the executor and apply its
    configuration; the handler logs and raises the exception again. *)
Definition resolve_executor (selected_executor : string * pyval)
    : outcome Executor :=
  let '(short_name, object_dict) := selected_executor in
  executor ← get_executor env short_name;
  _ ← from_dict executor object_dict;
  Ok executor.

(** The body of [_run_task], with [self] for the calls that the pool
    makes to [_run_task] on its behalf. *)
Definition _run_task_with (self : task_args → M node_result)
    (a : task_args) : M node_result :=
  executor ← lift (resolve_executor (t_selected_executor a));
  try_except
    (if startswith (t_node_name a) sublattice_prefix then
       let '(short_name, object_dict) := t_workflow_executor a in
       _ ← (if String.eqb short_name "client"
            then raise (RuntimeError
                          "No executor selected for dispatching sublattices")
            else mret tt);
       let sub_dispatch_inputs :=
         mkInput (t_serialized_callable a :: args (t_inputs a))
                 (kwargs (t_inputs a)) in
       _ ← emit (ESubmit (-1) "dispatch_sublattice");
       fut ← self (mkTask (-1) (t_dispatch_id a) (t_results_dir a)
                          sub_dispatch_inputs
                          (make_transportable _dispatch)
                          (t_workflow_executor a) [] []
                          "dispatch_sublattice" (t_workflow_executor a));
       js ← lift (transportable_json env (nr_output fut));
       sub_dispatch_id ← lift (json_loads env js);
       sublattice_result ← lift (futures env sub_dispatch_id);
       match sublattice_result with
       | None => raise (RuntimeError "Sublattice execution failed")
       | Some sub =>
           let output := encoded_result sub in
           end_time ← now;
           let node_result :=
             generate_node_result (t_node_id a) None (Some end_time)
               (Some Result_.COMPLETED) output None None None (Some sub) in
           if bool_decide (_status sub ≠ Result_.COMPLETED) then
             mret (mkNodeResult (nr_node_id node_result)
                     (nr_start_time node_result) (nr_end_time node_result)
                     (Some Result_.FAILED) (nr_output node_result)
                     (Some "Sublattice workflow failed to complete")
                     (nr_stdout node_result) (nr_stderr node_result)
                     (nr_sublattice_result node_result))
           else mret node_result
       end
     else
       '(output, stdout, stderr) ←
         lift (execute executor (t_serialized_callable a)
                 (args (t_inputs a)) (kwargs (t_inputs a))
                 (t_call_before a) (t_call_after a)
                 (t_dispatch_id a) (t_results_dir a) (t_node_id a));
       end_time ← now;
       mret (generate_node_result (t_node_id a) None (Some end_time)
               (Some Result_.COMPLETED) output None (Some stdout)
               (Some stderr) None))
    (fun ex =>
       end_time ← now;
       mret (generate_node_result (t_node_id a) None (Some end_time)
               (Some Result_.FAILED) PNone
               (Some (format_exception env ex)) None None None)).

(** [_run_task]. The only call it makes to itself is for the node name
    ["dispatch_sublattice"], which is not a sublattice name and makes no
    further call; two unfoldings of the body therefore close the
    recursion ([_run_task_unfold] below is the recursive equation). *)
Definition _run_task : task_args → M node_result :=
  _run_task_with
    (_run_task_with (fun _ => raise (mkExn "RecursionError" ""))).

(* =================================================================== *)
(** ** The wave scheduler: [_run_planned_workflow] *)
(* =================================================================== *)

Definition graph_of (r : Result) : TransportGraph := transport_graph (lattice r).

Definition set_status (r : Result) (s : Status) : Result :=
  mkResult (dispatch_id r) (results_dir r) (lattice r) s (_start_time r)
           (_end_time r) (_error r) (_result r).

Definition set_start_time (r : Result) (t : datetime) : Result :=
  mkResult (dispatch_id r) (results_dir r) (lattice r) (_status r) (Some t)
           (_end_time r) (_error r) (_result r).

Definition set_end_time (r : Result) (t : datetime) : Result :=
  mkResult (dispatch_id r) (results_dir r) (lattice r) (_status r)
           (_start_time r) (Some t) (_error r) (_result r).

Definition set_error (r : Result) (e : string) : Result :=
  mkResult (dispatch_id r) (results_dir r) (lattice r) (_status r)
           (_start_time r) (_end_time r) (Some e) (_result r).

Definition set__result (r : Result) (v : pyval) : Result :=
  mkResult (dispatch_id r) (results_dir r) (lattice r) (_status r)
           (_start_time r) (_end_time r) (_error r) v.

Definition modify_result (f : Result → Result) : M unit :=
  r ← get_result; set_result (f r).

(** [with DispatchDB() as db: db.upsert(..)], [result_object.save(..)] and
    [result_webhook.send_update(..)], in this order.  Modelled from the
    spec: none of the three is part of the sources (the class [DispatchDB]
    is, without [upsert] and without the two methods of a context manager);
    the store is written by upsert, and neither the store nor the observers
    raise into the scheduler. *)
Definition persist_and_notify (write_source : bool) : M unit :=
  r ← get_result;
  _ ← emit (EUpsert (dispatch_id r) r);
  _ ← emit (ESave r write_source);
  emit (ESendUpdate r).

(** The closure [update_node_result]. *)
Definition update_node_result (nr : node_result) : M unit :=
  r ← get_result;
  r' ← lift (_update_node r nr);
  _ ← set_result r';
  persist_and_notify false.

(** [node_name.startswith((subscript_prefix, generator_prefix,
    parameter_prefix, attr_prefix))]. *)
Definition is_inline (node_name : string) : bool :=
  startswith node_name subscript_prefix
  || startswith node_name generator_prefix
  || startswith node_name parameter_prefix
  || startswith node_name attr_prefix.

(** The value of a parameter, subscript, generator or attribute node. *)
Definition inline_output (g : TransportGraph) (node_id : Z)
    (node_name : string) : outcome pyval :=
  if startswith node_name parameter_prefix then
    get_node_attr g node_id n_value "value"
  else
    parent ← match get_dependencies g node_id with
             | p :: _ => Ok p
             | [] => Raise (IndexError "list index out of range")
             end;
    output ← get_node_value g parent n_output;
    if startswith node_name attr_prefix then
      attr ← get_node_attr g node_id n_attribute_name "attribute_name";
      py_getattr env output attr
    else
      key ← get_node_attr g node_id n_key "key";
      py_getitem env output key.

(** Reading [metadata[key]]. *)
Definition md_get {A} (o : option A) (key : string) : outcome A :=
  match o with
  | Some a => Ok a
  | None => Raise (KeyError key)
  end.

(** The assembly of [call_before] and [call_after] from the dependency
    bundle of a node. *)
Definition collect_deps (md : Metadata) : outcome (list pyval * list pyval) :=
  deps ← md_get (md_deps md) "deps";
  call_before_objs_json ← md_get (md_call_before md) "call_before";
  call_after_objs_json ← md_get (md_call_after md) "call_after";
  cb1 ← match deps_bash deps with
        | Some d => x ← deps_bash_apply env d; Ok [x]
        | None => Ok []
        end;
  cb2 ← match deps_pip deps with
        | Some d => x ← deps_pip_apply env d; Ok [x]
        | None => Ok []
        end;
  cb3 ← omap (deps_call_apply env) call_before_objs_json;
  ca ← omap (deps_call_apply env) call_after_objs_json;
  Ok ((cb1 ++ cb2 ++ cb3), ca).

(** One iteration of the inner loop over the nodes of a layer: [None] for
    a node computed inline ([continue]), the submitted job otherwise. *)
Definition submit_node (node_id : Z) : M (option task_args) :=
  r ← get_result;
  node_name ← lift (get_node_value (graph_of r) node_id n_name);
  if is_inline node_name then
    output ← lift (inline_output (graph_of r) node_id node_name);
    start_time ← now;
    end_time ← now;
    r' ← lift (_update_node r
                 (generate_node_result node_id (Some start_time)
                    (Some end_time) (Some Result_.COMPLETED) output
                    None None None None));
    _ ← set_result r';
    mret None
  else
    task_input ← lift (_get_task_inputs node_id node_name r);
    start_time ← now;
    serialized_callable ← lift (get_node_value (graph_of r) node_id n_function);
    md ← lift (get_node_value (graph_of r) node_id n_metadata);
    selected_executor ← lift (md_get (md_executor md) "executor");
    selected_executor_data ← lift (md_get (md_executor_data md) "executor_data");
    '(call_before, call_after) ← lift (collect_deps md);
    _ ← update_node_result
          (generate_node_result node_id (Some start_time) None
             (Some Result_.RUNNING) PNone None None None None);
    _ ← emit (ESubmit node_id node_name);
    mret (Some (mkTask node_id (dispatch_id r) (results_dir r) task_input
                  serialized_callable
                  (selected_executor, selected_executor_data)
                  call_before call_after node_name
                  (workflow_executor (lattice r),
                   workflow_executor_data (lattice r)))).

(** The inner loop: the jobs submitted for a layer, in submission order. *)
Fixpoint submit_wave (nodes : list Z) : M (list task_args) :=
  match nodes with
  | [] => mret []
  | node_id :: rest =>
      job ← submit_node node_id;
      jobs ← submit_wave rest;
      mret (match job with Some j => j :: jobs | None => jobs end)
  end.

(** A job run to completion, followed by its done-callback
    [task_callback]. The pool swallows what a callback raises, and
    [future.result()] raises inside the callback when the job raised. *)
Definition complete_job (job : task_args) : M unit :=
  try_except
    (node_result ← _run_task job; update_node_result node_result)
    (fun _ => mret tt).

(** [wait(futures)]. The pool is modelled by one of its schedules: the
    jobs of a wave run to completion one after the other, in submission
    order, when the scheduler waits for the wave. *)
Definition wait (jobs : list task_args) : M unit := for_each complete_job jobs.

(** [str(x)] of an optional string ([None] prints as ["None"]). *)
Definition str_opt (o : option string) : string := default "None" o.

(** The loop after [wait]: [true] when it returned from
    [_run_planned_workflow]. *)
Fixpoint check_wave (nodes : list Z) : M bool :=
  match nodes with
  | [] => mret false
  | node_id :: rest =>
      r ← get_result;
      status ← lift (get_node_value (graph_of r) node_id n_status);
      if bool_decide (status = Result_.FAILED) then
        end_time ← now;
        name ← lift (get_node_value (graph_of r) node_id n_name);
        error ← lift (get_node_value (graph_of r) node_id n_error);
        _ ← set_result
              (set_error (set_end_time (set_status r Result_.FAILED) end_time)
                 ("Node " +:+ name +:+ " failed: " +:+ LF +:+ str_opt error));
        _ ← persist_and_notify false;
        mret true
      else if bool_decide (status = Result_.CANCELLED) then
        end_time ← now;
        _ ← set_result (set_end_time (set_status r Result_.CANCELLED) end_time);
        _ ← persist_and_notify false;
        mret true
      else check_wave rest
  end.

(** The outer loop over the layers: [true] when a wave check returned. *)
Fixpoint run_layers (order : list (list Z)) : M bool :=
  match order with
  | [] => mret false
  | nodes :: rest =>
      jobs ← submit_wave nodes;
      _ ← wait jobs;
      returned ← check_wave nodes;
      if (returned : bool) then mret true else run_layers rest
  end.

(** The callable [_post_process] and the lattice, as objects. *)
Definition _post_process : pyval := PObject "_post_process".
Definition lattice_object : pyval := PObject "lattice".

Definition order_value (order : list (list Z)) : pyval :=
  PList ((fun nodes => PList (PInt <$> nodes)) <$> order).

(** What follows the loop over the layers. *)
Definition post_process_phase (order : list (list Z)) (pp_executor : string)
    (pp_executor_data : pyval) : M unit :=
  _ ← modify_result (fun r => set_status r Result_.POSTPROCESSING);
  if String.eqb pp_executor "client" then
    end_time ← now;
    _ ← modify_result (fun r =>
          set_end_time (set_status r Result_.PENDING_POSTPROCESSING) end_time);
    persist_and_notify false
  else
    r ← get_result;
    let post_processing_inputs :=
      mkInput [make_transportable lattice_object;
               make_transportable (get_all_node_outputs env r);
               make_transportable (order_value order)] ∅ in
    post_process_result ←
      try_except
        (_ ← emit (ESubmit (-1) "post_process");
         pp_start_time ← now;
         res ← _run_task
                 (mkTask (-1) (dispatch_id r) (results_dir r)
                    post_processing_inputs
                    (PTransportable _post_process)
                    (pp_executor, pp_executor_data) [] [] "post_process"
                    (pp_executor, pp_executor_data));
         mret (Some res))
        (fun _ =>
           end_time ← now;
           _ ← modify_result (fun r =>
                 set_end_time
                   (set_error (set_status r Result_.POSTPROCESSING_FAILED)
                      "Post-processing failed") end_time);
           _ ← persist_and_notify false;
           mret None);
    match post_process_result with
    | None => mret tt
    | Some res =>
        if bool_decide (nr_status res ≠ Some Result_.COMPLETED) then
          let err := str_opt (nr_stderr res) in
          end_time ← now;
          _ ← modify_result (fun r =>
                set_end_time
                  (set_error (set_status r Result_.POSTPROCESSING_FAILED)
                     ("Post-processing failed: " +:+ err)) end_time);
          persist_and_notify false
        else
          _ ← modify_result (fun r => set__result r (nr_output res));
          end_time ← now;
          _ ← modify_result (fun r =>
                set_end_time (set_status r Result_.COMPLETED) end_time);
          persist_and_notify true
    end.

Definition _run_planned_workflow : M Result :=
  start_time ← now;
  _ ← modify_result (fun r =>
        set_start_time (set_status r Result_.RUNNING) start_time);
  r ← get_result;
  let pp_executor := workflow_executor (lattice r) in
  let pp_executor_data := workflow_executor_data (lattice r) in
  let order := get_topologically_sorted_graph env (graph_of r) in
  returned ← run_layers order;
  _ ← (if (returned : bool) then mret tt
       else post_process_phase order pp_executor pp_executor_data);
  get_result.

(* =================================================================== *)
(** ** The dispatcher entry: [run_workflow] *)
(* =================================================================== *)








End Dispatcher.

(* ===================================================================== *)
(** * The Dispatch Store session: [WorkflowDB.begin_session] *)
(* ===================================================================== *)

Module DataStore.

(** The arguments [queue_upload] and [queue_delete] keep. *)
Record upload_args := mkUpload {
  u_data : string;
  u_storage_type : string;
  u_storage_path : string;
  u_file_name : string;
}.

Record delete_args := mkDelete {
  d_storage_type : string;
  d_storage_path : string;
  d_file_name : string;
}.

(** [DataStoreSession]: the two side-queues (the SQLAlchemy session it
    wraps is the trace below). *)
Record DataStoreSession := mkSession {
  pending_uploads : list upload_args;
  pending_deletes : list delete_args;
}.

(** [DataStoreSession.__init__]. *)
Definition new_session : DataStoreSession := mkSession [] [].

Definition queue_upload (a : upload_args) (s : DataStoreSession)
    : DataStoreSession :=
  mkSession (pending_uploads s ++ [a])%list (pending_deletes s).

Definition queue_delete (d : delete_args) (s : DataStoreSession)
    : DataStoreSession :=
  mkSession (pending_uploads s) (pending_deletes s ++ [d])%list.

(** A [WorkflowDB] object: its two file methods, which a subclass may
    override. *)
Record WorkflowDB := mkDB {
  upload_file : upload_args → outcome unit;
  delete_file : delete_args → outcome unit;
}.

(** The class [WorkflowDB] itself (and [DevWorkflowDB], which overrides
    neither method): both methods raise [NotImplementedError]. *)
Definition base_db : WorkflowDB :=
  mkDB (fun _ => Raise NotImplementedError) (fun _ => Raise NotImplementedError).

(** What reaches the SQLAlchemy session and the file storage, in program
    order. [SUpload] and [SDelete] record a file method that returned. *)
Inductive SEvent :=
| SBegin
| SWrite (statement : string)
| SCommit
| SRollback
| SUpload (a : upload_args)
| SDelete (d : delete_args).

(** What the body of a [with db.begin_session() as session:] block does,
    step by step. *)
Inductive action :=
| QueueUpload (a : upload_args)
| QueueDelete (d : delete_args)
| Statement (sql : string)
| RaiseExn (e : exn).

(** The body of the [with] block: it runs its actions in order on the
    session object, and stops at the first [RaiseExn]. *)
Fixpoint run_body (acts : list action) (s : DataStoreSession)
    (trace : list SEvent) : outcome unit * DataStoreSession * list SEvent :=
  match acts with
  | [] => (Ok tt, s, trace)
  | QueueUpload a :: rest => run_body rest (queue_upload a s) trace
  | QueueDelete d :: rest => run_body rest (queue_delete d s) trace
  | Statement st :: rest => run_body rest s (trace ++ [SWrite st])%list
  | RaiseExn e :: _ => (Raise e, s, trace)
  end.

(** The loop [for arg in queue] that calls the file method on each
    queued tuple, stopping at the first call that raises. *)
Fixpoint drain {A} (method : A → outcome unit) (ev : A → SEvent)
    (queue : list A) (trace : list SEvent) : outcome unit * list SEvent :=
  match queue with
  | [] => (Ok tt, trace)
  | a :: rest =>
      match method a with
      | Ok _ => drain method ev rest (trace ++ [ev a])%list
      | Raise e => (Raise e, trace)
      end
  end.

(** [begin_session], used as [with db.begin_session() as s: body]. The
    calls on the SQLAlchemy session ([begin], [commit], [rollback]) are
    recorded and return. *)
Definition begin_session (db : WorkflowDB) (body : list action)
    : outcome unit * list SEvent :=
  let ds_session := new_session in
  let handler (ex : exn) (trace : list SEvent) :=
    (Raise ex, (trace ++ [SRollback])%list) in
  match run_body body ds_session [SBegin] with
  | (Raise ex, _, trace) => handler ex trace
  | (Ok _, ds_session, trace) =>
      let trace := (trace ++ [SCommit])%list in
      match drain (upload_file db) SUpload (pending_uploads ds_session) trace with
      | (Raise ex, trace) => handler ex trace
      | (Ok _, trace) =>
          match drain (delete_file db) SDelete (pending_deletes ds_session)
                      trace with
          | (Raise ex, trace) => handler ex trace
          | (Ok _, trace) => (Ok tt, trace)
          end
      end
  end.

Definition is_file_event (e : SEvent) : bool :=
  match e with
  | SUpload _ | SDelete _ => true
  | _ => false
  end.

End DataStore.

(* ===================================================================== *)
(** * The JSON form of a Result: [result_encoder], [encode_result] *)
(* ===================================================================== *)

(** A JSON document. [JNaN] and [JInfinity] are the literals [NaN] and
    [Infinity], which are not JSON. *)
Inductive json :=
| JNull
| JBool (b : bool)
| JInt (z : Z)
| JFloat (mantissa exponent : Z)
| JNaN
| JInfinity (negative : bool)
| JStr (s : string)
| JArr (l : list json)
| JObj (d : gmap string json).

Section Encoder.

(** [datetime.isoformat()] and [str(obj)] of an object other than a
    [Status]. *)
Variable isoformat : datetime → string.
Variable str_object : pyval → string.

(** [str(obj)]; [Status.__str__] is in the sources. *)
Definition py_str (obj : pyval) : string :=
  match obj with
  | PStatus s => Status_str s
  | PStr s => s
  | _ => str_object obj
  end.

Definition result_encoder (obj : pyval) : string :=
  match obj with
  | PStatus s => STATUS s
  | PDatetime t => isoformat t
  | _ => py_str obj
  end.

Definition encode_dict (d : pyval) : pyval :=
  match d with
  | PDict m => PDict ((fun v => PStr (py_str v)) <$> m)
  | _ => d
  end.

(** [simplejson.dumps(v, default=default, ignore_nan=ignore_nan)], up to
    the concrete syntax: [default] is called on every object that has no
    JSON form and here returns a string; with [ignore_nan] a float that is
    NaN or infinite becomes [null]. *)
Fixpoint dumps (default : pyval → string) (ignore_nan : bool) (v : pyval)
    : json :=
  match v with
  | PNone => JNull
  | PBool b => JBool b
  | PInt z => JInt z
  | PFloat FNaN => if ignore_nan then JNull else JNaN
  | PFloat (FInf neg) => if ignore_nan then JNull else JInfinity neg
  | PFloat (FFinite m e) => JFloat m e
  | PStr s => JStr s
  | PList l => JArr (dumps default ignore_nan <$> l)
  | PDict d => JObj (dumps default ignore_nan <$> d)
  | PStatus _ | PDatetime _ | PObject _ | PTransportable _ =>
      JStr (default v)
  end.

Definition opt_datetime (o : option datetime) : pyval :=
  match o with
  | Some t => PDatetime t
  | None => PNone
  end.

Definition opt_str (o : option string) : pyval :=
  match o with
  | Some s => PStr s
  | None => PNone
  end.

(** Modelled from the spec: the property [Result.result], the final value
    decoded from its transportable. *)
Definition result_of (r : Result) : pyval :=
  match _result r with
  | PTransportable v => v
  | v => v
  end.

(** The dictionary [encode_result] builds. Its ["lattice"] and ["graph"]
    entries come from [get_named_params], the executor registry and
    networkx; they are taken here as the documents [lattice_doc] and
    [graph_doc]. *)
Definition result_dict (result_obj : Result) (lattice_doc graph_doc : pyval)
    : pyval :=
  PDict (<["dispatch_id" := PStr (dispatch_id result_obj)]>
        (<["status" := PStatus (_status result_obj)]>
        (<["result" := result_of result_obj]>
        (<["start_time" := opt_datetime (_start_time result_obj)]>
        (<["end_time" := opt_datetime (_end_time result_obj)]>
        (<["results_dir" := PStr (results_dir result_obj)]>
        (<["error" := opt_str (_error result_obj)]>
        (<["lattice" := lattice_doc]>
        (<["graph" := graph_doc]> ∅))))))))).

(** [simplejson.dumps(.., default=result_encoder, ignore_nan=True)]. *)
Definition render : pyval → json := dumps result_encoder true.

Definition encode_result (result_obj : Result) (lattice_doc graph_doc : pyval)
    : json :=
  render (result_dict result_obj lattice_doc graph_doc).

(** The sentence of the spec on NaN, read literally: a NaN leaves no entry
    in the document (it is dropped from the list or dictionary that holds
    it). Used only to compare with [dumps]. *)
Definition is_nan (v : pyval) : bool :=
  match v with
  | PFloat FNaN => true
  | _ => false
  end.

Fixpoint elide_nan (v : pyval) : pyval :=
  match v with
  | PList l => PList (List.filter (fun x => negb (is_nan x)) (elide_nan <$> l))
  | PDict d => PDict (filter (fun kv => is_nan kv.2 = false) (elide_nan <$> d))
  | _ => v
  end.

End Encoder.

(* ===================================================================== *)
(** * The graph of a Result for the store: [extract_metadata],
      [extract_graph_node], [extract_graph] *)
(* ===================================================================== *)

(** The list objects that exist, by their address (a number). *)
Definition Heap := gmap nat (list pyval).

(** What [extract_metadata] reads of an executor: its [__dict__] and the
    name of its class. *)
Record ExecutorView := mkExecutorView {
  ev_dict : gmap string pyval;
  ev_class : string;
}.

(** A metadata dictionary. Its ["call_before"] and ["call_after"]
    entries, when present, are list objects: they are held by reference,
    since [extract_metadata] writes into them. Its other entries are
    values. *)
Record MetaDict := mkMetaDict {
  mt_entries : gmap string pyval;
  mt_call_before : option nat;
  mt_call_after : option nat;
}.

(** A node of [node_link_data(graph)]["nodes"]: its ["metadata"] entry,
    when present, is a metadata dictionary; its other entries are
    values. *)
Record NodeDict := mkNodeDict {
  nd_entries : gmap string pyval;
  nd_metadata : option MetaDict;
}.

Section GraphExtraction.

(** [str(obj)] of an object other than a [Status] or a string. *)
Variable str_object : pyval → string.

(** [_executor_manager.get_executor(name=name)], through what
    [extract_metadata] reads of the executor it returns ([None] when it
    returns [None]). *)
Variable executor_view : pyval → outcome (option ExecutorView).

(** [f.get_deserialized().__doc__]. *)
Variable docstring : pyval → outcome pyval.

(** [except (KeyError, AttributeError)]; an exception is told by the name
    of its class. *)
Definition caught (ex : exn) : bool :=
  String.eqb (exn_type ex) "KeyError"
  || String.eqb (exn_type ex) "AttributeError".

(** [str(dep)] for every [dep] of a list. *)
Definition str_list (l : list pyval) : list pyval :=
  (fun dep => PStr (py_str str_object dep)) <$> l.

(** The loop [for i, dep in enumerate(l): l[i] = str(dep)] on the list
    object at [l]. *)
Definition stringify_in_place (l : nat) (h : Heap) : Heap :=
  alter str_list l h.

(** [extract_metadata]. The copy it works on is a new dictionary whose
    entries are those of the argument: the two lists are shared with it.
    What the [try] block has written into the copy when [KeyError] or
    [AttributeError] is raised stays in the dictionary returned. *)
Definition extract_metadata (metadata : MetaDict) (h : Heap)
    : outcome MetaDict * Heap :=
  let copy (entries : gmap string pyval) :=
    mkMetaDict entries (mt_call_before metadata) (mt_call_after metadata) in
  let entries := mt_entries metadata in
  match entries !! "executor" with
  | None => (Ok (copy entries), h)
  | Some name =>
      match executor_view name with
      | Raise ex => if caught ex then (Ok (copy entries), h) else (Raise ex, h)
      | Ok executor =>
          let entries :=
            match executor with
            | Some e =>
                <["executor_name" :=
                    PStr (match name with
                          | PStr s => s
                          | _ => "<" +:+ ev_class e +:+ ">"
                          end)]>
                  (<["executor" := encode_dict str_object (PDict (ev_dict e))]>
                     entries)
            | None => entries
            end in
          match entries !! "deps" with
          | None => (Ok (copy entries), h)
          | Some deps =>
              let entries := <["deps" := encode_dict str_object deps]> entries in
              match mt_call_before metadata with
              | None => (Ok (copy entries), h)
              | Some call_before =>
                  match mt_call_after metadata with
                  | None => (Ok (copy entries), h)
                  | Some call_after =>
                      (Ok (copy entries),
                       stringify_in_place call_after
                         (stringify_in_place call_before h))
                  end
              end
          end
      end
  end.

(** [extract_graph_node]. *)
Definition extract_graph_node (node : NodeDict) (h : Heap)
    : outcome NodeDict * Heap :=
  let entries := nd_entries node in
  match (match entries !! "function" with
         | None | Some PNone => Ok entries
         | Some f => doc ← docstring f; Ok (<["doc" := doc]> entries)
         end) with
  | Raise ex => (Raise ex, h)
  | Ok entries =>
      match nd_metadata node with
      | None => (Raise (KeyError "metadata"), h)
      | Some metadata =>
          match extract_metadata metadata h with
          | (Raise ex, h) => (Raise ex, h)
          | (Ok metadata, h) =>
              let kwargs :=
                encode_dict str_object (default PNone (entries !! "kwargs")) in
              (Ok (mkNodeDict
                     (delete "node_name"
                        (delete "function" (<["kwargs" := kwargs]> entries)))
                     (Some metadata)),
               h)
          end
      end
  end.

(** [list(map(extract_graph_node, nodes))]. *)
Fixpoint extract_graph_nodes (nodes : list NodeDict) (h : Heap)
    : outcome (list NodeDict) * Heap :=
  match nodes with
  | [] => (Ok [], h)
  | node :: rest =>
      match extract_graph_node node h with
      | (Raise ex, h) => (Raise ex, h)
      | (Ok node, h) =>
          match extract_graph_nodes rest h with
          | (Raise ex, h) => (Raise ex, h)
          | (Ok nodes, h) => (Ok (node :: nodes), h)
          end
      end
  end.

(** [extract_graph], on the ["nodes"] and the ["links"] of
    [nx.json_graph.node_link_data(graph)]. *)
Definition extract_graph (nodes : list NodeDict) (links : pyval) (h : Heap)
    : outcome (list NodeDict * pyval) * Heap :=
  match extract_graph_nodes nodes h with
  | (Raise ex, h) => (Raise ex, h)
  | (Ok nodes, h) => (Ok (nodes, links), h)
  end.

End GraphExtraction.

(* ===================================================================== *)
(** * Auxiliary definitions for the statements *)
(* ===================================================================== *)

(** The output a parent holds ([None] for an unknown node, which the
    statements exclude). *)
Definition output_of (g : TransportGraph) (p : Z) : pyval :=
  match g_nodes g !! p with
  | Some nd => n_output nd
  | None => PNone
  end.

(** The parents of a node sorted by ascending id: the order of the spec's
    sentence on list collection, read literally. Used only to compare with
    [get_dependencies]. *)
Definition parents_by_id (g : TransportGraph) (n : Z) : list Z :=
  merge_sort Z.le (get_dependencies g n).

(** Where an entry of the assembled inputs of a regular node comes from:
    every positional argument is the output of the parent of an ["arg"]
    edge into the node, every keyword argument that of a ["kwarg"] edge,
    under the name of that edge. *)
Definition from_data_edges (g : TransportGraph) (n : Z) (ti : task_input)
    : Prop :=
  (∀ v, v ∈ args ti →
     ∃ d, d ∈ g_edges g ∧ e_child d = n ∧ param_type d = "arg"
          ∧ v = output_of g (e_parent d))
  ∧ (∀ k v, kwargs ti !! k = Some v →
     ∃ d, d ∈ g_edges g ∧ e_child d = n ∧ param_type d = "kwarg"
          ∧ edge_name d = k ∧ v = output_of g (e_parent d)).

(** A computation in [M] that leaves an observation [f] of the Result as
    it found it. *)
Definition keeps {A B} (f : Result → B) (c : M A) : Prop :=
  ∀ w, f (result_object (c w).2) = f (result_object w).

(** A computation in [M] that only appends to the log, and whose
    submissions are all for node ids in [S]. *)
Definition submits_within {A} (S : Z → Prop) (c : M A) : Prop :=
  ∀ w, ∃ evs, log (c w).2 = log w ++ evs
              ∧ ∀ id name, ESubmit id name ∈ evs → S id.

(** What the scheduler appends to the log when it persists and notifies. *)
Definition persist_events (r : Result) (write_source : bool) : list Event :=
  [EUpsert (dispatch_id r) r; ESave r write_source; ESendUpdate r].

Definition is_submit (e : Event) : bool :=
  match e with
  | ESubmit _ _ => true
  | _ => false
  end.



Definition node_status_is (r : Result) (n : Z) (P : Status → Prop) : Prop :=
  ∃ nd, g_nodes (graph_of r) !! n = Some nd ∧ P (n_status nd).

Definition not_terminal (s : Status) : Prop :=
  s ≠ Result_.FAILED ∧ s ≠ Result_.CANCELLED.

(** What a node is made of before it runs: the attributes the scheduler
    reads and never writes. *)
Definition static_node (nd : Node)
    : string * pyval * option pyval * option pyval * option string * Metadata :=
  (n_name nd, n_function nd, n_value nd, n_key nd, n_attribute_name nd,
   n_metadata nd).

(** What identifies a dispatch: its id, its results directory, the
    metadata of the lattice, the edges of the graph and, for every node,
    what it is made of. *)
Definition identity_of (r : Result)
    : string * string * (string * pyval * string * bool) * list Edge
      * gmap Z (string * pyval * option pyval * option pyval * option string
                * Metadata) :=
  (dispatch_id r, results_dir r,
   (workflow_executor (lattice r), workflow_executor_data (lattice r),
    lattice_results_dir (lattice r), schedule (lattice r)),
   g_edges (graph_of r),
   static_node <$> g_nodes (graph_of r)).


(** The world in which the loop over the layers starts. *)
Definition started_world (env : Env) (w : World) : World :=
  mkWorld (set_start_time (set_status (result_object w) Result_.RUNNING)
             (clock env (ticks w)))
          (S (ticks w)) (log w).

(** The number of constructors of a value. *)
Fixpoint pyval_size (v : pyval) : nat :=
  match v with
  | PList l => S (foldr (fun x n => pyval_size x + n) 0 l)
  | PDict d => S (map_fold (fun _ x n => pyval_size x + n) 0 d)
  | PTransportable x => S (pyval_size x)
  | _ => 1
  end.

(** A JSON document without the literals [NaN] and [Infinity], at any
    depth. *)
Inductive strict_json : json → Prop :=
| strict_null : strict_json JNull
| strict_bool b : strict_json (JBool b)
| strict_int z : strict_json (JInt z)
| strict_float m e : strict_json (JFloat m e)
| strict_str s : strict_json (JStr s)
| strict_arr l : Forall strict_json l → strict_json (JArr l)
| strict_obj d : map_Forall (fun _ => strict_json) d → strict_json (JObj d).

Module DataStoreAux.
Import DataStore.

Definition raises (a : action) : bool :=
  match a with
  | RaiseExn _ => true
  | _ => false
  end.

(** A body that completes normally: none of its actions raises. *)
Definition completes (acts : list action) : bool :=
  forallb (fun a => negb (raises a)) acts.

Fixpoint uploads_of (acts : list action) : list upload_args :=
  match acts with
  | [] => []
  | QueueUpload a :: rest => a :: uploads_of rest
  | _ :: rest => uploads_of rest
  end.

Fixpoint deletes_of (acts : list action) : list delete_args :=
  match acts with
  | [] => []
  | QueueDelete d :: rest => d :: deletes_of rest
  | _ :: rest => deletes_of rest
  end.

Fixpoint writes_of (acts : list action) : list SEvent :=
  match acts with
  | [] => []
  | Statement st :: rest => SWrite st :: writes_of rest
  | _ :: rest => writes_of rest
  end.

(** A database whose file methods always return. *)
Definition working_db : WorkflowDB := mkDB (fun _ => Ok tt) (fun _ => Ok tt).

Definition up1 : upload_args := mkUpload "bytes-1" "local" "/tmp" "a.pkl".
Definition up2 : upload_args := mkUpload "bytes-2" "local" "/tmp" "b.pkl".
Definition del1 : delete_args := mkDelete "local" "/tmp" "old.pkl".

(** A database that cannot store the file ["b.pkl"], and one that cannot
    remove the file ["old.pkl"]. *)
Definition db_without_b : WorkflowDB :=
  mkDB (fun a => if String.eqb (u_file_name a) "b.pkl"
                 then Raise (mkExn "OSError" "disk full") else Ok tt)
       (fun _ => Ok tt).

Definition db_keeping_old : WorkflowDB :=
  mkDB (fun _ => Ok tt)
       (fun d => if String.eqb (d_file_name d) "old.pkl"
                 then Raise (mkExn "OSError" "busy") else Ok tt).

Definition up3 : upload_args := mkUpload "bytes-3" "local" "/tmp" "c.pkl".

End DataStoreAux.

(* ===================================================================== *)
(** * Sample data *)
(* ===================================================================== *)

Module Sample.

Definition no_metadata : Metadata := mkMetadata None None None None None.

Definition local_metadata : Metadata :=
  mkMetadata (Some "local") (Some (PDict ∅)) (Some (mkDeps None None))
             (Some []) (Some []).

Definition param_node (name : string) (v : pyval) : Node :=
  mkNode name PNone (Some v) None None no_metadata
         PNone Result_.NEW_OBJ None None None None None None.

Definition task_node (name fn : string) (md : Metadata) : Node :=
  mkNode name (PTransportable (PObject fn)) None None None md
         PNone Result_.NEW_OBJ None None None None None None.

Definition with_output (nd : Node) (v : pyval) : Node :=
  mkNode (n_name nd) (n_function nd) (n_value nd) (n_key nd)
         (n_attribute_name nd) (n_metadata nd) v Result_.COMPLETED
         (n_start_time nd) (n_end_time nd) (n_error nd) (n_stdout nd)
         (n_stderr nd) (n_sublattice_result nd).

Definition with_status (nd : Node) (s : Status) : Node :=
  mkNode (n_name nd) (n_function nd) (n_value nd) (n_key nd)
         (n_attribute_name nd) (n_metadata nd) (n_output nd) s
         (n_start_time nd) (n_end_time nd) (n_error nd) (n_stdout nd)
         (n_stderr nd) (n_sublattice_result nd).

Definition result_on (g : TransportGraph) (wf_executor : string) : Result :=
  mkResult "dispatch-1" "/results"
           (mkLattice g wf_executor (PDict ∅) "/results" false)
           Result_.NEW_OBJ None None None PNone.

Definition world_of (r : Result) : World := mkWorld r 0 [].

Definition empty_graph : TransportGraph := mkGraph ∅ [].

(** Two finished sub-dispatches. *)
Definition sub_done : Result :=
  mkResult "sub_ok" "/results" (mkLattice empty_graph "local" (PDict ∅) "/results" false)
           Result_.COMPLETED None None None (PTransportable (PInt 5)).

Definition sub_failed : Result :=
  mkResult "sub_bad" "/results" (mkLattice empty_graph "local" (PDict ∅) "/results" false)
           Result_.FAILED None None (Some "boom") PNone.

Definition TypeError (m : string) : exn := mkExn "TypeError" m.

(** An executor that knows four callables. *)
Definition local_execute (f : pyval) (args : list pyval)
    (kwargs : gmap string pyval) (call_before call_after : list pyval)
    (dispatch_id results_dir : string) (node_id : Z)
    : outcome (pyval * string * string) :=
  match f with
  | PTransportable (PObject fn) =>
      if String.eqb fn "identity" then
        match kwargs !! "x" with
        | Some v => Ok (v, "", "")
        | None => Raise (TypeError "missing argument x")
        end
      else if String.eqb fn "reciprocal" then
        Raise (mkExn "ZeroDivisionError" "division by zero")
      else if String.eqb fn "_dispatch" then
        match args with
        | PTransportable (PObject sub) :: _ =>
            Ok (PTransportable (PStr sub), "", "")
        | _ => Raise (TypeError "nothing to dispatch")
        end
      else if String.eqb fn "_post_process" then
        Ok (PTransportable (PInt 12), "", "")
      else Raise (TypeError "unknown callable")
  | _ => Raise (TypeError "not a transportable")
  end.

Definition local_executor : Executor := mkExecutor (fun _ => Ok tt) local_execute.

Definition sample_get_executor (short_name : string) : outcome Executor :=
  if String.eqb short_name "local" then Ok local_executor
  else Raise (mkExn "ValueError" ("unknown executor " +:+ short_name)).

Definition sample_futures (id : pyval) : outcome (option Result) :=
  match id with
  | PStr s =>
      if String.eqb s "sub_ok" then Ok (Some sub_done)
      else if String.eqb s "sub_bad" then Ok (Some sub_failed)
      else if String.eqb s "sub_none" then Ok None
      else Raise (KeyError s)
  | _ => Raise (TypeError "unhashable")
  end.

Definition sample_getitem (obj key : pyval) : outcome pyval :=
  match obj, key with
  | PList l, PInt i =>
      match l !! Z.to_nat i with
      | Some v => Ok v
      | None => Raise (IndexError "list index out of range")
      end
  | _, _ => Raise (TypeError "not subscriptable")
  end.

(** A world of collaborators: the clock advances by one microsecond at
    each reading; the layering and the deserialized lattice are given. *)
Definition sample_env (order : list (list Z)) (lat : option Lattice) : Env :=
  mkEnv (fun k => mkDatetime (Z.of_nat k))
        sample_get_executor
        (fun ex => exn_type ex +:+ ": " +:+ exn_msg ex)
        (fun v => match v with
                  | PTransportable (PStr s) => Ok s
                  | _ => Raise (mkExn "AttributeError" "json")
                  end)
        (fun s => Ok (PStr s))
        sample_futures
        (fun _ name => Raise (mkExn "AttributeError" name))
        sample_getitem
        (fun _ => Ok (PObject "bash"))
        (fun _ => Ok (PObject "pip"))
        (fun _ => Ok (PObject "call"))
        (fun _ => order)
        (fun _ => PObject "node_outputs")
        (fun _ => match lat with
                  | Some l => Ok l
                  | None => Raise (mkExn "ValueError" "bad lattice")
                  end).

Definition kwarg_edge (p c : Z) (name : string) : Edge :=
  mkEdge p c "kwarg" name None.

Definition arg_edge (p c : Z) (i : nat) : Edge :=
  mkEdge p c "arg" "arg" (Some i).

Definition wait_edge (p c : Z) : Edge :=
  mkEdge p c wait_only WAIT_EDGE_NAME None.

(** A parameter feeding a task that raises, feeding a third task. *)
Definition failing_graph : TransportGraph :=
  mkGraph (<[0%Z := param_node ":parameter:0" (PTransportable (PInt 0))]>
          (<[1%Z := task_node "reciprocal" "reciprocal" local_metadata]>
          (<[2%Z := task_node "identity" "identity" local_metadata]> ∅)))
          [kwarg_edge 0 1 "x"; kwarg_edge 1 2 "x"].

Definition failing_order : list (list Z) := [[0%Z]; [1%Z]; [2%Z]].

(** A parameter feeding one task. *)
Definition identity_graph : TransportGraph :=
  mkGraph (<[0%Z := param_node ":parameter:7" (PTransportable (PInt 7))]>
          (<[1%Z := task_node "identity" "identity" local_metadata]> ∅))
          [kwarg_edge 0 1 "x"].

Definition identity_order : list (list Z) := [[0%Z]; [1%Z]].

(** A task whose metadata names no executor. *)
Definition broken_graph : TransportGraph :=
  mkGraph (<[0%Z := task_node "identity" "identity" no_metadata]> ∅) [].

(** A list-collection node whose edges were added from parent 1 first. *)
Definition list_graph : TransportGraph :=
  mkGraph (<[0%Z := with_output (param_node ":parameter:10" (PInt 10)) (PInt 10)]>
          (<[1%Z := with_output (param_node ":parameter:20" (PInt 20)) (PInt 20)]>
          (<[2%Z := task_node ":electron_list:" "collect" local_metadata]> ∅)))
          [arg_edge 1 2 0; arg_edge 0 2 1].

(** A dict-collection node with one keyword edge and one wait-only edge. *)
Definition dict_graph : TransportGraph :=
  mkGraph (<[0%Z := with_output (param_node ":parameter:5" (PInt 5)) (PInt 5)]>
          (<[1%Z := with_output (task_node "square" "square" local_metadata) (PInt 9)]>
          (<[2%Z := task_node ":electron_dict:" "collect" local_metadata]> ∅)))
          [kwarg_edge 0 2 "k"; wait_edge 1 2].

(** A regular task with a keyword edge and a wait-only edge. *)
Definition wait_graph : TransportGraph :=
  mkGraph (<[0%Z := with_output (param_node ":parameter:5" (PInt 5)) (PInt 5)]>
          (<[1%Z := with_output (task_node "square" "square" local_metadata) (PInt 9)]>
          (<[2%Z := task_node "identity" "identity" local_metadata]> ∅)))
          [kwarg_edge 0 2 "x"; wait_edge 1 2].

(** A wave of two tasks after it was waited for: the first cancelled, the
    second failed. *)
Definition mixed_graph : TransportGraph :=
  mkGraph (<[1%Z := with_status (task_node "first" "identity" local_metadata)
                      Result_.CANCELLED]>
          (<[2%Z := with_status (task_node "second" "reciprocal" local_metadata)
                      Result_.FAILED]> ∅))
          [].


(** A list-collection node with an argument edge and a wait-only edge. *)
Definition wait_list_graph : TransportGraph :=
  mkGraph (<[0%Z := with_output (param_node ":parameter:5" (PInt 5)) (PInt 5)]>
          (<[1%Z := with_output (task_node "square" "square" local_metadata)
                      (PInt 9)]>
          (<[2%Z := task_node ":electron_list:" "collect" local_metadata]> ∅)))
          [arg_edge 0 2 0; wait_edge 1 2].

(** A regular task called as [f(a, b, a)]: the edges of [a] carry the
    argument indices 0 and 2, the edge of [b] the index 1. *)
Definition repeated_arg_graph : TransportGraph :=
  mkGraph (<[0%Z := with_output (param_node ":parameter:a" (PInt 1)) (PInt 1)]>
          (<[1%Z := with_output (param_node ":parameter:b" (PInt 2)) (PInt 2)]>
          (<[2%Z := task_node "f" "f" local_metadata]> ∅)))
          [arg_edge 0 2 0; arg_edge 1 2 1; arg_edge 0 2 2].


Definition sample_task (node_id : Z) (name fn executor : string)
    (inputs : task_input) : task_args :=
  mkTask node_id "dispatch-1" "/results" inputs (PTransportable (PObject fn))
         (executor, PDict ∅) [] [] name ("local", PDict ∅).

(** An executor whose [execute] always raises. *)
Definition failing_executor : Executor :=
  mkExecutor (fun _ => Ok tt)
             (fun _ _ _ _ _ _ _ _ => Raise (mkExn "OSError" "no worker")).

(** The sample world with one more executor, registered as ["remote"]. *)
Definition remote_env (order : list (list Z)) (remote : Executor) : Env :=
  let e := sample_env order None in
  mkEnv (clock e)
        (fun short_name =>
           if String.eqb short_name "remote" then Ok remote
           else get_executor e short_name)
        (format_exception e) (transportable_json e) (json_loads e)
        (futures e) (py_getattr e) (py_getitem e) (deps_bash_apply e)
        (deps_pip_apply e) (deps_call_apply e)
        (get_topologically_sorted_graph e) (get_all_node_outputs e)
        (deserialize_from_json e).

End Sample.

(** Sample dictionaries for the extraction of the graph. *)
Module GraphSample.

Definition sample_str (v : pyval) : string :=
  match v with
  | PObject label => "<" +:+ label +:+ ">"
  | PInt _ => "int"
  | _ => "object"
  end.

(** A registry that knows the executor ["local"]. *)
Definition sample_view (name : pyval) : outcome (option ExecutorView) :=
  match name with
  | PStr s =>
      if String.eqb s "local"
      then Ok (Some (mkExecutorView {[ "log_stdout" := PStr "stdout.log" ]}
                                    "LocalExecutor"))
      else Raise (mkExn "ValueError" ("unknown executor " +:+ s))
  | _ => Raise (mkExn "TypeError" "unhashable")
  end.

Definition sample_doc (f : pyval) : outcome pyval :=
  match f with
  | PTransportable _ => Ok (PStr "doc")
  | _ => Raise (mkExn "AttributeError" "get_deserialized")
  end.

(** A metadata dictionary whose two lists are the list objects 0 and 1,
    and the heap that holds them. *)
Definition full_metadata : MetaDict :=
  mkMetaDict (<["executor" := PStr "local"]>
             (<["executor_data" := PDict ∅]>
             (<["deps" := PDict {[ "bash" := PObject "DepsBash" ]}]> ∅)))
             (Some 0) (Some 1).

Definition sample_heap : Heap :=
  <[0 := [PObject "DepsCall"; PInt 3]]> (<[1 := [PObject "DepsCall"]]> ∅).

(** The same dictionary without its ["executor"]. *)
Definition metadata_without_executor : MetaDict :=
  mkMetaDict (<["deps" := PDict {[ "bash" := PObject "DepsBash" ]}]> ∅)
             (Some 0) (Some 1).

Definition graph_node : NodeDict :=
  mkNodeDict (<["name" := PStr "identity"]>
             (<["function" := PTransportable (PObject "identity")]>
             (<["node_name" := PStr "identity"]> ∅)))
             (Some full_metadata).

Definition node_without_metadata : NodeDict :=
  mkNodeDict (<["name" := PStr ":parameter:1"]> ∅) None.

End GraphSample.

(* ===================================================================== *)
(** * Proof tools *)
(* ===================================================================== *)

(** Unfolds the two monads down to their [match]. *)
Ltac unfold_monad :=
  unfold mbind, mret, M_bind, M_ret, outcome_bind, outcome_ret, lift, raise,
    try_except, get_result, set_result, modify_result, emit, now in *.

(* ===================================================================== *)
(** * The Dispatch Store session *)
(* ===================================================================== *)

Module DataStoreFacts.
Import DataStore DataStoreAux.

Lemma run_body_completes (acts : list action) :
  completes acts = true →
  ∀ s tr, run_body acts s tr =
    (Ok tt,
     mkSession (pending_uploads s ++ uploads_of acts)
               (pending_deletes s ++ deletes_of acts),
     tr ++ writes_of acts).
Proof.
  induction acts as [|a acts IH]; intros Hc s tr; simpl.
  - rewrite !app_nil_r. by destruct s.
  - simpl in Hc. apply andb_true_iff in Hc as [Ha Hc].
    destruct a; simpl in *; try discriminate;
      rewrite (IH Hc); simpl; rewrite <- ?app_assoc; reflexivity.
Qed.

Lemma run_body_raises (pre post : list action) (ex : exn) :
  completes pre = true →
  ∀ s tr, run_body (pre ++ RaiseExn ex :: post) s tr =
    (Raise ex,
     mkSession (pending_uploads s ++ uploads_of pre)
               (pending_deletes s ++ deletes_of pre),
     tr ++ writes_of pre).
Proof.
  induction pre as [|a pre IH]; intros Hc s tr; simpl.
  - rewrite !app_nil_r. by destruct s.
  - simpl in Hc. apply andb_true_iff in Hc as [Ha Hc].
    destruct a; simpl in *; try discriminate;
      rewrite (IH Hc); simpl; rewrite <- ?app_assoc; reflexivity.
Qed.

Lemma drain_all {A} (method : A → outcome unit) (ev : A → SEvent)
    (queue : list A) :
  (∀ a, a ∈ queue → method a = Ok tt) →
  ∀ tr, drain method ev queue tr = (Ok tt, tr ++ (ev <$> queue)).
Proof.
  induction queue as [|a queue IH]; intros Hok tr; simpl.
  - by rewrite app_nil_r.
  - rewrite (Hok a) by apply list_elem_of_here.
    rewrite IH by (intros b Hb; apply Hok; by apply list_elem_of_further).
    by rewrite <- app_assoc.
Qed.

(** The drain stops at the first file method that raises: what was
    queued after it is not attempted. *)
Lemma drain_stops {A} (method : A → outcome unit) (ev : A → SEvent)
    (done : list A) (a : A) (rest : list A) (ex : exn) :
  (∀ b, b ∈ done → method b = Ok tt) →
  method a = Raise ex →
  ∀ tr, drain method ev (done ++ a :: rest) tr = (Raise ex, tr ++ (ev <$> done)).
Proof.
  induction done as [|b done IH]; intros Hok Ha tr; simpl.
  - by rewrite Ha, app_nil_r.
  - rewrite (Hok b) by apply list_elem_of_here.
    rewrite IH; [by rewrite <- app_assoc | | done].
    intros c Hc. apply Hok. by apply list_elem_of_further.
Qed.

Lemma writes_are_not_file_events (acts : list action) :
  List.filter is_file_event (writes_of acts) = [].
Proof.
  induction acts as [|a acts IH]; [done|]. by destruct a.
Qed.

(** C6, as amended. A body that completes normally is followed by the
    commit, then by every queued upload in queue order, then by every
    queued delete in queue order, provided each of these file operations
    returns; a body that raises is followed by the rollback, the same
    exception leaves the session, and no file operation is performed. *)
Theorem begin_session_semantics (db : WorkflowDB) (body : list action) :
  (completes body = true →
   (∀ a, a ∈ uploads_of body → upload_file db a = Ok tt) →
   (∀ d, d ∈ deletes_of body → delete_file db d = Ok tt) →
   begin_session db body =
     (Ok tt,
      [SBegin] ++ writes_of body ++ [SCommit]
        ++ (SUpload <$> uploads_of body) ++ (SDelete <$> deletes_of body)))
  ∧ (∀ pre ex post,
       body = pre ++ RaiseExn ex :: post →
       completes pre = true →
       begin_session db body = (Raise ex, [SBegin] ++ writes_of pre ++ [SRollback])
       ∧ List.filter is_file_event (begin_session db body).2 = []).
Proof.
  split.
  - intros Hc Hup Hdel. unfold begin_session.
    rewrite (run_body_completes body Hc). simpl.
    rewrite drain_all by done. rewrite drain_all by done.
    simpl. by rewrite <- !app_assoc.
  - intros pre ex post -> Hc. unfold begin_session.
    rewrite (run_body_raises pre post ex Hc). simpl. split; [done|].
    rewrite List.filter_app, writes_are_not_file_events. reflexivity.
Qed.

(** With [WorkflowDB] as it is in the sources, a body that completes
    normally after queueing is followed by the commit, by no upload and no
    delete, and by the rollback; [NotImplementedError] leaves the session. *)
Lemma begin_session_base_db_drops_the_queues :
  completes [QueueUpload up1; QueueUpload up2; QueueDelete del1] = true
  ∧ begin_session base_db [QueueUpload up1; QueueUpload up2; QueueDelete del1]
    = (Raise NotImplementedError, [SBegin; SCommit; SRollback])
  ∧ begin_session base_db [QueueUpload up1; QueueUpload up2; QueueDelete del1]
    ≠ (Ok tt, [SBegin; SCommit; SUpload up1; SUpload up2; SDelete del1]).
Proof. split; [reflexivity|]. split; [reflexivity|]. discriminate. Qed.

Lemma begin_session_semantics_witness :
  begin_session working_db [Statement "insert"; QueueUpload up1; QueueDelete del1;
                            QueueUpload up2]
    = (Ok tt, [SBegin; SWrite "insert"; SCommit; SUpload up1; SUpload up2;
               SDelete del1])
  ∧ begin_session working_db [Statement "insert"; QueueUpload up1;
                              RaiseExn (KeyError "k"); QueueDelete del1]
    = (Raise (KeyError "k"), [SBegin; SWrite "insert"; SRollback]).
Proof.
  split.
  - apply (proj1 (begin_session_semantics working_db
             [Statement "insert"; QueueUpload up1; QueueDelete del1; QueueUpload up2]));
      [reflexivity | intros; reflexivity | intros; reflexivity].
  - apply (proj2 (begin_session_semantics working_db
             [Statement "insert"; QueueUpload up1; RaiseExn (KeyError "k");
              QueueDelete del1])
             [Statement "insert"; QueueUpload up1] (KeyError "k") [QueueDelete del1]);
      reflexivity.
Defined.

End DataStoreFacts.

(* ===================================================================== *)
(** * The JSON form of a Result *)
(* ===================================================================== *)

Section EncoderFacts.

Variable isoformat : datetime → string.
Variable str_object : pyval → string.

Lemma render_list (l : list pyval) :
  render isoformat str_object (PList l)
  = JArr (render isoformat str_object <$> l).
Proof. reflexivity. Qed.

Lemma render_dict (d : gmap string pyval) (k : string) :
  ∃ m, render isoformat str_object (PDict d) = JObj m
       ∧ m !! k = render isoformat str_object <$> (d !! k).
Proof. eexists. split; [reflexivity|]. apply lookup_fmap. Qed.

(** C9, as amended. In the JSON form of a Result every Status is the
    string of its tag, every datetime its ISO-8601 string, every other
    object without a JSON form its [str()], and a float that is NaN (or
    infinite) is [null]; this holds at the top-level entries of the
    document, and inside lists and dictionaries. *)
Theorem encode_result_rendering (result_obj : Result)
    (lattice_doc graph_doc : pyval) :
  let json_of := render isoformat str_object in
  (∀ s, json_of (PStatus s) = JStr (STATUS s))
  ∧ (∀ t, json_of (PDatetime t) = JStr (isoformat t))
  ∧ (∀ label, json_of (PObject label) = JStr (str_object (PObject label)))
  ∧ (∀ v, json_of (PTransportable v) = JStr (str_object (PTransportable v)))
  ∧ json_of (PFloat FNaN) = JNull
  ∧ (∀ neg, json_of (PFloat (FInf neg)) = JNull)
  ∧ (∀ l, json_of (PList l) = JArr (json_of <$> l))
  ∧ (∀ d, json_of (PDict d) = JObj (json_of <$> d))
  ∧ ∃ m, encode_result isoformat str_object result_obj lattice_doc graph_doc
           = JObj m
       ∧ m !! "status" = Some (JStr (STATUS (_status result_obj)))
       ∧ m !! "start_time" =
           Some (match _start_time result_obj with
                 | Some t => JStr (isoformat t)
                 | None => JNull
                 end)
       ∧ m !! "end_time" =
           Some (match _end_time result_obj with
                 | Some t => JStr (isoformat t)
                 | None => JNull
                 end)
       ∧ m !! "result" = Some (json_of (result_of result_obj)).
Proof.
  intros json_of. subst json_of.
  repeat (split; [reflexivity|]).
  eexists. split; [reflexivity|].
  split_and!; rewrite lookup_fmap; unfold result_dict; simplify_map_eq.
  - reflexivity.
  - by destruct (_start_time result_obj).
  - by destruct (_end_time result_obj).
  - reflexivity.
Qed.

End EncoderFacts.

(** A NaN is not elided: the entry that holds it stays in the document,
    with the value [null]. *)
Lemma nan_result_is_rendered_as_null :
  let r := mkResult "d" "/results"
             (mkLattice Sample.empty_graph "local" (PDict ∅) "/results" false)
             Result_.COMPLETED None None None (PFloat FNaN) in
  let doc := PDict {[ "result" := result_of r ]} in
  dumps (result_encoder (fun _ => "") (fun _ => "")) true doc
    = JObj {[ "result" := JNull ]}
  ∧ dumps (result_encoder (fun _ => "") (fun _ => "")) true doc
    ≠ dumps (result_encoder (fun _ => "") (fun _ => "")) true (elide_nan doc).
Proof.
  split; [vm_compute; reflexivity|].
  intros H. vm_compute in H. discriminate H.
Qed.

(* ===================================================================== *)
(** * Task-input assembly *)
(* ===================================================================== *)

Section InputFacts.

Implicit Types (g : TransportGraph) (r : Result) (ti : task_input).

Lemma get_output_known g (p : Z) :
  is_Some (g_nodes g !! p) →
  get_node_value g p n_output = Ok (output_of g p).
Proof.
  intros [nd Hnd]. unfold get_node_value, get_node, output_of.
  by rewrite Hnd.
Qed.

Lemma omap_outputs g (ps : list Z) :
  (∀ p, p ∈ ps → is_Some (g_nodes g !! p)) →
  omap (fun p => get_node_value g p n_output) ps = Ok (output_of g <$> ps).
Proof.
  induction ps as [|p ps IH]; intros Hall; simpl; [done|].
  rewrite get_output_known by (apply Hall; apply list_elem_of_here).
  simpl. rewrite IH; [done|].
  intros q Hq. apply Hall. by apply list_elem_of_further.
Qed.

Lemma edge_data_spec g (p n : Z) (d : Edge) :
  d ∈ get_edge_data g p n ↔ d ∈ g_edges g ∧ e_parent d = p ∧ e_child d = n.
Proof.
  unfold get_edge_data, edge_between.
  rewrite !list_elem_of_In, List.filter_In, andb_true_iff, !Z.eqb_eq.
  tauto.
Qed.

Lemma bind_edge_from_data_edges g (n p : Z) ti (d : Edge) :
  d ∈ get_edge_data g p n →
  from_data_edges g n ti →
  from_data_edges g n (bind_edge (output_of g p) ti d).
Proof.
  intros Hd [Hargs Hkw]. apply edge_data_spec in Hd as (Hin & Hp & Hc).
  unfold bind_edge.
  destruct (String.eqb (param_type d) "arg") eqn:Ea.
  - apply String.eqb_eq in Ea. split; simpl; [|done].
    intros v Hv. apply elem_of_app in Hv as [Hv|Hv]; [by apply Hargs|].
    apply list_elem_of_singleton in Hv as ->.
    exists d. by rewrite Hp.
  - destruct (String.eqb (param_type d) "kwarg") eqn:Ek; [|by split].
    apply String.eqb_eq in Ek. split; simpl; [done|].
    intros k v Hl. destruct (decide (edge_name d = k)) as [<-|Hne].
    + rewrite lookup_insert_eq in Hl. injection Hl as <-.
      exists d. by rewrite Hp.
    + rewrite lookup_insert_ne in Hl by done. by apply Hkw.
Qed.

Lemma fold_bind_edge_from_data_edges g (n p : Z) (ds : list Edge) :
  (∀ d, d ∈ ds → d ∈ get_edge_data g p n) →
  ∀ ti, from_data_edges g n ti →
        from_data_edges g n (fold_left (bind_edge (output_of g p)) ds ti).
Proof.
  induction ds as [|d ds IH]; intros Hall ti Hti; simpl; [done|].
  apply IH.
  - intros d' Hd'. apply Hall. by apply list_elem_of_further.
  - apply bind_edge_from_data_edges; [|done]. apply Hall, list_elem_of_here.
Qed.

Lemma regular_loop_from_data_edges g (n : Z) (ps : list Z) :
  ∀ ti ti',
    from_data_edges g n ti →
    ofold (fun ti parent =>
             value ← get_node_value g parent n_output;
             Ok (fold_left (bind_edge value) (get_edge_data g parent n) ti))
          ti ps = Ok ti' →
    from_data_edges g n ti'.
Proof.
  induction ps as [|p ps IH]; intros ti ti' Hti Hrun; simpl in Hrun.
  - by injection Hrun as <-.
  - unfold get_node_value, get_node in Hrun.
    destruct (g_nodes g !! p) as [nd|] eqn:Hp; simpl in Hrun; [|discriminate].
    eapply IH; [|exact Hrun].
    assert (n_output nd = output_of g p) as -> by (unfold output_of; by rewrite Hp).
    by apply fold_bind_edge_from_data_edges.
Qed.

(** The part of C4 that holds: in the regular branch a wait-only edge (an
    edge whose [param_type] is neither ["arg"] nor ["kwarg"]) contributes
    nothing; every entry of [args] and [kwargs] comes from a data edge. *)
Lemma regular_inputs_from_data_edges r (node_id : Z) (node_name : string) ti :
  startswith node_name electron_list_prefix = false →
  startswith node_name electron_dict_prefix = false →
  _get_task_inputs node_id node_name r = Ok ti →
  from_data_edges (transport_graph (lattice r)) node_id ti.
Proof.
  intros Hl Hd. unfold _get_task_inputs. rewrite Hl, Hd.
  apply regular_loop_from_data_edges.
  split; simpl; [intros v Hv; by apply elem_of_nil in Hv | intros k v Hk; done].
Qed.

(** C5, as amended. For a node whose name begins with the list-collection
    marker, input assembly gives no positional argument and the single
    keyword argument ["x"]: one transportable around the list of the
    parents' outputs, in the order in which [get_dependencies] lists the
    parents. *)
Theorem list_collection_inputs r (node_id : Z) (node_name : string) :
  let g := transport_graph (lattice r) in
  startswith node_name electron_list_prefix = true →
  (∀ p, p ∈ get_dependencies g node_id → is_Some (g_nodes g !! p)) →
  _get_task_inputs node_id node_name r
    = Ok (mkInput []
            {[ "x" := make_transportable
                        (PList (output_of g <$> get_dependencies g node_id)) ]}).
Proof.
  intros g Hl Hall. unfold _get_task_inputs. rewrite Hl.
  fold g. by rewrite omap_outputs.
Qed.

End InputFacts.

Lemma list_collection_inputs_witness :
  _get_task_inputs 2 ":electron_list:" (Sample.result_on Sample.list_graph "local")
    = Ok (mkInput [] {[ "x" := PTransportable (PList [PInt 20; PInt 10]) ]}).
Proof.
  apply (list_collection_inputs (Sample.result_on Sample.list_graph "local")
           2 ":electron_list:"); [reflexivity|].
  intros p Hp. vm_compute in Hp.
  apply elem_of_cons in Hp as [->|Hp]; [by eexists|].
  apply list_elem_of_singleton in Hp as ->. by eexists.
Defined.

(** The parents of the list node are 1 and 0 in dependency order; the
    collected list follows that order and not the ascending order of the
    parent ids. *)
Lemma list_collection_not_in_id_order :
  let g := Sample.list_graph in
  get_dependencies g 2 = [1%Z; 0%Z]
  ∧ parents_by_id g 2 = [0%Z; 1%Z]
  ∧ _get_task_inputs 2 ":electron_list:" (Sample.result_on g "local")
    ≠ Ok (mkInput []
            {[ "x" := make_transportable
                        (PList (output_of g <$> parents_by_id g 2)) ]}).
Proof.
  split; [reflexivity|]. split; [reflexivity|].
  intros H. vm_compute in H. discriminate H.
Qed.

(** C4 at a dict-collection node with one keyword edge and one wait-only
    edge: the collected dictionary has an entry for the wait-only edge,
    under its edge name. *)
Theorem dict_collection_keeps_wait_edge :
  _get_task_inputs 2 ":electron_dict:" (Sample.result_on Sample.dict_graph "local")
    = Ok (mkInput []
            {[ "x" := PTransportable
                        (PDict (<[WAIT_EDGE_NAME := PInt 9]> {[ "k" := PInt 5 ]})) ]}).
Proof. vm_compute. reflexivity. Qed.

(** The same two edges into a regular node: only the keyword edge binds. *)
Lemma regular_node_ignores_wait_edge :
  _get_task_inputs 2 "identity" (Sample.result_on Sample.wait_graph "local")
    = Ok (mkInput [] {[ "x" := PInt 5 ]}).
Proof. vm_compute. reflexivity. Qed.

(** A list-collection node gathers the output of a parent it only waits
    for. *)
Lemma list_collection_keeps_wait_parent :
  _get_task_inputs 2 ":electron_list:"
    (Sample.result_on Sample.wait_list_graph "local")
    = Ok (mkInput [] {[ "x" := PTransportable (PList [PInt 5; PInt 9]) ]}).
Proof. vm_compute. reflexivity. Qed.

(* ===================================================================== *)
(** * The task runner *)
(* ===================================================================== *)

Section TaskRunnerFacts.

Variable env : Env.

(** A job whose name is not a sublattice name makes no call to
    [_run_task]. *)
Lemma run_task_with_leaf (self1 self2 : task_args → M node_result)
    (a : task_args) (w : World) :
  startswith (t_node_name a) sublattice_prefix = false →
  _run_task_with env self1 a w = _run_task_with env self2 a w.
Proof.
  intros Hleaf. unfold _run_task_with. unfold_monad. by rewrite Hleaf.
Qed.

Lemma run_task_with_ext (self1 self2 : task_args → M node_result)
    (a : task_args) (w : World) :
  (∀ b w', startswith (t_node_name b) sublattice_prefix = false →
           self1 b w' = self2 b w') →
  _run_task_with env self1 a w = _run_task_with env self2 a w.
Proof.
  intros Hself. unfold _run_task_with. unfold_monad.
  destruct (resolve_executor env (t_selected_executor a)); [|done].
  destruct (startswith (t_node_name a) sublattice_prefix); [|done].
  destruct (t_workflow_executor a) as [short_name object_dict].
  destruct (String.eqb short_name "client"); [done|].
  by rewrite Hself.
Qed.

(** The recursive equation of [_run_task]: it is its own body, with
    itself for the calls made through the pool. *)
Lemma _run_task_unfold (a : task_args) (w : World) :
  _run_task env a w = _run_task_with env (_run_task env) a w.
Proof.
  unfold _run_task at 1. apply run_task_with_ext.
  intros b w' Hb. unfold _run_task. by apply run_task_with_leaf.
Qed.



(** Once the executor is resolved, [_run_task] always returns a node
    result for its node: what is raised afterwards becomes a [FAILED]
    result. *)
Lemma run_task_returns_after_resolution (a : task_args) (w : World)
    (executor : Executor) :
  resolve_executor env (t_selected_executor a) = Ok executor →
  ∃ nr w', _run_task env a w = (Ok nr, w') ∧ nr_node_id nr = t_node_id a
           ∧ is_Some (nr_end_time nr).
Proof.
  intros Hres. rewrite _run_task_unfold. unfold _run_task_with.
  unfold_monad. rewrite Hres.
  match goal with
  | |- context [match ?c with (_, _) => _ end] =>
      destruct c as [[nr|ex] w'] eqn:E
  end.
  - exists nr, w'. split; [done|].
    destruct (startswith (t_node_name a) sublattice_prefix).
    + destruct (t_workflow_executor a) as [n d].
      destruct (String.eqb n "client"); [discriminate|].
      repeat match type of E with
             | context [match ?c with (_, _) => _ end] =>
                 destruct c as [[?|?] ?]; try discriminate
             | context [match ?c with Ok _ => _ | Raise _ => _ end] =>
                 destruct c; try discriminate
             | context [match ?c with Some _ => _ | None => _ end] =>
                 destruct c; try discriminate
             | context [bool_decide ?P] => destruct (bool_decide P)
             end; injection E as <- <-; simpl; eauto.
    + repeat match type of E with
             | context [match ?c with Ok _ => _ | Raise _ => _ end] =>
                 destruct c as [[[? ?] ?]|?]; try discriminate
             end; injection E as <- <-; simpl; eauto.
  - eexists _, _. split; [reflexivity|]. simpl. eauto.
Qed.

(** C3. For a sublattice node, once the Result of the sub-dispatch has
    been awaited from the registry of futures: the node result carries the
    encoded final value of the sub-Result as output and the whole
    sub-Result as [sublattice_result]; when the status of the sub-Result
    is not [COMPLETED] the node result is [FAILED] with the error
    ["Sublattice workflow failed to complete"], and otherwise it is
    [COMPLETED] without error. *)
Theorem sublattice_node_result (a : task_args) (w w1 : World)
    (executor : Executor) (wf_name : string) (wf_data : pyval)
    (dispatched : node_result) (js : string) (id : pyval) (sub : Result) :
  startswith (t_node_name a) sublattice_prefix = true →
  resolve_executor env (t_selected_executor a) = Ok executor →
  t_workflow_executor a = (wf_name, wf_data) →
  wf_name ≠ "client" →
  _run_task env
    (mkTask (-1) (t_dispatch_id a) (t_results_dir a)
       (mkInput (t_serialized_callable a :: args (t_inputs a))
                (kwargs (t_inputs a)))
       (make_transportable _dispatch) (wf_name, wf_data) [] []
       "dispatch_sublattice" (wf_name, wf_data))
    (mkWorld (result_object w) (ticks w)
             (log w ++ [ESubmit (-1) "dispatch_sublattice"]))
    = (Ok dispatched, w1) →
  transportable_json env (nr_output dispatched) = Ok js →
  json_loads env js = Ok id →
  futures env id = Ok (Some sub) →
  ∃ nr,
    _run_task env a w
      = (Ok nr, mkWorld (result_object w1) (S (ticks w1)) (log w1))
    ∧ nr_node_id nr = t_node_id a
    ∧ nr_end_time nr = Some (clock env (ticks w1))
    ∧ nr_output nr = encoded_result sub
    ∧ nr_sublattice_result nr = Some sub
    ∧ (_status sub ≠ Result_.COMPLETED →
       nr_status nr = Some Result_.FAILED
       ∧ nr_error nr = Some "Sublattice workflow failed to complete")
    ∧ (_status sub = Result_.COMPLETED →
       nr_status nr = Some Result_.COMPLETED ∧ nr_error nr = None).
Proof.
  intros Hname Hres Hwf Hclient Hsub Hjs Hid Hfut.
  rewrite _run_task_unfold. unfold _run_task_with. unfold_monad.
  rewrite Hres, Hname, Hwf.
  apply String.eqb_neq in Hclient. rewrite Hclient.
  rewrite Hsub, Hjs, Hid, Hfut.
  destruct (bool_decide (_status sub ≠ Result_.COMPLETED)) eqn:Hst.
  - apply bool_decide_eq_true in Hst.
    eexists. split; [reflexivity|]. simpl. by repeat split.
  - apply bool_decide_eq_false in Hst.
    eexists. split; [reflexivity|]. simpl. repeat split; try done.
    all: exfalso; apply Hst; intros Heq; by apply Hst.
Qed.

End TaskRunnerFacts.



Lemma sublattice_node_result_witness :
  ∃ nr w',
    _run_task (Sample.sample_env [] None)
      (Sample.sample_task 3 ":sublattice:inner" "sub_bad" "local" (mkInput [] ∅))
      (Sample.world_of (Sample.result_on Sample.identity_graph "local"))
    = (Ok nr, w')
    ∧ nr_status nr = Some Result_.FAILED
    ∧ nr_error nr = Some "Sublattice workflow failed to complete"
    ∧ nr_output nr = encoded_result Sample.sub_failed
    ∧ nr_sublattice_result nr = Some Sample.sub_failed.
Proof.
  destruct (sublattice_node_result (Sample.sample_env [] None)
              (Sample.sample_task 3 ":sublattice:inner" "sub_bad" "local"
                 (mkInput [] ∅))
              (Sample.world_of (Sample.result_on Sample.identity_graph "local"))
              (mkWorld (Sample.result_on Sample.identity_graph "local") 1
                       [ESubmit (-1) "dispatch_sublattice"])
              Sample.local_executor "local" (PDict ∅)
              (mkNodeResult (-1) None (Some (mkDatetime 0))
                 (Some Result_.COMPLETED) (PTransportable (PStr "sub_bad"))
                 None (Some "") (Some "") None)
              "sub_bad" (PStr "sub_bad") Sample.sub_failed)
    as (nr & Hrun & _ & _ & Hout & Hsub & Hfailed & _);
    [reflexivity | reflexivity | reflexivity | discriminate | reflexivity
    | reflexivity | reflexivity | reflexivity |].
  exists nr. eexists. split; [exact Hrun|].
  destruct Hfailed as [Hs He]; [discriminate|]. by repeat split.
Defined.

(* ===================================================================== *)
(** * The wave scheduler *)
(* ===================================================================== *)

Section SchedulerFacts.

Variable env : Env.

Implicit Types (w : World) (r : Result) (nd : Node).

Lemma get_node_known (g : TransportGraph) (n : Z) nd :
  g_nodes g !! n = Some nd → get_node g n = Ok nd.
Proof. intros H. unfold get_node. by rewrite H. Qed.

Lemma update_node_known r (nr : node_result) nd :
  g_nodes (graph_of r) !! nr_node_id nr = Some nd →
  _update_node r nr
    = Ok (with_graph r
            (mkGraph (<[nr_node_id nr := merge_node nr nd]> (g_nodes (graph_of r)))
                     (g_edges (graph_of r)))).
Proof.
  intros H. unfold _update_node. fold (graph_of r).
  by rewrite (get_node_known _ _ _ H).
Qed.

(** What an inline node computes: a parameter node its [value]; an
    attribute node the attribute [attribute_name] of the output of its
    first parent; a subscript or generator node the item [key] of that
    output. *)
Lemma inline_output_inv (g : TransportGraph) (node_id : Z) nd (output : pyval) :
  g_nodes g !! node_id = Some nd →
  inline_output env g node_id (n_name nd) = Ok output →
  (startswith (n_name nd) parameter_prefix = true → n_value nd = Some output)
  ∧ (startswith (n_name nd) parameter_prefix = false →
     ∃ parent others pnd,
       get_dependencies g node_id = parent :: others
       ∧ g_nodes g !! parent = Some pnd
       ∧ (startswith (n_name nd) attr_prefix = true →
          ∃ attr, n_attribute_name nd = Some attr
                  ∧ py_getattr env (n_output pnd) attr = Ok output)
       ∧ (startswith (n_name nd) attr_prefix = false →
          ∃ key, n_key nd = Some key
                 ∧ py_getitem env (n_output pnd) key = Ok output)).
Proof.
  intros Hnd. unfold inline_output, get_node_attr, get_node_value.
  rewrite (get_node_known _ _ _ Hnd). simpl.
  destruct (startswith (n_name nd) parameter_prefix).
  - intros H. split; [|discriminate]. intros _.
    destruct (n_value nd); [by injection H as -> | discriminate].
  - intros H. split; [discriminate|]. intros _.
    destruct (get_dependencies g node_id) as [|parent others]; [discriminate|].
    simpl in H. unfold get_node in H.
    destruct (g_nodes g !! parent) as [pnd|] eqn:Hp; [|discriminate].
    simpl in H. exists parent, others, pnd. split; [done|]. split; [done|].
    destruct (startswith (n_name nd) attr_prefix).
    + split; [|discriminate]. intros _.
      destruct (n_attribute_name nd) as [attr|]; [|discriminate]. eauto.
    + split; [discriminate|]. intros _.
      destruct (n_key nd) as [key|]; [|discriminate]. eauto.
Qed.

(** C8, as amended. A node whose name begins with a parameter,
    subscript, attribute or generator marker is computed by the scheduler
    itself: no job is submitted (the log is unchanged), the node is
    recorded [COMPLETED] with its output, [start_time] is one reading of
    the clock and [end_time] the next reading. The value is the node's
    [value] for a parameter node, the attribute [attribute_name] of the
    first parent's output for an attribute node, and the item [key] of that
    output for a subscript or generator node. *)
Theorem inline_node_recorded w (node_id : Z) nd (output : pyval) :
  let r := result_object w in
  g_nodes (graph_of r) !! node_id = Some nd →
  is_inline (n_name nd) = true →
  inline_output env (graph_of r) node_id (n_name nd) = Ok output →
  (∃ r' nd',
     submit_node env node_id w
       = (Ok None, mkWorld r' (S (S (ticks w))) (log w))
     ∧ g_nodes (graph_of r') !! node_id = Some nd'
     ∧ n_status nd' = Result_.COMPLETED
     ∧ n_start_time nd' = Some (clock env (ticks w))
     ∧ n_end_time nd' = Some (clock env (S (ticks w)))
     ∧ n_output nd' = match output with PNone => n_output nd | v => v end)
  ∧ (startswith (n_name nd) parameter_prefix = true → n_value nd = Some output)
  ∧ (startswith (n_name nd) parameter_prefix = false →
     ∃ parent others pnd,
       get_dependencies (graph_of r) node_id = parent :: others
       ∧ g_nodes (graph_of r) !! parent = Some pnd
       ∧ (startswith (n_name nd) attr_prefix = true →
          ∃ attr, n_attribute_name nd = Some attr
                  ∧ py_getattr env (n_output pnd) attr = Ok output)
       ∧ (startswith (n_name nd) attr_prefix = false →
          ∃ key, n_key nd = Some key
                 ∧ py_getitem env (n_output pnd) key = Ok output)).
Proof.
  intros r Hnd Hinline Hout. split; [|by apply inline_output_inv].
  unfold submit_node. unfold_monad. fold r.
  unfold get_node_value. rewrite (get_node_known _ _ _ Hnd). simpl.
  rewrite Hinline, Hout. simpl.
  rewrite (update_node_known r _ nd) by done. simpl.
  eexists _, _. split; [reflexivity|]. simpl.
  split; [apply lookup_insert_eq|].
  repeat split; try reflexivity. simpl. by destruct output.
Qed.

End SchedulerFacts.

Lemma inline_node_recorded_witness :
  ∃ r' nd',
    submit_node (Sample.sample_env Sample.identity_order None) 0
      (Sample.world_of (Sample.result_on Sample.identity_graph "local"))
    = (Ok None, mkWorld r' 2 [])
    ∧ g_nodes (graph_of r') !! 0%Z = Some nd'
    ∧ n_status nd' = Result_.COMPLETED
    ∧ n_output nd' = PTransportable (PInt 7).
Proof.
  destruct (inline_node_recorded (Sample.sample_env Sample.identity_order None)
              (Sample.world_of (Sample.result_on Sample.identity_graph "local"))
              0 (Sample.param_node ":parameter:7" (PTransportable (PInt 7)))
              (PTransportable (PInt 7)))
    as [(r' & nd' & Hrun & Hnd' & Hst & _ & _ & Hout) _];
    [reflexivity | reflexivity | reflexivity |].
  exists r', nd'. by repeat split.
Defined.

(** A parameter node under a clock that advances between two readings:
    the node is recorded [COMPLETED] with a [start_time] that differs from
    its [end_time]. *)
Lemma inline_node_times_differ :
  ∃ w' nd',
    submit_node (Sample.sample_env Sample.identity_order None) 0
      (Sample.world_of (Sample.result_on Sample.identity_graph "local"))
    = (Ok None, w')
    ∧ g_nodes (graph_of (result_object w')) !! 0%Z = Some nd'
    ∧ n_status nd' = Result_.COMPLETED
    ∧ n_start_time nd' = Some (mkDatetime 0)
    ∧ n_end_time nd' = Some (mkDatetime 1)
    ∧ n_start_time nd' ≠ n_end_time nd'.
Proof.
  eexists _, _. split; [vm_compute; reflexivity|].
  split; [vm_compute; reflexivity|]. by repeat split.
Qed.

Section FrameFacts.

Variable env : Env.

Implicit Types (w : World) (r : Result).

Lemma keeps_ret {A B} (f : Result → B) (a : A) : keeps f (mret a : M A).
Proof. by intros w. Qed.

Lemma keeps_bind {A B C} (f : Result → C) (c : M A) (k : A → M B) :
  keeps f c → (∀ a, keeps f (k a)) → keeps f (c ≫= k).
Proof.
  intros Hc Hk w. unfold mbind, M_bind. specialize (Hc w).
  destruct (c w) as [[a|e] w']; simpl in *; [|done].
  by rewrite Hk.
Qed.

Lemma keeps_try {A C} (f : Result → C) (c : M A) (h : exn → M A) :
  keeps f c → (∀ e, keeps f (h e)) → keeps f (try_except c h).
Proof.
  intros Hc Hh w. unfold try_except. specialize (Hc w).
  destruct (c w) as [[a|e] w']; simpl in *; [done|].
  by rewrite Hh.
Qed.

Lemma keeps_lift {A C} (f : Result → C) (o : outcome A) : keeps f (lift o).
Proof. by intros w. Qed.

Lemma keeps_raise {A C} (f : Result → C) (e : exn) : keeps f (raise e : M A).
Proof. by intros w. Qed.

Lemma keeps_emit {C} (f : Result → C) (e : Event) : keeps f (emit e).
Proof. by intros w. Qed.

Lemma keeps_now {C} (f : Result → C) : keeps f (now env).
Proof. by intros w. Qed.

Lemma keeps_for_each {A C} (f : Result → C) (body : A → M unit) (xs : list A) :
  (∀ x, keeps f (body x)) → keeps f (for_each body xs).
Proof.
  intros Hbody. induction xs as [|x xs IH]; simpl.
  - apply keeps_ret.
  - apply keeps_bind; [apply Hbody | intros _; apply IH].
Qed.

(** A read-modify-write of the Result keeps what the modification
    keeps. *)
Lemma keeps_modify {A C} (f : Result → C) (k : Result → M A) :
  (∀ r w, result_object w = r → f (result_object (k r w).2) = f r) →
  keeps f (get_result ≫= k).
Proof. intros Hk w. unfold mbind, M_bind, get_result. by apply Hk. Qed.

Lemma keeps_persist {C} (f : Result → C) (b : bool) :
  keeps f (persist_and_notify b).
Proof. by intros w. Qed.

Lemma update_node_keeps_result r (nr : node_result) r' :
  _update_node r nr = Ok r' → _result r' = _result r.
Proof.
  unfold _update_node.
  destruct (get_node _ _); simpl; [|discriminate]. by intros [= <-].
Qed.

Lemma update_node_result_keeps_result (nr : node_result) :
  keeps _result (update_node_result nr).
Proof.
  intros w. unfold update_node_result. unfold_monad.
  destruct (_update_node (result_object w) nr) as [r'|e] eqn:E; simpl; [|done].
  by apply update_node_keeps_result in E.
Qed.

Lemma run_task_with_keeps {C} (f : Result → C)
    (self : task_args → M node_result) (a : task_args) :
  (∀ b, keeps f (self b)) → keeps f (_run_task_with env self a).
Proof.
  intros Hself. unfold _run_task_with.
  apply keeps_bind; [apply keeps_lift|]. intros executor.
  apply keeps_try.
  - destruct (startswith (t_node_name a) sublattice_prefix).
    + destruct (t_workflow_executor a) as [short_name object_dict].
      apply keeps_bind.
      { destruct (String.eqb short_name "client"); [apply keeps_raise | apply keeps_ret]. }
      intros _. apply keeps_bind; [apply keeps_emit|]. intros _.
      apply keeps_bind; [apply Hself|]. intros fut.
      apply keeps_bind; [apply keeps_lift|]. intros js.
      apply keeps_bind; [apply keeps_lift|]. intros id.
      apply keeps_bind; [apply keeps_lift|]. intros [sub|]; [|apply keeps_raise].
      apply keeps_bind; [apply keeps_now|]. intros end_time.
      destruct (bool_decide _); apply keeps_ret.
    + apply keeps_bind; [apply keeps_lift|]. intros [[output stdout] stderr].
      apply keeps_bind; [apply keeps_now|]. intros end_time. apply keeps_ret.
  - intros ex. apply keeps_bind; [apply keeps_now|]. intros end_time.
    apply keeps_ret.
Qed.

Lemma run_task_keeps {C} (f : Result → C) (a : task_args) :
  keeps f (_run_task env a).
Proof.
  unfold _run_task. apply run_task_with_keeps. intros b.
  apply run_task_with_keeps. intros c. apply keeps_raise.
Qed.

Lemma complete_job_keeps_result (job : task_args) :
  keeps _result (complete_job env job).
Proof.
  unfold complete_job. apply keeps_try; [|intros _; apply keeps_ret].
  apply keeps_bind; [apply run_task_keeps|].
  intros nr. apply update_node_result_keeps_result.
Qed.

Lemma wait_keeps_result (jobs : list task_args) : keeps _result (wait env jobs).
Proof. apply keeps_for_each, complete_job_keeps_result. Qed.

Lemma submit_node_keeps_result (node_id : Z) :
  keeps _result (submit_node env node_id).
Proof.
  unfold submit_node. apply keeps_modify. intros r w <-.
  unfold update_node_result. unfold_monad. simpl.
  repeat match goal with
         | |- context [match ?c with Ok _ => _ | Raise _ => _ end] =>
             destruct c eqn:?; simpl; try done
         | |- context [if ?b then _ else _] => destruct b eqn:?; simpl; try done
         | |- context [let '(_, _) := ?p in _] => destruct p; simpl; try done
         end;
    by eapply update_node_keeps_result.
Qed.

Lemma submit_wave_keeps_result (nodes : list Z) :
  keeps _result (submit_wave env nodes).
Proof.
  induction nodes as [|n nodes IH]; simpl; [apply keeps_ret|].
  apply keeps_bind; [apply submit_node_keeps_result|]. intros job.
  apply keeps_bind; [apply IH|]. intros jobs. apply keeps_ret.
Qed.

Lemma check_wave_keeps_result (nodes : list Z) :
  keeps _result (check_wave env nodes).
Proof.
  induction nodes as [|n nodes IH]; simpl; [apply keeps_ret|].
  apply keeps_modify. intros r w <-. unfold_monad.
  destruct (get_node_value (graph_of (result_object w)) n n_status)
    as [st|] eqn:Est; simpl; [|done].
  destruct (bool_decide (st = Result_.FAILED)).
  { repeat match goal with
           | |- context [match ?c with Ok _ => _ | Raise _ => _ end] =>
               destruct c eqn:?; simpl; try done
           end. }
  destruct (bool_decide (st = Result_.CANCELLED)); simpl; [done|].
  apply IH.
Qed.

Lemma run_layers_keeps_result (order : list (list Z)) :
  keeps _result (run_layers env order).
Proof.
  induction order as [|nodes order IH]; simpl; [apply keeps_ret|].
  apply keeps_bind; [apply submit_wave_keeps_result|]. intros jobs.
  apply keeps_bind; [apply wait_keeps_result|]. intros _.
  apply keeps_bind; [apply check_wave_keeps_result|].
  intros [|]; [apply keeps_ret | apply IH].
Qed.

End FrameFacts.

Section SubmissionFacts.

Variable env : Env.

Implicit Types (w : World) (S : Z → Prop).

Lemma submits_weaken {A} S S' (c : M A) :
  (∀ id, S id → S' id) → submits_within S c → submits_within S' c.
Proof.
  intros Hsub Hc w. destruct (Hc w) as (evs & Hlog & Hin).
  exists evs. split; [done|]. intros id name H. by eapply Hsub, Hin.
Qed.

Lemma submits_silent {A} S (c : M A) :
  (∀ w, log (c w).2 = log w) → submits_within S c.
Proof.
  intros Hc w. exists []. rewrite app_nil_r. split; [apply Hc|].
  intros id name H. by apply elem_of_nil in H.
Qed.

Lemma submits_ret {A} S (a : A) : submits_within S (mret a : M A).
Proof. by apply submits_silent. Qed.

Lemma submits_lift {A} S (o : outcome A) : submits_within S (lift o).
Proof. by apply submits_silent. Qed.

Lemma submits_raise {A} S (e : exn) : submits_within S (raise e : M A).
Proof. by apply submits_silent. Qed.

Lemma submits_now S : submits_within S (now env).
Proof. by apply submits_silent. Qed.

Lemma submits_get S : submits_within S get_result.
Proof. by apply submits_silent. Qed.

Lemma submits_set S (r : Result) : submits_within S (set_result r).
Proof. by apply submits_silent. Qed.

Lemma submits_bind {A B} S (c : M A) (k : A → M B) :
  submits_within S c → (∀ a, submits_within S (k a)) →
  submits_within S (c ≫= k).
Proof.
  intros Hc Hk w. unfold mbind, M_bind.
  destruct (Hc w) as (evs1 & Hlog1 & Hin1).
  destruct (c w) as [[a|e] w']; simpl in *; [|by exists evs1].
  destruct (Hk a w') as (evs2 & Hlog2 & Hin2).
  exists (evs1 ++ evs2). split; [by rewrite Hlog2, Hlog1, app_assoc|].
  intros id name H. apply elem_of_app in H as [H|H]; eauto.
Qed.

Lemma submits_try {A} S (c : M A) (h : exn → M A) :
  submits_within S c → (∀ e, submits_within S (h e)) →
  submits_within S (try_except c h).
Proof.
  intros Hc Hh w. unfold try_except.
  destruct (Hc w) as (evs1 & Hlog1 & Hin1).
  destruct (c w) as [[a|e] w']; simpl in *; [by exists evs1|].
  destruct (Hh e w') as (evs2 & Hlog2 & Hin2).
  exists (evs1 ++ evs2). split; [by rewrite Hlog2, Hlog1, app_assoc|].
  intros id name H. apply elem_of_app in H as [H|H]; eauto.
Qed.

Lemma submits_modify S (f : Result → Result) : submits_within S (modify_result f).
Proof. by apply submits_silent. Qed.

Lemma submits_emit_submit S (id : Z) (name : string) :
  S id → submits_within S (emit (ESubmit id name)).
Proof.
  intros HS w. exists [ESubmit id name]. split; [done|].
  intros id' name' H. apply list_elem_of_singleton in H. by injection H as -> _.
Qed.

Lemma submits_emit_other S (e : Event) :
  is_submit e = false → submits_within S (emit e).
Proof.
  intros He w. exists [e]. split; [done|].
  intros id name H. apply list_elem_of_singleton in H. by subst e.
Qed.

Lemma submits_for_each {A} S (body : A → M unit) (xs : list A) :
  (∀ x, submits_within S (body x)) → submits_within S (for_each body xs).
Proof.
  intros Hbody. induction xs as [|x xs IH]; simpl.
  - apply submits_ret.
  - apply submits_bind; [apply Hbody | intros _; apply IH].
Qed.

Lemma submits_persist S (b : bool) : submits_within S (persist_and_notify b).
Proof.
  unfold persist_and_notify.
  apply submits_bind; [apply submits_get|]. intros r.
  apply submits_bind; [by apply submits_emit_other|]. intros _.
  apply submits_bind; [by apply submits_emit_other|]. intros _.
  by apply submits_emit_other.
Qed.

Lemma submits_update_node_result S (nr : node_result) :
  submits_within S (update_node_result nr).
Proof.
  unfold update_node_result.
  apply submits_bind; [apply submits_get|]. intros r.
  apply submits_bind; [apply submits_lift|]. intros r'.
  apply submits_bind; [apply submits_set|]. intros _.
  apply submits_persist.
Qed.

(** What a job submits while it runs: at most the dispatch of a
    sublattice, under the node id -1. *)
Lemma submits_run_task_with S (self : task_args → M node_result)
    (a : task_args) :
  S (-1)%Z → (∀ b, submits_within S (self b)) →
  submits_within S (_run_task_with env self a).
Proof.
  intros HS Hself. unfold _run_task_with.
  apply submits_bind; [apply submits_lift|]. intros executor.
  apply submits_try.
  - destruct (startswith (t_node_name a) sublattice_prefix).
    + destruct (t_workflow_executor a) as [short_name object_dict].
      apply submits_bind.
      { destruct (String.eqb short_name "client");
          [apply submits_raise | apply submits_ret]. }
      intros _. apply submits_bind; [by apply submits_emit_submit|]. intros _.
      apply submits_bind; [apply Hself|]. intros fut.
      apply submits_bind; [apply submits_lift|]. intros js.
      apply submits_bind; [apply submits_lift|]. intros id.
      apply submits_bind; [apply submits_lift|].
      intros [sub|]; [|apply submits_raise].
      apply submits_bind; [apply submits_now|]. intros end_time.
      destruct (bool_decide _); apply submits_ret.
    + apply submits_bind; [apply submits_lift|]. intros [[output stdout] stderr].
      apply submits_bind; [apply submits_now|]. intros end_time.
      apply submits_ret.
  - intros ex. apply submits_bind; [apply submits_now|]. intros end_time.
    apply submits_ret.
Qed.

Lemma submits_run_task S (a : task_args) :
  S (-1)%Z → submits_within S (_run_task env a).
Proof.
  intros HS. unfold _run_task. apply submits_run_task_with; [done|]. intros b.
  apply submits_run_task_with; [done|]. intros c. apply submits_raise.
Qed.

Lemma submits_wait S (jobs : list task_args) :
  S (-1)%Z → submits_within S (wait env jobs).
Proof.
  intros HS. apply submits_for_each. intros job. unfold complete_job.
  apply submits_try; [|intros _; apply submits_ret].
  apply submits_bind; [by apply submits_run_task|].
  intros nr. apply submits_update_node_result.
Qed.

(** One iteration of the inner loop submits at most its own node. *)
Lemma submits_submit_node S (node_id : Z) :
  S node_id → submits_within S (submit_node env node_id).
Proof.
  intros HS. unfold submit_node.
  apply submits_bind; [apply submits_get|]. intros r.
  apply submits_bind; [apply submits_lift|]. intros node_name.
  destruct (is_inline node_name).
  - apply submits_bind; [apply submits_lift|]. intros output.
    apply submits_bind; [apply submits_now|]. intros start_time.
    apply submits_bind; [apply submits_now|]. intros end_time.
    apply submits_bind; [apply submits_lift|]. intros r'.
    apply submits_bind; [apply submits_set|]. intros _. apply submits_ret.
  - apply submits_bind; [apply submits_lift|]. intros task_input.
    apply submits_bind; [apply submits_now|]. intros start_time.
    apply submits_bind; [apply submits_lift|]. intros serialized_callable.
    apply submits_bind; [apply submits_lift|]. intros md.
    apply submits_bind; [apply submits_lift|]. intros selected_executor.
    apply submits_bind; [apply submits_lift|]. intros selected_executor_data.
    apply submits_bind; [apply submits_lift|]. intros [call_before call_after].
    apply submits_bind; [apply submits_update_node_result|]. intros _.
    apply submits_bind; [by apply submits_emit_submit|]. intros _.
    apply submits_ret.
Qed.

Lemma submits_submit_wave S (nodes : list Z) :
  (∀ n, n ∈ nodes → S n) → submits_within S (submit_wave env nodes).
Proof.
  induction nodes as [|n nodes IH]; intros HS; simpl; [apply submits_ret|].
  apply submits_bind.
  { apply submits_submit_node, HS, list_elem_of_here. }
  intros job. apply submits_bind; [|intros jobs; apply submits_ret].
  apply IH. intros m Hm. apply HS. by apply list_elem_of_further.
Qed.

(** The check of a wave submits nothing. *)
Lemma submits_check_wave S (nodes : list Z) :
  submits_within S (check_wave env nodes).
Proof.
  induction nodes as [|n nodes IH]; simpl; [apply submits_ret|].
  apply submits_bind; [apply submits_get|]. intros r.
  apply submits_bind; [apply submits_lift|]. intros status.
  destruct (bool_decide (status = Result_.FAILED)).
  { apply submits_bind; [apply submits_now|]. intros end_time.
    apply submits_bind; [apply submits_lift|]. intros name.
    apply submits_bind; [apply submits_lift|]. intros error.
    apply submits_bind; [apply submits_set|]. intros _.
    apply submits_bind; [apply submits_persist|]. intros _. apply submits_ret. }
  destruct (bool_decide (status = Result_.CANCELLED)); [|apply IH].
  apply submits_bind; [apply submits_now|]. intros end_time.
  apply submits_bind; [apply submits_set|]. intros _.
  apply submits_bind; [apply submits_persist|]. intros _. apply submits_ret.
Qed.

(** The loop over the layers submits nodes of these layers only (and the
    dispatches of their sublattices, under the node id -1). *)
Lemma submits_run_layers (order : list (list Z)) :
  submits_within (fun id => id = (-1)%Z ∨ id ∈ concat order)
                 (run_layers env order).
Proof.
  induction order as [|nodes order IH]; simpl; [apply submits_ret|].
  apply submits_bind.
  { apply submits_submit_wave. intros n Hn. right.
    apply elem_of_app. by left. }
  intros jobs. apply submits_bind; [apply submits_wait; by left|]. intros _.
  apply submits_bind; [apply submits_check_wave|].
  intros [|]; [apply submits_ret|].
  eapply submits_weaken; [|apply IH].
  intros id [->|H]; [by left|]. right. apply elem_of_app. by right.
Qed.

End SubmissionFacts.

Section WaveFacts.

Variable env : Env.

Implicit Types (w : World) (r : Result) (nd : Node).

(** Waiting for a wave always returns: what a job or its callback raises
    stays in the pool. *)
Lemma complete_job_returns (job : task_args) w :
  (complete_job env job w).1 = Ok tt.
Proof.
  unfold complete_job, try_except.
  match goal with
  | |- context [match ?c with (_, _) => _ end] => by destruct c as [[[]|e] w']
  end.
Qed.

Lemma wait_returns (jobs : list task_args) w : (wait env jobs w).1 = Ok tt.
Proof.
  unfold wait. revert w. induction jobs as [|job jobs IH]; intros w; simpl; [done|].
  unfold mbind, M_bind. pose proof (complete_job_returns job w) as H.
  destruct (complete_job env job w) as [[[]|e] w']; simpl in H; [|discriminate].
  apply IH.
Qed.


Lemma node_value_known (g : TransportGraph) (n : Z) nd {A} (attr : Node → A) :
  g_nodes g !! n = Some nd → get_node_value g n attr = Ok (attr nd).
Proof. intros H. unfold get_node_value. by rewrite (get_node_known _ _ _ H). Qed.

(** The check of a wave passes over the nodes that are neither failed nor
    cancelled. *)
Lemma check_wave_skips (passed rest : list Z) w :
  (∀ m, m ∈ passed → node_status_is (result_object w) m not_terminal) →
  check_wave env (passed ++ rest) w = check_wave env rest w.
Proof.
  induction passed as [|m passed IH]; intros Hpassed; simpl; [done|].
  destruct (Hpassed m) as (nd & Hnd & Hnf & Hnc); [apply list_elem_of_here|].
  unfold_monad. rewrite (node_value_known _ _ _ _ Hnd). simpl.
  rewrite bool_decide_eq_false_2 by done.
  rewrite bool_decide_eq_false_2 by done.
  apply IH. intros m' Hm'. apply Hpassed. by apply list_elem_of_further.
Qed.





(** C7. When the workflow executor is ["client"] and every wave has
    passed, the scheduler sets the status [PENDING_POSTPROCESSING] and the
    end time, persists and notifies, and returns; the [_result] field is
    the one the Result had at the start, and nothing is submitted after the
    waves: the three persistence events are all that is appended to the
    log. *)
Theorem client_postprocessing_is_left_pending w w1 :
  let r0 := result_object w in
  let started :=
    mkWorld (set_start_time (set_status r0 Result_.RUNNING) (clock env (ticks w)))
            (S (ticks w)) (log w) in
  workflow_executor (lattice r0) = "client" →
  run_layers env (get_topologically_sorted_graph env (graph_of r0)) started
    = (Ok false, w1) →
  let r := set_end_time
             (set_status (result_object w1) Result_.PENDING_POSTPROCESSING)
             (clock env (ticks w1)) in
  _run_planned_workflow env w
    = (Ok r, mkWorld r (S (ticks w1)) (log w1 ++ persist_events r false))
  ∧ _status r = Result_.PENDING_POSTPROCESSING
  ∧ _end_time r = Some (clock env (ticks w1))
  ∧ _result r = _result r0.
Proof.
  intros r0 started Hclient Hlayers r.
  split; [|split; [done|split; [done|]]].
  - unfold _run_planned_workflow, post_process_phase, persist_and_notify.
    unfold_monad. simpl. fold r0. fold started.
    change (graph_of (set_start_time (set_status r0 Result_.RUNNING)
                        (clock env (ticks w)))) with (graph_of r0).
    rewrite Hlayers. simpl. rewrite Hclient. simpl.
    unfold persist_events. by rewrite <- !app_assoc.
  - pose proof (run_layers_keeps_result env
                  (get_topologically_sorted_graph env (graph_of r0)) started) as H.
    rewrite Hlayers in H. simpl in H. exact H.
Qed.


End WaveFacts.

(* ===================================================================== *)
(** * Runs of the sample workflows *)
(* ===================================================================== *)



(** The third task of the failing workflow is never submitted, and the
    node that failed keeps its error. *)
Lemma failing_workflow_submissions :
  ∃ r w',
    _run_planned_workflow (Sample.sample_env Sample.failing_order None)
      (Sample.world_of (Sample.result_on Sample.failing_graph "local"))
    = (Ok r, w')
    ∧ List.filter is_submit (log w') = [ESubmit 1 "reciprocal"]
    ∧ n_status <$> (g_nodes (graph_of r) !! 2%Z) = Some Result_.NEW_OBJ.
Proof.
  eexists _, _. split; [vm_compute; reflexivity|].
  split; vm_compute; reflexivity.
Qed.

(** In a wave whose first node is cancelled and whose second node is
    failed, the cancelled node decides: the workflow is [CANCELLED] and
    has no error. *)
Lemma cancelled_node_before_failed_node :
  ∃ w',
    check_wave (Sample.sample_env [] None) [1%Z; 2%Z]
      (Sample.world_of (Sample.result_on Sample.mixed_graph "local"))
    = (Ok true, w')
    ∧ _status (result_object w') = Result_.CANCELLED
    ∧ _error (result_object w') = None.
Proof. eexists. split; [vm_compute; reflexivity|]. by split. Qed.

Lemma client_postprocessing_is_left_pending_witness :
  ∃ r w',
    _run_planned_workflow (Sample.sample_env Sample.identity_order None)
      (Sample.world_of (Sample.result_on Sample.identity_graph "client"))
    = (Ok r, w')
    ∧ _status r = Result_.PENDING_POSTPROCESSING
    ∧ _result r = PNone
    ∧ List.filter is_submit (log w') = [ESubmit 1 "identity"].
Proof.
  epose proof (client_postprocessing_is_left_pending
                 (Sample.sample_env Sample.identity_order None)
                 (Sample.world_of (Sample.result_on Sample.identity_graph "client"))
                 _) as H.
  destruct H as (Hrun & Hst & _ & Hres); [reflexivity | vm_compute; reflexivity |].
  eexists _, _. split; [exact Hrun|]. split; [exact Hst|].
  split; [exact Hres|]. vm_compute. reflexivity.
Defined.

(** The task of the same workflow is [COMPLETED] with the value of the
    parameter. *)
Lemma client_workflow_nodes_completed :
  ∃ r w',
    _run_planned_workflow (Sample.sample_env Sample.identity_order None)
      (Sample.world_of (Sample.result_on Sample.identity_graph "client"))
    = (Ok r, w')
    ∧ n_status <$> (g_nodes (graph_of r) !! 0%Z) = Some Result_.COMPLETED
    ∧ n_status <$> (g_nodes (graph_of r) !! 1%Z) = Some Result_.COMPLETED
    ∧ n_output <$> (g_nodes (graph_of r) !! 1%Z) = Some (PTransportable (PInt 7)).
Proof.
  eexists _, _. split; [vm_compute; reflexivity|].
  repeat split; vm_compute; reflexivity.
Qed.

(** With a workflow executor that runs here, the same workflow is
    post-processed and [COMPLETED]. *)
Lemma local_workflow_completed :
  ∃ r w',
    _run_planned_workflow (Sample.sample_env Sample.identity_order None)
      (Sample.world_of (Sample.result_on Sample.identity_graph "local"))
    = (Ok r, w')
    ∧ _status r = Result_.COMPLETED
    ∧ _result r = PTransportable (PInt 12)
    ∧ List.filter is_submit (log w')
      = [ESubmit 1 "identity"; ESubmit (-1) "post_process"].
Proof.
  eexists _, _. split; [vm_compute; reflexivity|].
  repeat split; vm_compute; reflexivity.
Qed.


(** A task whose executor is not registered stays [RUNNING]: its job
    raised, so no node result was merged, and the wave passes its check. *)
Lemma unresolved_executor_leaves_node_running :
  let g := mkGraph
             (<[0%Z := Sample.task_node "identity" "identity"
                         (mkMetadata (Some "slurm") (Some (PDict ∅))
                            (Some (mkDeps None None)) (Some []) (Some []))]> ∅)
             [] in
  ∃ w',
    run_layers (Sample.sample_env [[0%Z]] None) [[0%Z]]
      (Sample.world_of (Sample.result_on g "client"))
    = (Ok false, w')
    ∧ n_status <$> (g_nodes (graph_of (result_object w')) !! 0%Z)
      = Some Result_.RUNNING.
Proof.
  eexists. split; [vm_compute; reflexivity|]. vm_compute. reflexivity.
Qed.

(* ===================================================================== *)
(** * Further properties of task-input assembly *)
(* ===================================================================== *)

Section MoreInputFacts.

Implicit Types (g : TransportGraph) (r : Result) (ti : task_input).

Lemma first_occurrences_covers (seen l : list Z) (x : Z) :
  x ∈ l → x ∈ seen ∨ x ∈ first_occurrences seen l.
Proof.
  revert seen. induction l as [|y l IH]; intros seen Hx; simpl.
  - by apply elem_of_nil in Hx.
  - apply elem_of_cons in Hx as [->|Hx].
    + destruct (bool_decide (y ∈ seen)) eqn:E.
      * left. by apply bool_decide_eq_true in E.
      * right. apply list_elem_of_here.
    + destruct (bool_decide (y ∈ seen)).
      * by apply IH.
      * destruct (IH (y :: seen) Hx) as [H|H].
        -- apply elem_of_cons in H as [->|H]; [right; apply list_elem_of_here|by left].
        -- right. by apply list_elem_of_further.
Qed.

(** The parent of an edge into a node is one of its dependencies. *)
Lemma edge_parent_is_dependency g (n : Z) (d : Edge) :
  d ∈ g_edges g → e_child d = n → e_parent d ∈ get_dependencies g n.
Proof.
  intros Hd Hc. unfold get_dependencies.
  destruct (first_occurrences_covers [] (e_parent <$> List.filter (edge_into n) (g_edges g))
              (e_parent d)) as [H|H]; [|by apply elem_of_nil in H|done].
  apply list_elem_of_fmap. exists d. split; [done|].
  apply list_elem_of_In, List.filter_In. split; [by apply list_elem_of_In|].
  unfold edge_into. by apply Z.eqb_eq.
Qed.

Lemma fold_bind_edge_args (v : pyval) (ds : list Edge) ti :
  args (fold_left (bind_edge v) ds ti)
  = args ti ++ ((fun _ => v) <$>
                List.filter (fun d => String.eqb (param_type d) "arg") ds).
Proof.
  revert ti. induction ds as [|d ds IH]; intros ti; simpl.
  - by rewrite app_nil_r.
  - rewrite IH. unfold bind_edge.
    destruct (String.eqb (param_type d) "arg"); simpl.
    + by rewrite <- app_assoc.
    + by destruct (String.eqb (param_type d) "kwarg").
Qed.

Lemma regular_loop_args g (n : Z) (ps : list Z) :
  ∀ ti ti',
    ofold (fun ti parent =>
             value ← get_node_value g parent n_output;
             Ok (fold_left (bind_edge value) (get_edge_data g parent n) ti))
          ti ps = Ok ti' →
    args ti'
    = args ti ++
      flat_map (fun p =>
                  (fun _ => output_of g p) <$>
                  List.filter (fun d => String.eqb (param_type d) "arg")
                              (get_edge_data g p n)) ps.
Proof.
  induction ps as [|p ps IH]; intros ti ti' Hrun; simpl in Hrun.
  - injection Hrun as <-. simpl. by rewrite app_nil_r.
  - unfold get_node_value, get_node in Hrun.
    destruct (g_nodes g !! p) as [nd|] eqn:Hp; simpl in Hrun; [|discriminate].
    rewrite (IH _ _ Hrun), fold_bind_edge_args. simpl.
    assert (n_output nd = output_of g p) as -> by (unfold output_of; by rewrite Hp).
    by rewrite <- app_assoc.
Qed.

(** X1. In the regular branch the positional arguments are the parents'
    outputs taken parent by parent, in the order of [get_dependencies],
    with one copy per ["arg"] edge of that parent: all the edges of one
    parent stay together, and [arg_index] is not consulted. *)
Theorem regular_args_grouped_by_parent r (node_id : Z) (node_name : string) ti :
  let g := transport_graph (lattice r) in
  startswith node_name electron_list_prefix = false →
  startswith node_name electron_dict_prefix = false →
  _get_task_inputs node_id node_name r = Ok ti →
  args ti
  = flat_map (fun p =>
                (fun _ => output_of g p) <$>
                List.filter (fun d => String.eqb (param_type d) "arg")
                            (get_edge_data g p node_id))
             (get_dependencies g node_id).
Proof.
  intros g Hl Hd. unfold _get_task_inputs. rewrite Hl, Hd. fold g.
  intros Hrun. by rewrite (regular_loop_args _ _ _ _ _ Hrun).
Qed.





(** What the dict-collection loop keeps true of the dictionary it builds,
    for the parents [ps] it has gone through. *)
Lemma fold_dict_bind_edge (v : pyval) (ds : list Edge) (values : gmap string pyval) :
  ∀ k, fold_left (dict_bind_edge v) ds values !! k
       = if bool_decide (k ∈ edge_name <$> ds) then Some v else values !! k.
Proof.
  revert values. induction ds as [|d ds IH]; intros values k; simpl; [done|].
  rewrite IH. unfold dict_bind_edge.
  destruct (decide (k ∈ edge_name <$> ds)) as [Hin|Hnin].
  - rewrite bool_decide_eq_true_2 by done.
    rewrite bool_decide_eq_true_2; [done|]. by apply list_elem_of_further.
  - rewrite bool_decide_eq_false_2 by done.
    destruct (decide (edge_name d = k)) as [<-|Hne].
    + rewrite lookup_insert_eq.
      rewrite bool_decide_eq_true_2; [done|]. apply list_elem_of_here.
    + rewrite lookup_insert_ne by done.
      rewrite bool_decide_eq_false_2; [done|].
      intros H. apply elem_of_cons in H as [H|H]; [congruence|contradiction].
Qed.

Lemma dict_loop_entries g (n : Z) (ps : list Z) :
  (∀ p, p ∈ ps → is_Some (g_nodes g !! p)) →
  ∀ acc, ∃ values,
    ofold (fun values parent =>
             let edge_data := get_edge_data g parent n in
             value ← get_node_value g parent n_output;
             Ok (fold_left (dict_bind_edge value) edge_data values))
          acc ps = Ok values
    ∧ (∀ k, is_Some (acc !! k) → is_Some (values !! k))
    ∧ (∀ p d, p ∈ ps → d ∈ get_edge_data g p n →
              is_Some (values !! edge_name d))
    ∧ (∀ k v, values !! k = Some v →
              acc !! k = Some v
              ∨ ∃ p d, p ∈ ps ∧ d ∈ get_edge_data g p n ∧ edge_name d = k
                       ∧ v = output_of g p).
Proof.
  induction ps as [|p ps IH]; intros Hall acc; simpl.
  - exists acc. split; [done|]. split; [done|]. split.
    + intros p d Hp. by apply elem_of_nil in Hp.
    + intros k v Hk. by left.
  - rewrite get_output_known by (apply Hall, list_elem_of_here). simpl.
    set (acc' := fold_left (dict_bind_edge (output_of g p))
                           (get_edge_data g p n) acc).
    destruct (IH (fun q Hq => Hall q (list_elem_of_further _ _ _ Hq)) acc')
      as (values & Hrun & Hkeep & Hnew & Hfrom).
    assert (Hacc' : ∀ k, acc' !! k
                         = if bool_decide (k ∈ edge_name <$> get_edge_data g p n)
                           then Some (output_of g p) else acc !! k)
      by apply fold_dict_bind_edge.
    exists values. split; [done|]. split; [|split].
    + intros k Hk. apply Hkeep. rewrite Hacc'. by destruct (bool_decide _).
    + intros q d Hq Hd. apply elem_of_cons in Hq as [->|Hq]; [|by eapply Hnew].
      apply Hkeep. rewrite Hacc'. rewrite bool_decide_eq_true_2; [done|].
      apply list_elem_of_fmap. by exists d.
    + intros k v Hk. destruct (Hfrom k v Hk) as [H|(q & d & Hq & Hd & Hn & Hv)].
      * rewrite Hacc' in H.
        destruct (decide (k ∈ edge_name <$> get_edge_data g p n)) as [Hin|Hnin].
        -- rewrite bool_decide_eq_true_2 in H by done. injection H as <-.
           apply list_elem_of_fmap in Hin as (d & -> & Hd).
           right. exists p, d. split; [apply list_elem_of_here|done].
        -- rewrite bool_decide_eq_false_2 in H by done. by left.
      * right. exists q, d. split; [by apply list_elem_of_further|done].
Qed.

(** X3. For a dict-collection node whose parents are all nodes of the
    graph, input assembly returns no positional argument and the single
    keyword argument ["x"], one transportable around a dictionary that has
    an entry for the edge name of every edge into the node, whatever its
    [param_type], and no other entry; the value under a name is the output
    of the parent of an edge of that name. *)
Theorem dict_collection_entries r (node_id : Z) (node_name : string) :
  let g := transport_graph (lattice r) in
  startswith node_name electron_list_prefix = false →
  startswith node_name electron_dict_prefix = true →
  (∀ p, p ∈ get_dependencies g node_id → is_Some (g_nodes g !! p)) →
  ∃ values,
    _get_task_inputs node_id node_name r
      = Ok (mkInput [] {[ "x" := make_transportable (PDict values) ]})
    ∧ (∀ d, d ∈ g_edges g → e_child d = node_id →
            is_Some (values !! edge_name d))
    ∧ (∀ k v, values !! k = Some v →
              ∃ d, d ∈ g_edges g ∧ e_child d = node_id ∧ edge_name d = k
                   ∧ v = output_of g (e_parent d)).
Proof.
  intros g Hl Hd Hall. unfold _get_task_inputs. rewrite Hl, Hd. fold g.
  destruct (dict_loop_entries g node_id _ Hall ∅)
    as (values & Hrun & _ & Hnew & Hfrom).
  exists values. simpl in Hrun. rewrite Hrun. split; [done|]. split.
  - intros d Hin Hc. apply (Hnew (e_parent d)).
    + by apply edge_parent_is_dependency.
    + by apply edge_data_spec.
  - intros k v Hk. destruct (Hfrom k v Hk) as [H|(p & d & _ & Hdd & Hn & Hv)];
      [by rewrite lookup_empty in H|].
    apply edge_data_spec in Hdd as (Hin & Hp & Hc).
    exists d. by rewrite Hp.
Qed.

End MoreInputFacts.

Lemma regular_args_grouped_by_parent_witness :
  ∃ ti,
    _get_task_inputs 2 "f" (Sample.result_on Sample.repeated_arg_graph "local")
      = Ok ti
    ∧ args ti = [PInt 1; PInt 1; PInt 2].
Proof.
  eexists. split; [vm_compute; reflexivity|].
  apply (regular_args_grouped_by_parent
           (Sample.result_on Sample.repeated_arg_graph "local") 2 "f");
    reflexivity.
Defined.


Lemma dict_collection_entries_witness :
  ∃ values,
    _get_task_inputs 2 ":electron_dict:"
      (Sample.result_on Sample.dict_graph "local")
    = Ok (mkInput [] {[ "x" := make_transportable (PDict values) ]})
    ∧ is_Some (values !! WAIT_EDGE_NAME)
    ∧ is_Some (values !! "k").
Proof.
  destruct (dict_collection_entries
              (Sample.result_on Sample.dict_graph "local") 2 ":electron_dict:")
    as (values & Hrun & Hall & _); [reflexivity | reflexivity | |].
  - intros p Hp. vm_compute in Hp.
    apply elem_of_cons in Hp as [->|Hp]; [by eexists|].
    apply list_elem_of_singleton in Hp as ->. by eexists.
  - exists values. split; [exact Hrun|]. split.
    + apply (Hall (Sample.wait_edge 1 2)); [|reflexivity].
      apply list_elem_of_further, list_elem_of_here.
    + apply (Hall (Sample.kwarg_edge 0 2 "k")); [|reflexivity].
      apply list_elem_of_here.
Defined.

(* ===================================================================== *)
(** * Further properties of the task runner *)
(* ===================================================================== *)

Section MoreTaskRunnerFacts.

Variable env : Env.

Implicit Types (a : task_args) (w : World).

(** X4. A task that is not a sublattice, on an executor that resolves:
    [_run_task] does not raise. When [execute] returns, the node result is
    [COMPLETED] with the output, stdout and stderr of the executor and no
    error; when [execute] raises, the node result is [FAILED], its error is
    the formatted traceback of the exception and it has no output, stdout
    or stderr. In both cases the end time is the clock reading taken after
    the call, there is no start time, the Result is untouched and nothing
    is submitted. *)
Theorem run_task_plain_outcome a w (executor : Executor) :
  startswith (t_node_name a) sublattice_prefix = false →
  resolve_executor env (t_selected_executor a) = Ok executor →
  let call :=
    execute executor (t_serialized_callable a) (args (t_inputs a))
      (kwargs (t_inputs a)) (t_call_before a) (t_call_after a)
      (t_dispatch_id a) (t_results_dir a) (t_node_id a) in
  (∀ output stdout stderr,
     call = Ok (output, stdout, stderr) →
     _run_task env a w
     = (Ok (mkNodeResult (t_node_id a) None (Some (clock env (ticks w)))
              (Some Result_.COMPLETED) output None (Some stdout)
              (Some stderr) None),
        mkWorld (result_object w) (S (ticks w)) (log w)))
  ∧ (∀ ex,
       call = Raise ex →
       _run_task env a w
       = (Ok (mkNodeResult (t_node_id a) None (Some (clock env (ticks w)))
                (Some Result_.FAILED) PNone (Some (format_exception env ex))
                None None None),
          mkWorld (result_object w) (S (ticks w)) (log w))).
Proof.
  intros Hname Hres call. subst call.
  split; [intros output stdout stderr Hexec | intros ex Hexec];
    rewrite _run_task_unfold; unfold _run_task_with; unfold_monad;
    by rewrite Hres, Hname, Hexec.
Qed.

(** X5. A sublattice node of a workflow whose workflow executor is
    ["client"]: no dispatch job is submitted (the log is unchanged) and the
    node result is [FAILED] with the formatted traceback of the
    [RuntimeError] "No executor selected for dispatching sublattices". *)
Theorem run_task_sublattice_without_executor a w (executor : Executor)
    (wf_data : pyval) :
  startswith (t_node_name a) sublattice_prefix = true →
  resolve_executor env (t_selected_executor a) = Ok executor →
  t_workflow_executor a = ("client", wf_data) →
  _run_task env a w
  = (Ok (mkNodeResult (t_node_id a) None (Some (clock env (ticks w)))
           (Some Result_.FAILED) PNone
           (Some (format_exception env
                    (RuntimeError
                       "No executor selected for dispatching sublattices")))
           None None None),
     mkWorld (result_object w) (S (ticks w)) (log w)).
Proof.
  intros Hname Hres Hwf. rewrite _run_task_unfold. unfold _run_task_with.
  unfold_monad. by rewrite Hres, Hname, Hwf.
Qed.

(** X6. A sublattice node whose workflow executor cannot be resolved: the
    dispatch job is submitted and raises, and the exception, which would
    leave [_run_task] if the node's own executor had failed to resolve, is
    turned into a [FAILED] node result with its formatted traceback. *)
Theorem run_task_sublattice_dispatch_unresolved a w (executor : Executor)
    (wf_name : string) (wf_data : pyval) (ex : exn) :
  startswith (t_node_name a) sublattice_prefix = true →
  resolve_executor env (t_selected_executor a) = Ok executor →
  t_workflow_executor a = (wf_name, wf_data) →
  wf_name ≠ "client" →
  resolve_executor env (wf_name, wf_data) = Raise ex →
  _run_task env a w
  = (Ok (mkNodeResult (t_node_id a) None (Some (clock env (ticks w)))
           (Some Result_.FAILED) PNone (Some (format_exception env ex))
           None None None),
     mkWorld (result_object w) (S (ticks w))
             (log w ++ [ESubmit (-1) "dispatch_sublattice"])).
Proof.
  intros Hname Hres Hwf Hclient Hfail.
  rewrite _run_task_unfold. unfold _run_task_with at 1. unfold_monad.
  rewrite Hres, Hname, Hwf.
  apply String.eqb_neq in Hclient. rewrite Hclient.
  rewrite _run_task_unfold. unfold _run_task_with. unfold_monad.
  cbn [t_selected_executor]. by rewrite Hfail.
Qed.

(** X7. A sublattice node whose sub-dispatch is registered with no Result
    (the future of the registry yields [None]): the node result is
    [FAILED] with the formatted traceback of the [RuntimeError]
    "Sublattice execution failed". *)
Theorem run_task_sublattice_without_result a w w1 (executor : Executor)
    (wf_name : string) (wf_data : pyval) (dispatched : node_result)
    (js : string) (id : pyval) :
  startswith (t_node_name a) sublattice_prefix = true →
  resolve_executor env (t_selected_executor a) = Ok executor →
  t_workflow_executor a = (wf_name, wf_data) →
  wf_name ≠ "client" →
  _run_task env
    (mkTask (-1) (t_dispatch_id a) (t_results_dir a)
       (mkInput (t_serialized_callable a :: args (t_inputs a))
                (kwargs (t_inputs a)))
       (make_transportable _dispatch) (wf_name, wf_data) [] []
       "dispatch_sublattice" (wf_name, wf_data))
    (mkWorld (result_object w) (ticks w)
             (log w ++ [ESubmit (-1) "dispatch_sublattice"]))
    = (Ok dispatched, w1) →
  transportable_json env (nr_output dispatched) = Ok js →
  json_loads env js = Ok id →
  futures env id = Ok None →
  _run_task env a w
  = (Ok (mkNodeResult (t_node_id a) None (Some (clock env (ticks w1)))
           (Some Result_.FAILED) PNone
           (Some (format_exception env
                    (RuntimeError "Sublattice execution failed")))
           None None None),
     mkWorld (result_object w1) (S (ticks w1)) (log w1)).
Proof.
  intros Hname Hres Hwf Hclient Hsub Hjs Hid Hfut.
  rewrite _run_task_unfold. unfold _run_task_with. unfold_monad.
  rewrite Hres, Hname, Hwf.
  apply String.eqb_neq in Hclient. rewrite Hclient.
  by rewrite Hsub, Hjs, Hid, Hfut.
Qed.

(** What [_run_task] returns once its executor is resolved. *)
Lemma run_task_outcome a w (executor : Executor) :
  resolve_executor env (t_selected_executor a) = Ok executor →
  ∃ nr w',
    _run_task env a w = (Ok nr, w')
    ∧ nr_node_id nr = t_node_id a
    ∧ is_Some (nr_end_time nr)
    ∧ nr_start_time nr = None
    ∧ (nr_status nr = Some Result_.COMPLETED ∧ nr_error nr = None
       ∨ nr_status nr = Some Result_.FAILED ∧ is_Some (nr_error nr)).
Proof.
  intros Hres. rewrite _run_task_unfold. unfold _run_task_with.
  unfold_monad. rewrite Hres.
  match goal with
  | |- context [match ?c with (_, _) => _ end] =>
      destruct c as [[nr|ex] w'] eqn:E
  end.
  - exists nr, w'. split; [done|].
    destruct (startswith (t_node_name a) sublattice_prefix).
    + destruct (t_workflow_executor a) as [n d].
      destruct (String.eqb n "client"); [discriminate|].
      repeat match type of E with
             | context [match ?c with (_, _) => _ end] =>
                 destruct c as [[?|?] ?]; try discriminate
             | context [match ?c with Ok _ => _ | Raise _ => _ end] =>
                 destruct c; try discriminate
             | context [match ?c with Some _ => _ | None => _ end] =>
                 destruct c; try discriminate
             | context [bool_decide ?P] => destruct (bool_decide P)
             end; injection E as <- <-; simpl; eauto 10.
    + repeat match type of E with
             | context [match ?c with Ok _ => _ | Raise _ => _ end] =>
                 destruct c as [[[? ?] ?]|?]; try discriminate
             end; injection E as <- <-; simpl; eauto 10.
  - eexists _, _. split; [reflexivity|]. simpl. eauto 10.
Qed.

(** X8. Once its executor is resolved, [_run_task] returns a node result
    for its own node and never raises; the result has an end time and no
    start time, and it is either [COMPLETED] without error or [FAILED]
    with an error: the task runner produces no other status. *)
Theorem run_task_result_shape a w (executor : Executor) :
  resolve_executor env (t_selected_executor a) = Ok executor →
  ∃ nr w',
    _run_task env a w = (Ok nr, w')
    ∧ nr_node_id nr = t_node_id a
    ∧ is_Some (nr_end_time nr)
    ∧ nr_start_time nr = None
    ∧ (nr_status nr = Some Result_.COMPLETED ∧ nr_error nr = None
       ∨ nr_status nr = Some Result_.FAILED ∧ is_Some (nr_error nr)).
Proof. apply run_task_outcome. Qed.

End MoreTaskRunnerFacts.

Lemma run_task_plain_outcome_witness :
  _run_task (Sample.sample_env [] None)
    (Sample.sample_task 1 "identity" "identity" "local"
       (mkInput [] {[ "x" := PInt 7 ]}))
    (Sample.world_of (Sample.result_on Sample.identity_graph "local"))
  = (Ok (mkNodeResult 1 None (Some (mkDatetime 0)) (Some Result_.COMPLETED)
           (PInt 7) None (Some "") (Some "") None),
     mkWorld (Sample.result_on Sample.identity_graph "local") 1 [])
  ∧ _run_task (Sample.sample_env [] None)
      (Sample.sample_task 1 "reciprocal" "reciprocal" "local"
         (mkInput [] {[ "x" := PInt 0 ]}))
      (Sample.world_of (Sample.result_on Sample.failing_graph "local"))
    = (Ok (mkNodeResult 1 None (Some (mkDatetime 0)) (Some Result_.FAILED)
             PNone (Some "ZeroDivisionError: division by zero") None None
             None),
       mkWorld (Sample.result_on Sample.failing_graph "local") 1 []).
Proof.
  split.
  - apply (proj1 (run_task_plain_outcome (Sample.sample_env [] None)
                    (Sample.sample_task 1 "identity" "identity" "local"
                       (mkInput [] {[ "x" := PInt 7 ]}))
                    (Sample.world_of
                       (Sample.result_on Sample.identity_graph "local"))
                    Sample.local_executor eq_refl eq_refl)).
    reflexivity.
  - apply (proj2 (run_task_plain_outcome (Sample.sample_env [] None)
                    (Sample.sample_task 1 "reciprocal" "reciprocal" "local"
                       (mkInput [] {[ "x" := PInt 0 ]}))
                    (Sample.world_of
                       (Sample.result_on Sample.failing_graph "local"))
                    Sample.local_executor eq_refl eq_refl)
             (mkExn "ZeroDivisionError" "division by zero")).
    reflexivity.
Defined.

Lemma run_task_sublattice_without_executor_witness :
  ∃ nr,
    _run_task (Sample.sample_env [] None)
      (mkTask 3 "dispatch-1" "/results" (mkInput [] ∅)
         (PTransportable (PObject "sub_ok")) ("local", PDict ∅) [] []
         ":sublattice:inner" ("client", PDict ∅))
      (Sample.world_of (Sample.result_on Sample.identity_graph "client"))
    = (Ok nr, mkWorld (Sample.result_on Sample.identity_graph "client") 1 [])
    ∧ nr_status nr = Some Result_.FAILED.
Proof.
  eexists. split.
  - apply (run_task_sublattice_without_executor (Sample.sample_env [] None)
             (mkTask 3 "dispatch-1" "/results" (mkInput [] ∅)
                (PTransportable (PObject "sub_ok")) ("local", PDict ∅) [] []
                ":sublattice:inner" ("client", PDict ∅))
             (Sample.world_of (Sample.result_on Sample.identity_graph "client"))
             Sample.local_executor (PDict ∅)); reflexivity.
  - reflexivity.
Defined.

Lemma run_task_sublattice_dispatch_unresolved_witness :
  ∃ nr w',
    _run_task (Sample.sample_env [] None)
      (mkTask 3 "dispatch-1" "/results" (mkInput [] ∅)
         (PTransportable (PObject "sub_ok")) ("local", PDict ∅) [] []
         ":sublattice:inner" ("slurm", PDict ∅))
      (Sample.world_of (Sample.result_on Sample.identity_graph "slurm"))
    = (Ok nr, w')
    ∧ nr_status nr = Some Result_.FAILED
    ∧ nr_error nr = Some "ValueError: unknown executor slurm"
    ∧ log w' = [ESubmit (-1) "dispatch_sublattice"].
Proof.
  eexists _, _. split.
  - apply (run_task_sublattice_dispatch_unresolved (Sample.sample_env [] None)
             (mkTask 3 "dispatch-1" "/results" (mkInput [] ∅)
                (PTransportable (PObject "sub_ok")) ("local", PDict ∅) [] []
                ":sublattice:inner" ("slurm", PDict ∅))
             (Sample.world_of (Sample.result_on Sample.identity_graph "slurm"))
             Sample.local_executor "slurm" (PDict ∅)
             (mkExn "ValueError" "unknown executor slurm"));
      [reflexivity | reflexivity | reflexivity | discriminate | reflexivity].
  - repeat split; reflexivity.
Defined.

Lemma run_task_sublattice_without_result_witness :
  ∃ nr w',
    _run_task (Sample.sample_env [] None)
      (Sample.sample_task 3 ":sublattice:inner" "sub_none" "local"
         (mkInput [] ∅))
      (Sample.world_of (Sample.result_on Sample.identity_graph "local"))
    = (Ok nr, w')
    ∧ nr_status nr = Some Result_.FAILED
    ∧ nr_error nr = Some "RuntimeError: Sublattice execution failed".
Proof.
  eexists _, _. split.
  - apply (run_task_sublattice_without_result (Sample.sample_env [] None)
             (Sample.sample_task 3 ":sublattice:inner" "sub_none" "local"
                (mkInput [] ∅))
             (Sample.world_of (Sample.result_on Sample.identity_graph "local"))
             (mkWorld (Sample.result_on Sample.identity_graph "local") 1
                      [ESubmit (-1) "dispatch_sublattice"])
             Sample.local_executor "local" (PDict ∅)
             (mkNodeResult (-1) None (Some (mkDatetime 0))
                (Some Result_.COMPLETED) (PTransportable (PStr "sub_none"))
                None (Some "") (Some "") None)
             "sub_none" (PStr "sub_none"));
      [reflexivity | reflexivity | reflexivity | discriminate | reflexivity
      | reflexivity | reflexivity | reflexivity].
  - split; reflexivity.
Defined.

Lemma run_task_result_shape_witness :
  ∃ nr w',
    _run_task (Sample.sample_env [] None)
      (Sample.sample_task 1 "identity" "identity" "local" (mkInput [] ∅))
      (Sample.world_of (Sample.result_on Sample.identity_graph "local"))
    = (Ok nr, w')
    ∧ nr_node_id nr = 1%Z
    ∧ is_Some (nr_end_time nr).
Proof.
  destruct (run_task_result_shape (Sample.sample_env [] None)
              (Sample.sample_task 1 "identity" "identity" "local" (mkInput [] ∅))
              (Sample.world_of (Sample.result_on Sample.identity_graph "local"))
              Sample.local_executor)
    as (nr & w' & Hrun & Hid & Hend & _); [reflexivity|].
  exists nr, w'. split; [exact Hrun|]. split; [exact Hid | exact Hend].
Defined.

(* ===================================================================== *)
(** * What the scheduler keeps: frame rules for the whole run *)
(* ===================================================================== *)


Section SchedulerFrame.

Variable env : Env.
Context {C : Type} (f : Result → C).
Hypothesis f_update : ∀ r nr r', _update_node r nr = Ok r' → f r' = f r.

Lemma keeps_get_result : keeps f get_result.
Proof. by intros w. Qed.

Lemma keeps_modify_result (g : Result → Result) :
  (∀ r, f (g r) = f r) → keeps f (modify_result g).
Proof. intros Hg w. apply Hg. Qed.

Lemma frame_update_node_result (nr : node_result) :
  keeps f (update_node_result nr).
Proof.
  intros w. unfold update_node_result. unfold_monad.
  destruct (_update_node (result_object w) nr) as [r'|e] eqn:E; simpl; [|done].
  by apply f_update in E.
Qed.

Lemma frame_complete_job (job : task_args) : keeps f (complete_job env job).
Proof.
  unfold complete_job. apply keeps_try; [|intros _; apply keeps_ret].
  apply keeps_bind; [apply run_task_keeps|].
  intros nr. apply frame_update_node_result.
Qed.

Lemma frame_wait (jobs : list task_args) : keeps f (wait env jobs).
Proof. apply keeps_for_each, frame_complete_job. Qed.

Lemma frame_submit_node (node_id : Z) : keeps f (submit_node env node_id).
Proof.
  unfold submit_node. apply keeps_modify. intros r w <-.
  unfold update_node_result. unfold_monad. simpl.
  repeat match goal with
         | |- context [match ?c with Ok _ => _ | Raise _ => _ end] =>
             destruct c eqn:?; simpl; try done
         | |- context [if ?b then _ else _] => destruct b eqn:?; simpl; try done
         | |- context [let '(_, _) := ?p in _] => destruct p; simpl; try done
         end;
    by eapply f_update.
Qed.

Lemma frame_submit_wave (nodes : list Z) : keeps f (submit_wave env nodes).
Proof.
  induction nodes as [|n nodes IH]; simpl; [apply keeps_ret|].
  apply keeps_bind; [apply frame_submit_node|]. intros job.
  apply keeps_bind; [apply IH|]. intros jobs. apply keeps_ret.
Qed.

Hypothesis f_status : ∀ r s, f (set_status r s) = f r.
Hypothesis f_end_time : ∀ r t, f (set_end_time r t) = f r.
Hypothesis f_error : ∀ r e, f (set_error r e) = f r.

Lemma frame_check_wave (nodes : list Z) : keeps f (check_wave env nodes).
Proof.
  induction nodes as [|n nodes IH]; simpl; [apply keeps_ret|].
  apply keeps_modify. intros r w <-. unfold_monad.
  destruct (get_node_value (graph_of (result_object w)) n n_status)
    as [st|] eqn:Est; simpl; [|done].
  destruct (bool_decide (st = Result_.FAILED)).
  { repeat match goal with
           | |- context [match ?c with Ok _ => _ | Raise _ => _ end] =>
               destruct c eqn:?; simpl; try done
           end.
    by rewrite f_error, f_end_time, f_status. }
  destruct (bool_decide (st = Result_.CANCELLED)); simpl;
    [by rewrite f_end_time, f_status|].
  apply IH.
Qed.

Lemma frame_run_layers (order : list (list Z)) : keeps f (run_layers env order).
Proof.
  induction order as [|nodes order IH]; simpl; [apply keeps_ret|].
  apply keeps_bind; [apply frame_submit_wave|]. intros jobs.
  apply keeps_bind; [apply frame_wait|]. intros _.
  apply keeps_bind; [apply frame_check_wave|].
  intros [|]; [apply keeps_ret | apply IH].
Qed.

Hypothesis f_result : ∀ r v, f (set__result r v) = f r.

Lemma frame_post_process_phase (order : list (list Z)) (pp : string)
    (pp_data : pyval) :
  keeps f (post_process_phase env order pp pp_data).
Proof.
  unfold post_process_phase.
  apply keeps_bind; [by apply keeps_modify_result|]. intros _.
  destruct (String.eqb pp "client").
  - apply keeps_bind; [apply keeps_now|]. intros t.
    apply keeps_bind; [|intros _; apply keeps_persist].
    apply keeps_modify_result. intros r. by rewrite f_end_time, f_status.
  - apply keeps_bind; [apply keeps_get_result|]. intros r.
    apply keeps_bind.
    + apply keeps_try.
      * apply keeps_bind; [apply keeps_emit|]. intros _.
        apply keeps_bind; [apply keeps_now|]. intros t.
        apply keeps_bind; [apply run_task_keeps|]. intros res. apply keeps_ret.
      * intros ex. apply keeps_bind; [apply keeps_now|]. intros t.
        apply keeps_bind.
        { apply keeps_modify_result. intros r1.
          by rewrite f_end_time, f_error, f_status. }
        intros _. apply keeps_bind; [apply keeps_persist|]. intros _.
        apply keeps_ret.
    + intros [res|]; [|apply keeps_ret].
      destruct (bool_decide _).
      * apply keeps_bind; [apply keeps_now|]. intros t.
        apply keeps_bind; [|intros _; apply keeps_persist].
        apply keeps_modify_result. intros r1.
        by rewrite f_end_time, f_error, f_status.
      * apply keeps_bind; [by apply keeps_modify_result|]. intros _.
        apply keeps_bind; [apply keeps_now|]. intros t.
        apply keeps_bind; [|intros _; apply keeps_persist].
        apply keeps_modify_result. intros r1. by rewrite f_end_time, f_status.
Qed.

(** What the scheduler does after it has set the start time. *)
Lemma frame_after_start (order : list (list Z)) (pp : string) (pp_data : pyval) :
  keeps f (returned ← run_layers env order;
           _ ← (if (returned : bool) then mret tt
                else post_process_phase env order pp pp_data);
           get_result).
Proof.
  apply keeps_bind; [apply frame_run_layers|]. intros returned.
  apply keeps_bind; [|intros _; apply keeps_get_result].
  destruct returned; [apply keeps_ret | apply frame_post_process_phase].
Qed.

Hypothesis f_start_time : ∀ r t, f (set_start_time r t) = f r.

Lemma frame_run_planned_workflow : keeps f (_run_planned_workflow env).
Proof.
  unfold _run_planned_workflow.
  apply keeps_bind; [apply keeps_now|]. intros t.
  apply keeps_bind.
  { apply keeps_modify_result. intros r. by rewrite f_start_time, f_status. }
  intros _. apply keeps_bind; [apply keeps_get_result|]. intros r.
  apply frame_after_start.
Qed.


End SchedulerFrame.

(* ===================================================================== *)
(** * Further properties of the scheduler *)
(* ===================================================================== *)

Section SchedulerOutcome.

Variable env : Env.

Implicit Types (w : World) (r : Result) (nd : Node).

Lemma update_node_keeps_identity r (nr : node_result) r' :
  _update_node r nr = Ok r' → identity_of r' = identity_of r.
Proof.
  unfold _update_node, get_node.
  destruct (g_nodes _ !! _) as [nd|] eqn:E; simpl; [|discriminate].
  intros [= <-]. unfold identity_of, graph_of. simpl. f_equal.
  rewrite fmap_insert. apply insert_id. by rewrite lookup_fmap, E.
Qed.

(** X9. Whatever a run does, and whether it returns or raises,
    [_run_planned_workflow] leaves the identity of the dispatch as it found
    it: the dispatch id, the results directory, the metadata of the lattice,
    the edges of the graph, the set of nodes and, for every node, its name,
    function, value, key, attribute name and metadata. Only the run-time
    attributes of the nodes and the status, times, error and result of the
    Result are written. *)
Theorem scheduler_keeps_identity w :
  identity_of (result_object (_run_planned_workflow env w).2)
  = identity_of (result_object w).
Proof.
  apply (frame_run_planned_workflow env identity_of); try done.
  apply update_node_keeps_identity.
Qed.








End SchedulerOutcome.

Section SchedulerSteps.

Variable env : Env.

Implicit Types (w : World) (r : Result) (nd : Node) (a : task_args).

Lemma submits_post_process_phase (S : Z → Prop) (order : list (list Z))
    (pp : string) (pp_data : pyval) :
  S (-1)%Z → submits_within S (post_process_phase env order pp pp_data).
Proof.
  intros HS. unfold post_process_phase.
  apply submits_bind; [apply submits_modify|]. intros _.
  destruct (String.eqb pp "client").
  - apply submits_bind; [apply submits_now|]. intros t.
    apply submits_bind; [apply submits_modify|]. intros _. apply submits_persist.
  - apply submits_bind; [apply submits_get|]. intros r.
    apply submits_bind.
    + apply submits_try.
      * apply submits_bind; [by apply submits_emit_submit|]. intros _.
        apply submits_bind; [apply submits_now|]. intros t.
        apply submits_bind; [by apply submits_run_task|]. intros res.
        apply submits_ret.
      * intros ex. apply submits_bind; [apply submits_now|]. intros t.
        apply submits_bind; [apply submits_modify|]. intros _.
        apply submits_bind; [apply submits_persist|]. intros _.
        apply submits_ret.
    + intros [res|]; [|apply submits_ret].
      destruct (bool_decide _).
      * apply submits_bind; [apply submits_now|]. intros t.
        apply submits_bind; [apply submits_modify|]. intros _.
        apply submits_persist.
      * apply submits_bind; [apply submits_modify|]. intros _.
        apply submits_bind; [apply submits_now|]. intros t.
        apply submits_bind; [apply submits_modify|]. intros _.
        apply submits_persist.
Qed.

(** X11. A run of the scheduler only appends to the log, and every job
    it submits is for a node of the topological order computed at entry, or
    has the node id -1 (the dispatch of a sublattice, or
    post-processing). *)
Theorem scheduler_submissions w :
  let order := get_topologically_sorted_graph env (graph_of (result_object w)) in
  ∃ evs,
    log (_run_planned_workflow env w).2 = log w ++ evs
    ∧ ∀ id name, ESubmit id name ∈ evs → id = (-1)%Z ∨ id ∈ concat order.
Proof.
  intros order.
  assert (Hrun : _run_planned_workflow env w
                 = (returned ← run_layers env order;
                    _ ← (if (returned : bool) then mret tt
                         else post_process_phase env order
                                (workflow_executor (lattice (result_object w)))
                                (workflow_executor_data (lattice (result_object w))));
                    get_result) (started_world env w)) by reflexivity.
  rewrite Hrun.
  assert (Hsub : submits_within (fun id => id = (-1)%Z ∨ id ∈ concat order)
                   (returned ← run_layers env order;
                    _ ← (if (returned : bool) then mret tt
                         else post_process_phase env order
                                (workflow_executor (lattice (result_object w)))
                                (workflow_executor_data (lattice (result_object w))));
                    get_result)).
  { apply submits_bind; [apply submits_run_layers|].
    intros returned. apply submits_bind; [|intros _; apply submits_get].
    destruct returned; [apply submits_ret|].
    apply submits_post_process_phase. by left. }
  exact (Hsub (started_world env w)).
Qed.

(** A task that is not a sublattice: what [_run_task] does is decided by
    the resolution of the executor and by its [execute]. *)
Lemma run_task_plain a w :
  startswith (t_node_name a) sublattice_prefix = false →
  _run_task env a w
  = match resolve_executor env (t_selected_executor a) with
    | Raise ex => (Raise ex, w)
    | Ok executor =>
        (Ok (match execute executor (t_serialized_callable a)
                     (args (t_inputs a)) (kwargs (t_inputs a))
                     (t_call_before a) (t_call_after a)
                     (t_dispatch_id a) (t_results_dir a) (t_node_id a) with
             | Ok (output, stdout, stderr) =>
                 mkNodeResult (t_node_id a) None (Some (clock env (ticks w)))
                   (Some Result_.COMPLETED) output None (Some stdout)
                   (Some stderr) None
             | Raise ex =>
                 mkNodeResult (t_node_id a) None (Some (clock env (ticks w)))
                   (Some Result_.FAILED) PNone (Some (format_exception env ex))
                   None None None
             end),
         mkWorld (result_object w) (S (ticks w)) (log w))
    end.
Proof.
  intros Hname. rewrite _run_task_unfold. unfold _run_task_with.
  unfold_monad. rewrite Hname.
  destruct (resolve_executor env (t_selected_executor a)) as [executor|ex];
    [|done].
  by destruct (execute _ _ _ _ _ _ _ _ _) as [[[output stdout] stderr]|ex].
Qed.

(** The scheduler, once the layers have passed and the workflow executor
    is not the client. *)
Lemma run_planned_workflow_post_process w w1 :
  let r0 := result_object w in
  let order := get_topologically_sorted_graph env (graph_of r0) in
  workflow_executor (lattice r0) ≠ "client" →
  run_layers env order (started_world env w) = (Ok false, w1) →
  _run_planned_workflow env w
  = (_ ← post_process_phase env order (workflow_executor (lattice r0))
           (workflow_executor_data (lattice r0));
     get_result) w1.
Proof.
  intros r0 order Hclient Hlayers.
  assert (Hrun : _run_planned_workflow env w
                 = (returned ← run_layers env order;
                    _ ← (if (returned : bool) then mret tt
                         else post_process_phase env order
                                (workflow_executor (lattice r0))
                                (workflow_executor_data (lattice r0)));
                    get_result) (started_world env w)) by reflexivity.
  rewrite Hrun. unfold mbind at 1, M_bind at 1. by rewrite Hlayers.
Qed.

(** X12. When every layer has passed and the workflow executor, which is
    not the client, resolves and runs [_post_process] to an output: the job
    is submitted under the node id -1, the Result becomes [COMPLETED], its
    [_result] is that output, its end time is the clock reading taken after
    the job, its error is untouched, and it is persisted with
    [write_source=True]. *)
Theorem workflow_completed_by_post_processing w w1 (executor : Executor)
    (output : pyval) (stdout stderr : string) :
  let r0 := result_object w in
  let order := get_topologically_sorted_graph env (graph_of r0) in
  let pp := (workflow_executor (lattice r0), workflow_executor_data (lattice r0)) in
  let r1 := set_status (result_object w1) Result_.POSTPROCESSING in
  workflow_executor (lattice r0) ≠ "client" →
  run_layers env order (started_world env w) = (Ok false, w1) →
  resolve_executor env pp = Ok executor →
  execute executor (PTransportable _post_process)
    [make_transportable lattice_object;
     make_transportable (get_all_node_outputs env r1);
     make_transportable (order_value order)] ∅ [] []
    (dispatch_id r1) (results_dir r1) (-1)
    = Ok (output, stdout, stderr) →
  let r := set_end_time (set_status (set__result r1 output) Result_.COMPLETED)
             (clock env (S (S (ticks w1)))) in
  _run_planned_workflow env w
  = (Ok r, mkWorld r (S (S (S (ticks w1))))
             (log w1 ++ [ESubmit (-1) "post_process"] ++ persist_events r true))
  ∧ _status r = Result_.COMPLETED
  ∧ _result r = output
  ∧ _error r = _error (result_object w1).
Proof.
  intros r0 order pp r1 Hclient Hlayers Hres Hexec r.
  split; [|done].
  rewrite (run_planned_workflow_post_process _ _ Hclient Hlayers).
  apply String.eqb_neq in Hclient. subst r0 order pp r1 r.
  unfold post_process_phase, persist_and_notify.
  unfold mbind, M_bind, try_except. rewrite Hclient.
  unfold modify_result, get_result, set_result, emit, now, mret, M_ret.
  unfold mbind, M_bind. cbn [result_object ticks log].
  rewrite run_task_plain by done.
  cbn [t_selected_executor t_serialized_callable t_inputs args kwargs
       t_call_before t_call_after t_dispatch_id t_results_dir t_node_id
       result_object ticks log].
  rewrite Hres, Hexec.
  cbn [nr_status]. rewrite bool_decide_eq_false_2 by (by intros H).
  cbn [nr_status nr_stderr nr_output str_opt default result_object ticks log].
  unfold persist_events. by rewrite <- !app_assoc.
Qed.

(** X13. When every layer has passed and [_post_process] raises on the
    workflow executor: the task runner turns the exception into a node
    result without [stderr], so the Result becomes [POSTPROCESSING_FAILED]
    with the error ["Post-processing failed: None"]; the traceback of the
    exception is not recorded in the Result, and [_result] is untouched. *)
Theorem post_processing_failure_hides_error w w1 (executor : Executor)
    (ex : exn) :
  let r0 := result_object w in
  let order := get_topologically_sorted_graph env (graph_of r0) in
  let pp := (workflow_executor (lattice r0), workflow_executor_data (lattice r0)) in
  let r1 := set_status (result_object w1) Result_.POSTPROCESSING in
  workflow_executor (lattice r0) ≠ "client" →
  run_layers env order (started_world env w) = (Ok false, w1) →
  resolve_executor env pp = Ok executor →
  execute executor (PTransportable _post_process)
    [make_transportable lattice_object;
     make_transportable (get_all_node_outputs env r1);
     make_transportable (order_value order)] ∅ [] []
    (dispatch_id r1) (results_dir r1) (-1)
    = Raise ex →
  let r := set_end_time
             (set_error (set_status r1 Result_.POSTPROCESSING_FAILED)
                "Post-processing failed: None")
             (clock env (S (S (ticks w1)))) in
  _run_planned_workflow env w
  = (Ok r, mkWorld r (S (S (S (ticks w1))))
             (log w1 ++ [ESubmit (-1) "post_process"] ++ persist_events r false))
  ∧ _status r = Result_.POSTPROCESSING_FAILED
  ∧ _error r = Some "Post-processing failed: None"
  ∧ _result r = _result (result_object w1).
Proof.
  intros r0 order pp r1 Hclient Hlayers Hres Hexec r.
  split; [|done].
  rewrite (run_planned_workflow_post_process _ _ Hclient Hlayers).
  apply String.eqb_neq in Hclient. subst r0 order pp r1 r.
  unfold post_process_phase, persist_and_notify.
  unfold mbind, M_bind, try_except. rewrite Hclient.
  unfold modify_result, get_result, set_result, emit, now, mret, M_ret.
  unfold mbind, M_bind. cbn [result_object ticks log].
  rewrite run_task_plain by done.
  cbn [t_selected_executor t_serialized_callable t_inputs args kwargs
       t_call_before t_call_after t_dispatch_id t_results_dir t_node_id
       result_object ticks log].
  rewrite Hres, Hexec.
  cbn [nr_status]. rewrite bool_decide_eq_true_2 by done.
  cbn [nr_status nr_stderr nr_output str_opt default result_object ticks log].
  unfold persist_events. by rewrite <- !app_assoc.
Qed.

(** X14. When every layer has passed and the workflow executor cannot be
    resolved, the post-processing job raises and the scheduler catches it:
    the Result becomes [POSTPROCESSING_FAILED] with the error
    ["Post-processing failed"], it is persisted and notified, and the
    scheduler returns. *)
Theorem post_processing_executor_unresolved w w1 (ex : exn) :
  let r0 := result_object w in
  let order := get_topologically_sorted_graph env (graph_of r0) in
  let pp := (workflow_executor (lattice r0), workflow_executor_data (lattice r0)) in
  workflow_executor (lattice r0) ≠ "client" →
  run_layers env order (started_world env w) = (Ok false, w1) →
  resolve_executor env pp = Raise ex →
  let r := set_end_time
             (set_error (set_status (result_object w1)
                           Result_.POSTPROCESSING_FAILED)
                "Post-processing failed")
             (clock env (S (ticks w1))) in
  _run_planned_workflow env w
  = (Ok r, mkWorld r (S (S (ticks w1)))
             (log w1 ++ [ESubmit (-1) "post_process"] ++ persist_events r false))
  ∧ _status r = Result_.POSTPROCESSING_FAILED
  ∧ _error r = Some "Post-processing failed".
Proof.
  intros r0 order pp Hclient Hlayers Hres r.
  split; [|done].
  rewrite (run_planned_workflow_post_process _ _ Hclient Hlayers).
  apply String.eqb_neq in Hclient. subst r0 order pp r.
  unfold post_process_phase, persist_and_notify.
  unfold mbind, M_bind, try_except. rewrite Hclient.
  unfold modify_result, get_result, set_result, emit, now, mret, M_ret.
  unfold mbind, M_bind. cbn [result_object ticks log].
  rewrite run_task_plain by done.
  cbn [t_selected_executor t_serialized_callable t_inputs args kwargs
       t_call_before t_call_after t_dispatch_id t_results_dir t_node_id
       result_object ticks log].
  rewrite Hres.
  cbn [nr_status nr_stderr nr_output str_opt default result_object ticks log].
  unfold persist_events. by rewrite <- !app_assoc.
Qed.

End SchedulerSteps.

Section SchedulerNodes.

Variable env : Env.

Implicit Types (w : World) (r : Result) (nd : Node) (a : task_args).

(** X15. A node that is not computed inline, whose inputs assemble and
    whose metadata holds the executor and the dependencies: the scheduler
    marks the node [RUNNING] with the clock reading as start time, leaves
    its output, its end time and every other node as they are, persists and
    notifies, and only then submits the job, with the assembled inputs, the
    function of the node, the executor of its metadata and the workflow
    executor of the lattice. *)
Theorem regular_node_submitted w (node_id : Z) nd (ti : task_input)
    (executor : string) (executor_data : pyval)
    (call_before call_after : list pyval) :
  let r := result_object w in
  g_nodes (graph_of r) !! node_id = Some nd →
  is_inline (n_name nd) = false →
  _get_task_inputs node_id (n_name nd) r = Ok ti →
  md_executor (n_metadata nd) = Some executor →
  md_executor_data (n_metadata nd) = Some executor_data →
  collect_deps env (n_metadata nd) = Ok (call_before, call_after) →
  ∃ r' nd',
    submit_node env node_id w
    = (Ok (Some (mkTask node_id (dispatch_id r) (results_dir r) ti
                   (n_function nd) (executor, executor_data)
                   call_before call_after (n_name nd)
                   (workflow_executor (lattice r),
                    workflow_executor_data (lattice r)))),
       mkWorld r' (S (ticks w))
               (log w ++ persist_events r' false
                      ++ [ESubmit node_id (n_name nd)]))
    ∧ g_nodes (graph_of r') !! node_id = Some nd'
    ∧ n_status nd' = Result_.RUNNING
    ∧ n_start_time nd' = Some (clock env (ticks w))
    ∧ n_end_time nd' = n_end_time nd
    ∧ n_output nd' = n_output nd
    ∧ (∀ m, m ≠ node_id →
            g_nodes (graph_of r') !! m = g_nodes (graph_of r) !! m).
Proof.
  intros r Hnd Hinline Hin Hex Hdata Hdeps. subst r.
  unfold submit_node, update_node_result, persist_and_notify. unfold_monad.
  rewrite !(node_value_known _ _ _ _ Hnd). rewrite Hinline, Hin.
  cbn [result_object ticks log]. rewrite Hex, Hdata. unfold md_get.
  rewrite Hdeps.
  rewrite (update_node_known _ _ nd) by exact Hnd.
  cbn [result_object ticks log nr_node_id generate_node_result].
  eexists _, _. split.
  - unfold persist_events. rewrite <- !app_assoc. reflexivity.
  - unfold graph_of. simpl. rewrite lookup_insert_eq.
    split; [reflexivity|]. split; [reflexivity|]. split; [reflexivity|].
    split; [reflexivity|]. split; [reflexivity|].
    intros m Hm. by rewrite lookup_insert_ne.
Qed.

(** X16. A node whose metadata has no ["executor"]: the scheduler raises
    [KeyError] after it has read the clock; the node is not marked
    [RUNNING], nothing is persisted or submitted, and the loop over the
    layers stops there, whatever the rest of the wave and the later layers
    are. *)
Theorem node_without_executor_stops_the_run w (node_id : Z) nd
    (ti : task_input) :
  let r := result_object w in
  g_nodes (graph_of r) !! node_id = Some nd →
  is_inline (n_name nd) = false →
  _get_task_inputs node_id (n_name nd) r = Ok ti →
  md_executor (n_metadata nd) = None →
  submit_node env node_id w
  = (Raise (KeyError "executor"), mkWorld r (S (ticks w)) (log w))
  ∧ ∀ rest post,
      run_layers env ((node_id :: rest) :: post) w
      = (Raise (KeyError "executor"), mkWorld r (S (ticks w)) (log w)).
Proof.
  intros r Hnd Hinline Hin Hex. subst r.
  assert (Hsub : submit_node env node_id w
                 = (Raise (KeyError "executor"),
                    mkWorld (result_object w) (S (ticks w)) (log w))).
  { unfold submit_node. unfold_monad.
    rewrite !(node_value_known _ _ _ _ Hnd). rewrite Hinline, Hin.
    cbn [result_object ticks log]. by rewrite Hex. }
  split; [exact Hsub|]. intros rest post. simpl.
  unfold mbind, M_bind. by rewrite Hsub.
Qed.

(** X17. Jobs whose executor cannot be resolved raise in the pool; their
    done-callbacks raise in turn, which the pool swallows. Waiting for such
    jobs returns and leaves the Result, the clock and the log as they were:
    no node is updated and nothing is persisted. *)
Theorem unresolved_jobs_leave_no_trace (jobs : list task_args) w :
  (∀ job, job ∈ jobs →
          ∃ ex, resolve_executor env (t_selected_executor job) = Raise ex) →
  wait env jobs w = (Ok tt, w).
Proof.
  unfold wait. induction jobs as [|job jobs IH]; intros Hall; simpl; [done|].
  destruct (Hall job) as [ex Hex]; [apply list_elem_of_here|].
  assert (Hjob : complete_job env job w = (Ok tt, w)).
  { unfold complete_job, try_except, mbind, M_bind.
    rewrite _run_task_unfold. unfold _run_task_with, mbind, M_bind, lift.
    by rewrite Hex. }
  unfold mbind, M_bind. rewrite Hjob. apply IH.
  intros j Hj. apply Hall. by apply list_elem_of_further.
Qed.

(** X18. A job whose executor resolves, for a node of the graph: once
    it has run and its callback is done, the node is [COMPLETED] or
    [FAILED] and has an end time; its start time and what it is made of are
    as before; the last events of the log are the upsert, the save and the
    notification of the updated Result, and what was submitted before them
    is at most the dispatch of a sublattice. *)
Theorem completed_job_is_recorded (job : task_args) w nd
    (executor : Executor) :
  resolve_executor env (t_selected_executor job) = Ok executor →
  g_nodes (graph_of (result_object w)) !! t_node_id job = Some nd →
  ∃ w' nd' evs,
    complete_job env job w = (Ok tt, w')
    ∧ g_nodes (graph_of (result_object w')) !! t_node_id job = Some nd'
    ∧ n_status nd' ∈ [Result_.COMPLETED; Result_.FAILED]
    ∧ is_Some (n_end_time nd')
    ∧ n_start_time nd' = n_start_time nd
    ∧ static_node nd' = static_node nd
    ∧ log w' = log w ++ evs ++ persist_events (result_object w') false
    ∧ ∀ id name, ESubmit id name ∈ evs → id = (-1)%Z.
Proof.
  intros Hres Hnd.
  destruct (run_task_outcome env job w executor Hres)
    as (nr & w1 & Hrun & Hid & Hend & Hstart & Hst).
  pose proof (run_task_keeps env (fun r => r) job w) as Hkeep.
  destruct (submits_run_task env (fun id => id = (-1)%Z) job eq_refl w)
    as (evs & Hlog & Hsub).
  rewrite Hrun in Hkeep, Hlog. simpl in Hkeep, Hlog.
  unfold complete_job, update_node_result, persist_and_notify. unfold_monad.
  rewrite Hrun. rewrite Hkeep.
  rewrite (update_node_known _ _ nd) by (by rewrite Hid).
  cbn [result_object ticks log]. rewrite Hid.
  eexists _, _, evs. split; [reflexivity|].
  cbn [result_object ticks log]. unfold graph_of at 1. simpl.
  rewrite lookup_insert_eq. split; [reflexivity|].
  split; [|split; [|split; [|split; [reflexivity|split]]]].
  - simpl. destruct Hst as [[-> _]|[-> _]]; simpl;
      [apply list_elem_of_here | apply list_elem_of_further, list_elem_of_here].
  - simpl. destruct Hend as [t ->]. by eexists.
  - simpl. by rewrite Hstart.
  - rewrite Hlog. unfold persist_events. by rewrite <- !app_assoc.
  - exact Hsub.
Qed.

(** X19. For a wave of nodes of the graph, the check after the wait
    passes, leaving the Result, the clock and the log as they were, exactly
    when no node of the wave is [FAILED] or [CANCELLED]: a node that is
    still [RUNNING] or [NEW_OBJECT] does not stop the run. *)
Theorem wave_check_passes_iff (nodes : list Z) w :
  (∀ m, m ∈ nodes → is_Some (g_nodes (graph_of (result_object w)) !! m)) →
  (check_wave env nodes w = (Ok false, w)
   ↔ ∀ m, m ∈ nodes → node_status_is (result_object w) m not_terminal).
Proof.
  intros Hknown. split.
  - induction nodes as [|n nodes IH]; intros Hpass m Hm.
    { by apply elem_of_nil in Hm. }
    destruct (Hknown n) as [nd Hnd]; [apply list_elem_of_here|].
    simpl in Hpass. unfold persist_and_notify in Hpass. unfold_monad.
    rewrite !(node_value_known _ _ _ _ Hnd) in Hpass.
    destruct (bool_decide (n_status nd = Result_.FAILED)) eqn:Ef;
      [discriminate|].
    destruct (bool_decide (n_status nd = Result_.CANCELLED)) eqn:Ec;
      [discriminate|].
    apply bool_decide_eq_false in Ef, Ec.
    apply elem_of_cons in Hm as [->|Hm].
    + by exists nd.
    + apply IH; [|exact Hpass|exact Hm].
      intros m' Hm'. apply Hknown. by apply list_elem_of_further.
  - intros Hall.
    pose proof (check_wave_skips env nodes [] w Hall) as H.
    by rewrite app_nil_r in H.
Qed.

Lemma omap_Forall2 {A B} (f : A → outcome B) (xs : list A) :
  ∀ ys, omap f xs = Ok ys → Forall2 (fun x y => f x = Ok y) xs ys.
Proof.
  induction xs as [|x xs IH]; intros ys; simpl.
  - intros [= <-]. constructor.
  - destruct (f x) as [y|] eqn:Hy; simpl; [|discriminate].
    destruct (omap f xs) as [ys'|]; simpl; [|discriminate].
    intros [= <-]. constructor; [done | by apply IH].
Qed.

(** X20. The dependencies of a node are read in the order ["deps"],
    ["call_before"], ["call_after"], and the first of these keys that the
    metadata lacks raises [KeyError]. When they are collected,
    [call_before] is the bash dependency, if ["deps"] has one, then the pip
    dependency, if it has one, then the rehydrated entries of
    ["call_before"] in their order, and [call_after] is the rehydrated
    entries of ["call_after"] in their order. *)
Theorem deps_are_rehydrated_in_order (md : Metadata) :
  (md_deps md = None → collect_deps env md = Raise (KeyError "deps"))
  ∧ (is_Some (md_deps md) → md_call_before md = None →
     collect_deps env md = Raise (KeyError "call_before"))
  ∧ (is_Some (md_deps md) → is_Some (md_call_before md) →
     md_call_after md = None →
     collect_deps env md = Raise (KeyError "call_after"))
  ∧ ∀ call_before call_after,
      collect_deps env md = Ok (call_before, call_after) →
      ∃ deps before after bash pip calls,
        md_deps md = Some deps
        ∧ md_call_before md = Some before
        ∧ md_call_after md = Some after
        ∧ call_before = bash ++ pip ++ calls
        ∧ match deps_bash deps with
          | Some d => ∃ b, deps_bash_apply env d = Ok b ∧ bash = [b]
          | None => bash = []
          end
        ∧ match deps_pip deps with
          | Some d => ∃ p, deps_pip_apply env d = Ok p ∧ pip = [p]
          | None => pip = []
          end
        ∧ Forall2 (fun dep_json dep => deps_call_apply env dep_json = Ok dep)
                  before calls
        ∧ Forall2 (fun dep_json dep => deps_call_apply env dep_json = Ok dep)
                  after call_after.
Proof.
  unfold collect_deps, md_get.
  split; [by intros ->|]. split; [by intros [deps ->] ->|].
  split; [by intros [deps ->] [before ->] ->|].
  intros call_before call_after.
  destruct (md_deps md) as [deps|]; [|discriminate].
  destruct (md_call_before md) as [before|]; [|discriminate].
  destruct (md_call_after md) as [after|]; [|discriminate].
  simpl.
  destruct (match deps_bash deps with Some _ => _ | None => _ end)
    as [bash|] eqn:Hbash; simpl; [|discriminate].
  destruct (match deps_pip deps with Some _ => _ | None => _ end)
    as [pip|] eqn:Hpip; simpl; [|discriminate].
  destruct (omap (deps_call_apply env) before) as [calls|] eqn:Hcalls;
    simpl; [|discriminate].
  destruct (omap (deps_call_apply env) after) as [calls'|] eqn:Hafter;
    simpl; [|discriminate].
  intros [= <- <-]. exists deps, before, after, bash, pip, calls.
  split; [done|]. split; [done|]. split; [done|]. split; [done|].
  split.
  { destruct (deps_bash deps) as [d|]; [|by injection Hbash as <-].
    destruct (deps_bash_apply env d) as [b|]; [|discriminate].
    injection Hbash as <-. by exists b. }
  split.
  { destruct (deps_pip deps) as [d|]; [|by injection Hpip as <-].
    destruct (deps_pip_apply env d) as [p|]; [|discriminate].
    injection Hpip as <-. by exists p. }
  split; by apply omap_Forall2.
Qed.

End SchedulerNodes.

Section RunWorkflowFacts.

Variable env : Env.

Implicit Types (w : World) (r : Result).



End RunWorkflowFacts.

(* ===================================================================== *)
(** * Further properties of the Dispatch Store session *)
(* ===================================================================== *)

Module SessionFacts.
Import DataStore DataStoreAux DataStoreFacts.

Ltac norm_trace := repeat first [progress simpl | rewrite <- app_assoc].

Ltac in_trace :=
  rewrite ?elem_of_cons, ?elem_of_app, ?elem_of_cons; intuition.

(** X23. A body that completes normally is committed before any file
    operation. When an upload raises, the uploads queued before it have
    been performed, those queued after it and every delete are skipped,
    rollback is called after the commit and the exception leaves the
    session. When every upload returns and a delete raises, every upload
    and the deletes queued before it have been performed, the later
    deletes are skipped, and rollback is called after the commit. *)
Theorem failed_file_operation_follows_the_commit (db : WorkflowDB)
    (body : list action) :
  completes body = true →
  (∀ done a rest ex,
     uploads_of body = done ++ a :: rest →
     (∀ b, b ∈ done → upload_file db b = Ok tt) →
     upload_file db a = Raise ex →
     begin_session db body
     = (Raise ex,
        [SBegin] ++ writes_of body ++ [SCommit] ++ (SUpload <$> done)
          ++ [SRollback]))
  ∧ (∀ done d rest ex,
       (∀ a, a ∈ uploads_of body → upload_file db a = Ok tt) →
       deletes_of body = done ++ d :: rest →
       (∀ b, b ∈ done → delete_file db b = Ok tt) →
       delete_file db d = Raise ex →
       begin_session db body
       = (Raise ex,
          [SBegin] ++ writes_of body ++ [SCommit]
            ++ (SUpload <$> uploads_of body) ++ (SDelete <$> done)
            ++ [SRollback])).
Proof.
  intros Hc. split.
  - intros done a rest ex Hsplit Hdone Ha. unfold begin_session.
    rewrite (run_body_completes body Hc). simpl. rewrite Hsplit.
    rewrite (drain_stops _ _ done a rest ex Hdone Ha).
    by norm_trace.
  - intros done d rest ex Hup Hsplit Hdone Hd. unfold begin_session.
    rewrite (run_body_completes body Hc). simpl.
    rewrite drain_all by done. rewrite Hsplit.
    rewrite (drain_stops _ _ done d rest ex Hdone Hd).
    by norm_trace.
Qed.

(** A body either completes or splits at its first raise. *)
Lemma body_completes_or_raises (body : list action) :
  completes body = true
  ∨ ∃ pre ex post, body = pre ++ RaiseExn ex :: post ∧ completes pre = true.
Proof.
  induction body as [|a body IH]; [by left|].
  destruct a as [u|d|st|ex].
  - destruct IH as [H|(pre & ex & post & -> & Hpre)]; [by left|].
    right. by exists (QueueUpload u :: pre), ex, post.
  - destruct IH as [H|(pre & ex & post & -> & Hpre)]; [by left|].
    right. by exists (QueueDelete d :: pre), ex, post.
  - destruct IH as [H|(pre & ex & post & -> & Hpre)]; [by left|].
    right. by exists (Statement st :: pre), ex, post.
  - right. by exists [], ex, body.
Qed.

Lemma completes_app_raise (pre post : list action) (ex : exn) :
  completes (pre ++ RaiseExn ex :: post) = false.
Proof.
  unfold completes. rewrite forallb_app. simpl. apply andb_false_r.
Qed.

Lemma drain_cases {A} (method : A → outcome unit) (ev : A → SEvent)
    (queue : list A) (tr : list SEvent) :
  ∃ done,
    drain method ev queue tr = (Ok tt, tr ++ (ev <$> done))
    ∨ ∃ ex, drain method ev queue tr = (Raise ex, tr ++ (ev <$> done)).
Proof.
  revert tr. induction queue as [|a queue IH]; intros tr; simpl.
  - exists []. left. by rewrite app_nil_r.
  - destruct (method a) as [[]|ex].
    + destruct (IH (tr ++ [ev a])) as [done [Hd|[ex Hd]]]; exists (a :: done);
        [left | right; exists ex]; rewrite Hd; by norm_trace.
    + exists []. right. exists ex. by rewrite app_nil_r.
Qed.

Lemma writes_of_are_writes (acts : list action) (e : SEvent) :
  e ∈ writes_of acts → ∃ st, e = SWrite st.
Proof.
  induction acts as [|a acts IH]; simpl; intros He.
  - by apply elem_of_nil in He.
  - destruct a; try by apply IH.
    apply elem_of_cons in He as [->|He]; [by eexists | by apply IH].
Qed.

(** The three ways a session ends: the body raised; the body completed
    and so did every file operation attempted; the body completed and a
    file operation raised. *)
Lemma begin_session_cases (db : WorkflowDB) (body : list action) :
  (∃ pre ex post,
     body = pre ++ RaiseExn ex :: post ∧ completes pre = true
     ∧ begin_session db body
       = (Raise ex, [SBegin] ++ writes_of pre ++ [SRollback]))
  ∨ (completes body = true
     ∧ ∃ ups dels,
         begin_session db body
         = (Ok tt, [SBegin] ++ writes_of body ++ [SCommit]
                     ++ (SUpload <$> ups) ++ (SDelete <$> dels))
         ∨ ∃ ex,
             begin_session db body
             = (Raise ex, [SBegin] ++ writes_of body ++ [SCommit]
                            ++ (SUpload <$> ups) ++ (SDelete <$> dels)
                            ++ [SRollback])).
Proof.
  destruct (body_completes_or_raises body)
    as [Hc|(pre & ex & post & -> & Hpre)].
  - right. split; [done|]. unfold begin_session.
    rewrite (run_body_completes body Hc). simpl.
    match goal with
    | |- context [drain ?m ?e ?q ?t] =>
        destruct (drain_cases m e q t) as [ups [H|[ex H]]]; rewrite H
    end.
    + match goal with
      | |- context [drain ?m ?e ?q ?t] =>
          destruct (drain_cases m e q t) as [dels [H'|[ex H']]]; rewrite H'
      end; exists ups, dels; [left | right; exists ex]; by norm_trace.
    + exists ups, []. right. exists ex. by norm_trace.
  - left. exists pre, ex, post. split; [done|]. split; [done|].
    unfold begin_session. by rewrite (run_body_raises pre post ex Hpre).
Qed.

Ltac not_in_trace H :=
  rewrite ?elem_of_cons, ?elem_of_app, ?elem_of_cons, ?elem_of_nil,
    ?list_elem_of_fmap in H;
  repeat match type of H with
         | _ ∨ _ => destruct H as [H|H]
         | False => destruct H
         | _ ∈ writes_of _ =>
             apply writes_of_are_writes in H as [? H]
         | ∃ _, _ => destruct H as [? [H _]]
         end;
  try discriminate.

(** X24. Whatever the database and the body: the session is committed
    exactly when the body completes normally; rollback is called exactly
    when an exception leaves the session, and it is then the last call,
    made once; no file operation is performed unless the body has
    completed; and the first call is [begin]. *)
Theorem session_trace_shape (db : WorkflowDB) (body : list action) :
  let o := (begin_session db body).1 in
  let tr := (begin_session db body).2 in
  (SCommit ∈ tr ↔ completes body = true)
  ∧ (SRollback ∈ tr ↔ o ≠ Ok tt)
  ∧ (∀ e, e ∈ tr → is_file_event e = true → completes body = true)
  ∧ ∃ mid, tr = SBegin :: mid
                ++ match o with Ok _ => [] | Raise _ => [SRollback] end
           ∧ SRollback ∉ mid.
Proof.
  intros o tr. subst o tr.
  destruct (begin_session_cases db body)
    as [(pre & ex & post & -> & Hpre & ->)
       |(Hc & ups & dels & [->|[ex ->]])]; cbn [fst snd].
  - rewrite completes_app_raise.
    split; [split; [|discriminate]; intros Hin; by not_in_trace Hin|].
    split; [split; [done|]; intros _; in_trace|].
    split.
    { intros e He Hf. not_in_trace He; subst e; discriminate. }
    exists (writes_of pre). split; [done|].
    intros Hin. by not_in_trace Hin.
  - split; [split; [done|]; intros _; in_trace|].
    split; [split; [|done]; intros Hin; by not_in_trace Hin|].
    split; [done|].
    exists (writes_of body ++ [SCommit] ++ (SUpload <$> ups)
              ++ (SDelete <$> dels)).
    split; [rewrite app_nil_r; by norm_trace|].
    intros Hin. by not_in_trace Hin.
  - split; [split; [done|]; intros _; in_trace|].
    split; [split; [done|]; intros _; in_trace|].
    split; [done|].
    exists (writes_of body ++ [SCommit] ++ (SUpload <$> ups)
              ++ (SDelete <$> dels)).
    split; [by norm_trace|].
    intros Hin. by not_in_trace Hin.
Qed.

Lemma failed_file_operation_follows_the_commit_witness :
  begin_session db_without_b
    [QueueUpload up1; QueueUpload up2; QueueUpload up3; QueueDelete del1]
  = (Raise (mkExn "OSError" "disk full"),
     [SBegin; SCommit; SUpload up1; SRollback])
  ∧ begin_session db_keeping_old
      [QueueUpload up1; QueueDelete del1; QueueUpload up2]
    = (Raise (mkExn "OSError" "busy"),
       [SBegin; SCommit; SUpload up1; SUpload up2; SRollback]).
Proof.
  split.
  - apply (proj1 (failed_file_operation_follows_the_commit db_without_b
                    [QueueUpload up1; QueueUpload up2; QueueUpload up3;
                     QueueDelete del1] eq_refl)
             [up1] up2 [up3]); [reflexivity | | reflexivity].
    intros b Hb. apply list_elem_of_singleton in Hb as ->. reflexivity.
  - apply (proj2 (failed_file_operation_follows_the_commit db_keeping_old
                    [QueueUpload up1; QueueDelete del1; QueueUpload up2]
                    eq_refl)
             [] del1 []); [intros; reflexivity | reflexivity | | reflexivity].
    intros b Hb. by apply elem_of_nil in Hb.
Defined.

End SessionFacts.

(* ===================================================================== *)
(** * Further properties of the JSON form *)
(* ===================================================================== *)

Lemma pyval_size_elem (l : list pyval) (v : pyval) :
  v ∈ l → pyval_size v < pyval_size (PList l).
Proof.
  simpl. induction l as [|x l IH]; intros Hv.
  - by apply elem_of_nil in Hv.
  - apply elem_of_cons in Hv as [->|Hv]; simpl; [lia|].
    specialize (IH Hv). lia.
Qed.

Lemma pyval_size_lookup (d : gmap string pyval) (k : string) (v : pyval) :
  d !! k = Some v → pyval_size v < pyval_size (PDict d).
Proof.
  simpl. intros Hk.
  rewrite <- (insert_delete_id d k v Hk).
  rewrite map_fold_insert_L.
  - lia.
  - intros. lia.
  - apply lookup_delete_eq.
Qed.

Lemma pyval_nested_ind (P : pyval → Prop) :
  P PNone → (∀ b, P (PBool b)) → (∀ z, P (PInt z)) → (∀ f, P (PFloat f)) →
  (∀ s, P (PStr s)) →
  (∀ l, Forall P l → P (PList l)) →
  (∀ d, map_Forall (fun _ => P) d → P (PDict d)) →
  (∀ s, P (PStatus s)) → (∀ t, P (PDatetime t)) → (∀ o, P (PObject o)) →
  (∀ v, P v → P (PTransportable v)) →
  ∀ v, P v.
Proof.
  intros HNone HBool HInt HFloat HStr HList HDict HStatus HDate HObj HTr v.
  remember (pyval_size v) as n eqn:Hn. revert v Hn.
  induction (lt_wf n) as [n _ IH]. intros v ->.
  destruct v; auto.
  - apply HList. apply Forall_forall. intros x Hx.
    eapply IH; [|reflexivity]. by apply pyval_size_elem.
  - apply HDict. intros k x Hk.
    eapply IH; [|reflexivity]. by eapply pyval_size_lookup.
  - apply HTr. eapply IH; [|reflexivity]. simpl. lia.
Qed.

Section EncoderMore.

Variable isoformat : datetime → string.
Variable str_object : pyval → string.

(** X25. [encode_dict] on a dictionary keeps the keys and replaces
    every value by its [str()]; applying it again changes nothing; and in
    the JSON form every entry of an encoded dictionary is a string: a
    number, [None] or a NaN under a key is not rendered as a JSON number
    or as [null]. *)
Theorem encode_dict_flattens (m : gmap string pyval) :
  ∃ m',
    encode_dict str_object (PDict m) = PDict m'
    ∧ dom m' = dom m
    ∧ (∀ k v, m !! k = Some v → m' !! k = Some (PStr (py_str str_object v)))
    ∧ encode_dict str_object (PDict m') = PDict m'
    ∧ ∃ j, render isoformat str_object (PDict m') = JObj j
           ∧ ∀ k v, m !! k = Some v →
                    j !! k = Some (JStr (py_str str_object v)).
Proof.
  eexists. split; [reflexivity|]. split; [apply dom_fmap_L|]. split.
  { intros k v Hk. by rewrite lookup_fmap, Hk. }
  split.
  { simpl. f_equal. rewrite <- map_fmap_compose. apply map_fmap_ext.
    by intros k v _. }
  eexists. split; [reflexivity|].
  intros k v Hk. by rewrite !lookup_fmap, Hk.
Qed.

(** X26. The JSON form never holds the literals [NaN] or [Infinity],
    at any depth of lists and dictionaries: what
    [simplejson.dumps(.., default=result_encoder, ignore_nan=True)]
    produces is strict JSON. *)
Theorem render_is_strict_json (v : pyval) :
  strict_json (render isoformat str_object v).
Proof.
  induction v using pyval_nested_ind; try by constructor.
  - destruct f; constructor.
  - change (strict_json (JArr (render isoformat str_object <$> l))).
    constructor. apply Forall_fmap. by eapply Forall_impl.
  - change (strict_json (JObj (render isoformat str_object <$> d))).
    constructor. intros k j Hk. rewrite lookup_fmap in Hk.
    destruct (d !! k) as [x|] eqn:Hx; [|discriminate].
    injection Hk as <-. by eapply H.
Qed.

End EncoderMore.

(* ===================================================================== *)
(** * The extraction of the graph *)
(* ===================================================================== *)

Section GraphExtractionFacts.

Variable str_object : pyval → string.
Variable executor_view : pyval → outcome (option ExecutorView).
Variable docstring : pyval → outcome pyval.

Lemma str_list_idemp (l : list pyval) :
  str_list str_object (str_list str_object l) = str_list str_object l.
Proof.
  unfold str_list. rewrite <- list_fmap_compose. by apply list_fmap_ext.
Qed.

(** X27. [extract_metadata] on a dictionary without ["executor"]
    returns an equal dictionary and rewrites no list, whatever else the
    dictionary holds. In general the dictionary returned has the two lists
    of its argument and the same entries except for ["executor"],
    ["executor_name"] and ["deps"], and a list is rewritten only if
    ["executor"], ["deps"], ["call_before"] and ["call_after"] are all
    present. *)
Theorem extract_metadata_all_or_nothing (metadata : MetaDict) (h : Heap) :
  (mt_entries metadata !! "executor" = None →
   extract_metadata str_object executor_view metadata h = (Ok metadata, h))
  ∧ ∀ metadata' h',
      extract_metadata str_object executor_view metadata h = (Ok metadata', h') →
      mt_call_before metadata' = mt_call_before metadata
      ∧ mt_call_after metadata' = mt_call_after metadata
      ∧ (∀ k, k ≠ "executor" → k ≠ "executor_name" → k ≠ "deps" →
              mt_entries metadata' !! k = mt_entries metadata !! k)
      ∧ (h' ≠ h →
         is_Some (mt_entries metadata !! "executor")
         ∧ is_Some (mt_entries metadata !! "deps")
         ∧ is_Some (mt_call_before metadata)
         ∧ is_Some (mt_call_after metadata)
         ∧ is_Some (mt_entries metadata' !! "deps")).
Proof.
  split.
  { intros Hex. unfold extract_metadata. rewrite Hex. by destruct metadata. }
  intros metadata' h'. unfold extract_metadata.
  destruct (mt_entries metadata !! "executor") as [name|] eqn:Hname.
  2:{ intros [= <- <-]. by repeat split. }
  destruct (executor_view name) as [executor|ex].
  2:{ destruct (caught ex); [|discriminate]. intros [= <- <-]. by repeat split. }
  set (entries := match executor with Some _ => _ | None => _ end).
  assert (Hsame : ∀ k, k ≠ "executor" → k ≠ "executor_name" →
                       entries !! k = mt_entries metadata !! k).
  { intros k H1 H2. subst entries. destruct executor as [e|]; [|done].
    by rewrite !lookup_insert_ne. }
  destruct (entries !! "deps") as [deps|] eqn:Hdeps.
  2:{ intros [= <- <-]. simpl. split; [done|]. split; [done|].
      split; [by intros; apply Hsame | done]. }
  assert (Hd : is_Some (mt_entries metadata !! "deps")).
  { rewrite <- Hsame by done. by rewrite Hdeps. }
  destruct (mt_call_before metadata) as [cb|] eqn:Hcb.
  2:{ intros [= <- <-]. simpl. split; [done|]. split; [done|].
      split; [|done]. intros k H1 H2 H3. rewrite lookup_insert_ne by done.
      by apply Hsame. }
  destruct (mt_call_after metadata) as [ca|] eqn:Hca.
  2:{ intros [= <- <-]. simpl. split; [done|]. split; [done|].
      split; [|done]. intros k H1 H2 H3. rewrite lookup_insert_ne by done.
      by apply Hsame. }
  intros [= <- <-]. simpl. split; [done|]. split; [done|]. split.
  - intros k H1 H2 H3. rewrite lookup_insert_ne by done. by apply Hsame.
  - intros _. rewrite lookup_insert_eq. by repeat split.
Qed.

(** X28. When the executor is registered and ["deps"], ["call_before"]
    and ["call_after"] are present: the dictionary returned holds the
    encoded [__dict__] of the executor and the encoded ["deps"], and shares
    its two lists with the argument; the elements of both lists have been
    replaced by their [str()] in place, so the argument, whose entries are
    not written, holds the strings too; no other list is touched. *)
Theorem extract_metadata_rewrites_shared_lists (metadata : MetaDict)
    (h : Heap) (name deps : pyval) (e : ExecutorView) (cb ca : nat)
    (before after : list pyval) :
  mt_entries metadata !! "executor" = Some name →
  executor_view name = Ok (Some e) →
  mt_entries metadata !! "deps" = Some deps →
  mt_call_before metadata = Some cb →
  mt_call_after metadata = Some ca →
  h !! cb = Some before →
  h !! ca = Some after →
  ∃ metadata' h',
    extract_metadata str_object executor_view metadata h = (Ok metadata', h')
    ∧ mt_entries metadata' !! "executor"
      = Some (encode_dict str_object (PDict (ev_dict e)))
    ∧ mt_entries metadata' !! "deps" = Some (encode_dict str_object deps)
    ∧ mt_call_before metadata' = Some cb
    ∧ mt_call_after metadata' = Some ca
    ∧ h' !! cb = Some (str_list str_object before)
    ∧ h' !! ca = Some (str_list str_object after)
    ∧ ∀ l, l ≠ cb → l ≠ ca → h' !! l = h !! l.
Proof.
  intros Hname Hview Hdeps Hcb Hca Hbefore Hafter.
  unfold extract_metadata. rewrite Hname, Hview.
  rewrite !lookup_insert_ne by done. rewrite Hdeps, Hcb, Hca.
  eexists _, _. split; [reflexivity|]. simpl.
  rewrite lookup_insert_eq. rewrite lookup_insert_ne by done.
  rewrite lookup_insert_ne by done. rewrite lookup_insert_eq.
  split; [done|]. split; [done|]. split; [done|]. split; [done|].
  unfold stringify_in_place, Heap in *.
  destruct (decide (cb = ca)) as [->|Hne].
  - rewrite !lookup_alter_eq, Hbefore. simpl. rewrite str_list_idemp.
    split; [done|]. split.
    + rewrite Hbefore in Hafter. by injection Hafter as <-.
    + intros l H1 _. by rewrite !lookup_alter_ne.
  - split.
    + rewrite lookup_alter_ne by done. by rewrite lookup_alter_eq, Hbefore.
    + split.
      * rewrite lookup_alter_eq, lookup_alter_ne by done. by rewrite Hafter.
      * intros l H1 H2. by rewrite !lookup_alter_ne.
Qed.

Lemma extract_graph_node_without_metadata (node : NodeDict) (h : Heap) :
  nd_metadata node = None →
  ∃ ex, extract_graph_node str_object executor_view docstring node h
        = (Raise ex, h).
Proof.
  intros Hmd. unfold extract_graph_node. rewrite Hmd.
  destruct (nd_entries node !! "function") as [f|]; [|by eexists].
  destruct f; try (destruct (docstring _); by eexists). by eexists.
Qed.

(** X29. [extract_graph_node] raises when the node has no ["metadata"],
    and then rewrites no list. When it returns, the node returned has no
    ["function"] and no ["node_name"], has a ["kwargs"] entry (the encoded
    ["kwargs"] of the node, [None] if it had none), holds the extracted
    metadata, and agrees with the node on every other entry but ["doc"];
    ["doc"] too is kept when the node has no function. *)
Theorem extract_graph_node_shape (node : NodeDict) (h : Heap) :
  (nd_metadata node = None →
   ∃ ex, extract_graph_node str_object executor_view docstring node h
         = (Raise ex, h))
  ∧ ∀ node' h',
      extract_graph_node str_object executor_view docstring node h
        = (Ok node', h') →
      nd_entries node' !! "function" = None
      ∧ nd_entries node' !! "node_name" = None
      ∧ nd_entries node' !! "kwargs"
        = Some (encode_dict str_object
                  (default PNone (nd_entries node !! "kwargs")))
      ∧ (∃ metadata metadata',
           nd_metadata node = Some metadata
           ∧ nd_metadata node' = Some metadata'
           ∧ extract_metadata str_object executor_view metadata h
             = (Ok metadata', h'))
      ∧ (∀ k, k ≠ "function" → k ≠ "node_name" → k ≠ "kwargs" → k ≠ "doc" →
              nd_entries node' !! k = nd_entries node !! k)
      ∧ (nd_entries node !! "function" = None →
         nd_entries node' !! "doc" = nd_entries node !! "doc").
Proof.
  split; [apply extract_graph_node_without_metadata|].
  unfold extract_graph_node.
  - intros node' h'.
    match goal with
    | |- context [match ?c with Ok _ => _ | Raise _ => _ end] =>
        destruct c as [entries|ex] eqn:Hentries; [|discriminate]
    end.
    destruct (nd_metadata node) as [metadata|]; [|discriminate].
    destruct (extract_metadata str_object executor_view metadata h)
      as [[metadata'|ex] h1] eqn:Hmd; [|discriminate].
    intros [= <- <-]. simpl.
    assert (Hsame : ∀ k, k ≠ "doc" → entries !! k = nd_entries node !! k).
    { intros k Hk.
      destruct (nd_entries node !! "function") as [f|];
        [|by injection Hentries as <-].
      destruct f; try (destruct (docstring _) as [doc|]; [|discriminate];
                       injection Hentries as <-; by rewrite lookup_insert_ne).
      by injection Hentries as <-. }
    split; [by rewrite lookup_delete_ne, lookup_delete_eq|].
    split; [by rewrite lookup_delete_eq|].
    split.
    { rewrite !lookup_delete_ne by done. rewrite lookup_insert_eq.
      by rewrite Hsame. }
    split; [by exists metadata, metadata'|].
    split.
    { intros k H1 H2 H3 H4. rewrite !lookup_delete_ne by done.
      rewrite lookup_insert_ne by done. by apply Hsame. }
    intros Hf. rewrite !lookup_delete_ne by done.
    rewrite lookup_insert_ne by done. rewrite Hf in Hentries.
    by injection Hentries as <-.
Qed.

Lemma extract_graph_nodes_spec (nodes : list NodeDict) :
  ∀ h nodes' h',
    extract_graph_nodes str_object executor_view docstring nodes h
      = (Ok nodes', h') →
    Forall2 (fun node node' =>
               ∃ hi hi',
                 extract_graph_node str_object executor_view docstring node hi
                 = (Ok node', hi'))
            nodes nodes'.
Proof.
  induction nodes as [|node nodes IH]; intros h nodes' h'; simpl.
  - intros [= <- <-]. constructor.
  - destruct (extract_graph_node _ _ _ node h) as [[node1|ex] h1] eqn:E1;
      [|discriminate].
    destruct (extract_graph_nodes _ _ _ nodes h1) as [[nodes1|ex] h2] eqn:E2;
      [|discriminate].
    intros [= <- <-]. constructor; [by exists h, h1 | by eapply IH].
Qed.

Lemma extract_graph_nodes_raise (nodes : list NodeDict) (node : NodeDict) :
  node ∈ nodes → nd_metadata node = None →
  ∀ h, ∃ ex h',
    extract_graph_nodes str_object executor_view docstring nodes h
    = (Raise ex, h').
Proof.
  induction nodes as [|n nodes IH]; intros Hin Hmd h; simpl.
  - by apply elem_of_nil in Hin.
  - destruct (extract_graph_node _ _ _ n h) as [[node1|ex] h1] eqn:E1;
      [|by eexists _, _].
    apply elem_of_cons in Hin as [->|Hin].
    + destruct (extract_graph_node_without_metadata n h Hmd) as [ex Hex].
      congruence.
    + destruct (IH Hin Hmd h1) as (ex & h' & ->). by eexists _, _.
Qed.

(** X30. [extract_graph] passes the links through and returns one
    node for each node of the graph, in order, each the result of
    [extract_graph_node] on the node at the same position; it raises when
    a node of the graph has no ["metadata"]. *)
Theorem extract_graph_keeps_nodes_and_links (nodes : list NodeDict)
    (links : pyval) (h : Heap) :
  (∀ nodes' links' h',
     extract_graph str_object executor_view docstring nodes links h
       = (Ok (nodes', links'), h') →
     links' = links
     ∧ Forall2 (fun node node' =>
                  ∃ hi hi',
                    extract_graph_node str_object executor_view docstring
                      node hi
                    = (Ok node', hi'))
               nodes nodes')
  ∧ (∀ node, node ∈ nodes → nd_metadata node = None →
       ∃ ex h',
         extract_graph str_object executor_view docstring nodes links h
         = (Raise ex, h')).
Proof.
  unfold extract_graph. split.
  - intros nodes' links' h'.
    destruct (extract_graph_nodes _ _ _ nodes h) as [[nodes1|ex] h1] eqn:E;
      [|discriminate].
    intros [= <- <- <-]. split; [done|]. by eapply extract_graph_nodes_spec.
  - intros node Hin Hmd.
    destruct (extract_graph_nodes_raise nodes node Hin Hmd h) as (ex & h' & ->).
    by eexists _, _.
Qed.

End GraphExtractionFacts.

(* ===================================================================== *)
(** * The further properties on the sample workflows *)
(* ===================================================================== *)

Lemma workflow_completed_by_post_processing_witness :
  ∃ r w',
    _run_planned_workflow (Sample.sample_env Sample.identity_order None)
      (Sample.world_of (Sample.result_on Sample.identity_graph "local"))
    = (Ok r, w')
    ∧ _status r = Result_.COMPLETED
    ∧ _result r = PTransportable (PInt 12).
Proof.
  epose proof (workflow_completed_by_post_processing
                 (Sample.sample_env Sample.identity_order None)
                 (Sample.world_of (Sample.result_on Sample.identity_graph "local"))
                 _ Sample.local_executor (PTransportable (PInt 12)) "" "") as H.
  destruct H as (Hrun & Hst & Hres & _);
    [discriminate | vm_compute; reflexivity | reflexivity | reflexivity |].
  eexists _, _. split; [exact Hrun|]. split; [exact Hst | exact Hres].
Defined.

Lemma post_processing_failure_hides_error_witness :
  ∃ r w',
    _run_planned_workflow
      (Sample.remote_env Sample.identity_order Sample.failing_executor)
      (Sample.world_of (Sample.result_on Sample.identity_graph "remote"))
    = (Ok r, w')
    ∧ _status r = Result_.POSTPROCESSING_FAILED
    ∧ _error r = Some "Post-processing failed: None".
Proof.
  epose proof (post_processing_failure_hides_error
                 (Sample.remote_env Sample.identity_order Sample.failing_executor)
                 (Sample.world_of (Sample.result_on Sample.identity_graph "remote"))
                 _ Sample.failing_executor (mkExn "OSError" "no worker")) as H.
  destruct H as (Hrun & Hst & Herr & _);
    [discriminate | vm_compute; reflexivity | reflexivity | reflexivity |].
  eexists _, _. split; [exact Hrun|]. split; [exact Hst | exact Herr].
Defined.

Lemma post_processing_executor_unresolved_witness :
  ∃ r w',
    _run_planned_workflow (Sample.sample_env Sample.identity_order None)
      (Sample.world_of (Sample.result_on Sample.identity_graph "slurm"))
    = (Ok r, w')
    ∧ _status r = Result_.POSTPROCESSING_FAILED
    ∧ _error r = Some "Post-processing failed".
Proof.
  epose proof (post_processing_executor_unresolved
                 (Sample.sample_env Sample.identity_order None)
                 (Sample.world_of (Sample.result_on Sample.identity_graph "slurm"))
                 _ (mkExn "ValueError" "unknown executor slurm")) as H.
  destruct H as (Hrun & Hst & Herr);
    [discriminate | vm_compute; reflexivity | reflexivity |].
  eexists _, _. split; [exact Hrun|]. split; [exact Hst | exact Herr].
Defined.

Lemma regular_node_submitted_witness :
  ∃ job w' nd',
    submit_node (Sample.sample_env Sample.identity_order None) 1
      (Sample.world_of (Sample.result_on Sample.identity_graph "local"))
    = (Ok (Some job), w')
    ∧ t_selected_executor job = ("local", PDict ∅)
    ∧ g_nodes (graph_of (result_object w')) !! 1%Z = Some nd'
    ∧ n_status nd' = Result_.RUNNING
    ∧ n_start_time nd' = Some (mkDatetime 0).
Proof.
  destruct (regular_node_submitted
              (Sample.sample_env Sample.identity_order None)
              (Sample.world_of (Sample.result_on Sample.identity_graph "local"))
              1 (Sample.task_node "identity" "identity" Sample.local_metadata)
              (mkInput [] {[ "x" := PNone ]}) "local" (PDict ∅) [] [])
    as (r' & nd' & Hrun & Hnd & Hst & Hstart & _);
    [reflexivity | reflexivity | reflexivity | reflexivity | reflexivity
    | reflexivity |].
  eexists _, _, nd'. split; [exact Hrun|]. split; [reflexivity|].
  split; [exact Hnd|]. split; [exact Hst | exact Hstart].
Defined.

Lemma node_without_executor_stops_the_run_witness :
  run_layers (Sample.sample_env [[0%Z]] None) [[0%Z]]
    (Sample.world_of (Sample.result_on Sample.broken_graph "local"))
  = (Raise (KeyError "executor"),
     mkWorld (Sample.result_on Sample.broken_graph "local") 1 []).
Proof.
  apply (node_without_executor_stops_the_run
           (Sample.sample_env [[0%Z]] None)
           (Sample.world_of (Sample.result_on Sample.broken_graph "local"))
           0 (Sample.task_node "identity" "identity" Sample.no_metadata)
           (mkInput [] ∅));
    reflexivity.
Defined.

Lemma unresolved_jobs_leave_no_trace_witness :
  wait (Sample.sample_env [] None)
    [Sample.sample_task 1 "identity" "identity" "slurm" (mkInput [] ∅)]
    (Sample.world_of (Sample.result_on Sample.identity_graph "local"))
  = (Ok tt, Sample.world_of (Sample.result_on Sample.identity_graph "local")).
Proof.
  apply (unresolved_jobs_leave_no_trace (Sample.sample_env [] None)).
  intros job Hjob. apply list_elem_of_singleton in Hjob as ->.
  by eexists.
Defined.

Lemma completed_job_is_recorded_witness :
  ∃ w' nd',
    complete_job (Sample.sample_env [] None)
      (Sample.sample_task 1 "identity" "identity" "local"
         (mkInput [] {[ "x" := PInt 7 ]}))
      (Sample.world_of (Sample.result_on Sample.identity_graph "local"))
    = (Ok tt, w')
    ∧ g_nodes (graph_of (result_object w')) !! 1%Z = Some nd'
    ∧ n_status nd' ∈ [Result_.COMPLETED; Result_.FAILED].
Proof.
  destruct (completed_job_is_recorded (Sample.sample_env [] None)
              (Sample.sample_task 1 "identity" "identity" "local"
                 (mkInput [] {[ "x" := PInt 7 ]}))
              (Sample.world_of (Sample.result_on Sample.identity_graph "local"))
              (Sample.task_node "identity" "identity" Sample.local_metadata)
              Sample.local_executor)
    as (w' & nd' & evs & Hrun & Hnd & Hst & _); [reflexivity | reflexivity |].
  exists w', nd'. split; [exact Hrun|]. split; [exact Hnd | exact Hst].
Defined.

Lemma wave_check_passes_iff_witness :
  check_wave (Sample.sample_env [] None) [0%Z; 1%Z]
    (Sample.world_of (Sample.result_on Sample.identity_graph "local"))
  = (Ok false, Sample.world_of (Sample.result_on Sample.identity_graph "local")).
Proof.
  apply (wave_check_passes_iff (Sample.sample_env [] None) [0%Z; 1%Z]
           (Sample.world_of (Sample.result_on Sample.identity_graph "local"))).
  - intros m Hm. apply elem_of_cons in Hm as [->|Hm]; [by eexists|].
    apply list_elem_of_singleton in Hm as ->. by eexists.
  - intros m Hm. apply elem_of_cons in Hm as [->|Hm].
    + eexists. split; [reflexivity|]. split; discriminate.
    + apply list_elem_of_singleton in Hm as ->.
      eexists. split; [reflexivity|]. split; discriminate.
Defined.

Lemma deps_are_rehydrated_in_order_witness :
  collect_deps (Sample.sample_env [] None) Sample.no_metadata
  = Raise (KeyError "deps").
Proof.
  apply (proj1 (deps_are_rehydrated_in_order (Sample.sample_env [] None)
                  Sample.no_metadata)).
  reflexivity.
Defined.



Lemma extract_metadata_all_or_nothing_witness :
  extract_metadata GraphSample.sample_str GraphSample.sample_view
    GraphSample.metadata_without_executor GraphSample.sample_heap
  = (Ok GraphSample.metadata_without_executor, GraphSample.sample_heap).
Proof.
  apply (proj1 (extract_metadata_all_or_nothing GraphSample.sample_str
                  GraphSample.sample_view
                  GraphSample.metadata_without_executor
                  GraphSample.sample_heap)).
  reflexivity.
Defined.

Lemma extract_metadata_rewrites_shared_lists_witness :
  ∃ metadata' h',
    extract_metadata GraphSample.sample_str GraphSample.sample_view
      GraphSample.full_metadata GraphSample.sample_heap
    = (Ok metadata', h')
    ∧ mt_call_before GraphSample.full_metadata = Some 0
    ∧ h' !! 0 = Some [PStr "<DepsCall>"; PStr "int"]
    ∧ h' !! 1 = Some [PStr "<DepsCall>"].
Proof.
  destruct (extract_metadata_rewrites_shared_lists GraphSample.sample_str
              GraphSample.sample_view GraphSample.full_metadata
              GraphSample.sample_heap (PStr "local")
              (PDict {[ "bash" := PObject "DepsBash" ]})
              (mkExecutorView {[ "log_stdout" := PStr "stdout.log" ]}
                              "LocalExecutor")
              0 1 [PObject "DepsCall"; PInt 3] [PObject "DepsCall"])
    as (metadata' & h' & Hrun & _ & _ & _ & _ & Hcb & Hca & _);
    [reflexivity | reflexivity | reflexivity | reflexivity | reflexivity
    | reflexivity | reflexivity |].
  exists metadata', h'. split; [exact Hrun|]. split; [reflexivity|].
  split; [exact Hcb | exact Hca].
Defined.

Lemma extract_graph_node_shape_witness :
  ∃ ex,
    extract_graph_node GraphSample.sample_str GraphSample.sample_view
      GraphSample.sample_doc GraphSample.node_without_metadata
      GraphSample.sample_heap
    = (Raise ex, GraphSample.sample_heap).
Proof.
  apply (proj1 (extract_graph_node_shape GraphSample.sample_str
                  GraphSample.sample_view GraphSample.sample_doc
                  GraphSample.node_without_metadata GraphSample.sample_heap)).
  reflexivity.
Defined.

Lemma extract_graph_keeps_nodes_and_links_witness :
  ∃ ex h',
    extract_graph GraphSample.sample_str GraphSample.sample_view
      GraphSample.sample_doc
      [GraphSample.graph_node; GraphSample.node_without_metadata]
      (PList []) GraphSample.sample_heap
    = (Raise ex, h').
Proof.
  apply (proj2 (extract_graph_keeps_nodes_and_links GraphSample.sample_str
                  GraphSample.sample_view GraphSample.sample_doc
                  [GraphSample.graph_node; GraphSample.node_without_metadata]
                  (PList []) GraphSample.sample_heap)
           GraphSample.node_without_metadata);
    [apply list_elem_of_further, list_elem_of_here | reflexivity].
Defined.
